(** * ghdownloader: a shallow embedding of the release downloader

    The development follows the revision of the package whose asset
    fetcher takes a version directory and a [forceDownload] flag
    ([DownloadLatestReleases], [parseUserRepo], [downloadLatestRelease],
    [downloadAsset]).

    - Go strings are byte strings: [string] of the Standard Library.
    - The operating system, the forge's API and the network are an
      explicit [World] (file system, shared result list, error channel,
      standard output, trace of system calls) and an [Env] of oracles that
      decide what the outside answers.
    - A Go function that performs system calls is a program of type
      [prog], a tree of system calls; [handle] gives the effect of one call
      on the world, [run] runs a program alone, and [schedule] interleaves
      the goroutines of the fan-out under an arbitrary scheduler. *)

From Stdlib Require Import String Ascii ZArith List.
From stdpp Require Import base option list strings gmap.

Local Open Scope string_scope.
Local Open Scope Z_scope.
Local Open Scope list_scope.

(** ** Strings (package [strings] and [fmt]) *)

Module GoStrings.

(** [strings.Split(s, sep)] for a separator of one byte, which is how
    the package calls it.  The empty string splits into one empty
    segment, as in Go. *)
Fixpoint Split (s : string) (sep : ascii) : list string :=
  match s with
  | EmptyString => [EmptyString]
  | String c rest =>
      if Ascii.eqb c sep then EmptyString :: Split rest sep
      else match Split rest sep with
           | [] => [String c EmptyString]
           | seg :: segs => String c seg :: segs
           end
  end.

(** [strings.Contains(s, substr)]. *)
Fixpoint Contains (s substr : string) : bool :=
  String.prefix substr s
  || match s with
     | EmptyString => false
     | String _ rest => Contains rest substr
     end.

(** [strings.Join(elems, sep)]. *)
Definition Join (elems : list string) (sep : string) : string :=
  String.concat sep elems.

(** The line feed of the Go literal ["\n"]. *)
Definition LF : string := String (ascii_of_nat 10) EmptyString.

(** Number of separator bytes in a string. *)
Fixpoint count (sep : ascii) (s : string) : nat :=
  match s with
  | EmptyString => O
  | String c rest => ((if Ascii.eqb c sep then 1 else 0) + count sep rest)%nat
  end.

End GoStrings.

(** ** The repository identifier parser *)

Definition slash : ascii := "/"%char.

(** [parseUserRepo]: [inr (owner, repo)] is the success, [inl msg] the
    error of [fmt.Errorf]. *)
Definition parseUserRepo (userRepo : string) : string + (string * string) :=
  let parts := GoStrings.Split userRepo slash in
  if negb (length parts =? 2)%nat then inl "expected format 'owner/repo'"
  else match parts with
       | [p0; p1] => inr (p0, p1)
       | _ => inl "expected format 'owner/repo'"
       end.

(** The specification's reading of the parser: exactly two segments, both
    non-empty. *)
Definition two_nonempty_segments (s : string) : Prop :=
  exists owner repo : string,
    GoStrings.Split s slash = [owner; repo] /\ owner <> "" /\ repo <> "".

(** ** Data of the forge's client library (package [github])

    The library's structs hold pointers; a [nil] pointer is [None] and the
    getters return the zero value for it. *)

Module github.

Record ReleaseAsset := {
  Name : option string;
  URL : option string
}.

Record RepositoryRelease := {
  TagName : option string;
  Draft : option bool;
  Prerelease : option bool;
  Assets : list ReleaseAsset
}.

Definition GetName (a : ReleaseAsset) : string := default "" (Name a).
Definition GetURL (a : ReleaseAsset) : string := default "" (URL a).
Definition GetTagName (r : RepositoryRelease) : string := default "" (TagName r).
Definition GetDraft (r : RepositoryRelease) : bool := default false (Draft r).
Definition GetPrerelease (r : RepositoryRelease) : bool :=
  default false (Prerelease r).

End github.

(** ** Requests and responses (package [net/http]) *)

Module http.

(** The two clients of [downloadAsset]: the one whose [CheckRedirect]
    returns [ErrUseLastResponse], and [http.DefaultClient]. *)
Inductive Client := NoRedirectClient | DefaultClient.

Record Request := {
  Method : string;
  URL : string;
  Header : gmap string string
}.

(** [Body] is what the body stream delivers and [BodyErr] the error it
    ends with ([None]: end of file). *)
Record Response := {
  StatusCode : Z;
  Status : string;
  RespHeader : gmap string string;
  Body : string;
  BodyErr : option string
}.

Definition StatusOK : Z := 200.
Definition StatusFound : Z := 302.

(** [req.Header.Set(key, value)]. *)
Definition Header_Set (req : Request) (key value : string) : Request :=
  {| Method := Method req; URL := URL req;
     Header := <[key := value]> (Header req) |}.

(** [resp.Header.Get(key)]: the empty string when the header is absent. *)
Definition Header_Get (resp : Response) (key : string) : string :=
  default "" (RespHeader resp !! key).

End http.

(** ** The world outside the program *)

(** The file system as far as the package looks at it: what is at a path.
    [os.MkdirAll] makes the missing parents of its path (see [parents]);
    the other calls look at their own path only, and a call that fails for
    a reason outside this picture (permissions, a full disk, a missing
    parent of a file) fails by an oracle of [Env]. *)
Inductive Node :=
| File (content : string)
| Dir.

(** System calls that reach the file system, the network or the API, as
    the trace records them. *)
Inductive Event :=
| EvMkdirAll (path : string)
| EvStat (path : string)
| EvCreate (path : string)
| EvDo (c : http.Client) (req : http.Request)
| EvCopy (path : string)
| EvGetLatestRelease (owner repo : string).

(** A world is the world of one downloader: [binPaths] is the field
    [d.binPaths] of that downloader, shared by all its goroutines, and
    [errChan] is the buffer of the error channel of its call.  Programs of
    two downloaders are never run on one world. *)
Record World := {
  fs : gmap string Node;
  binPaths : list string;
  errChan : list string;
  stdout : list string;
  trace : list Event
}.

Definition with_fs (w : World) (f : gmap string Node) : World :=
  {| fs := f; binPaths := binPaths w; errChan := errChan w;
     stdout := stdout w; trace := trace w |}.

Definition with_binPaths (w : World) (l : list string) : World :=
  {| fs := fs w; binPaths := l; errChan := errChan w;
     stdout := stdout w; trace := trace w |}.

Definition with_errChan (w : World) (l : list string) : World :=
  {| fs := fs w; binPaths := binPaths w; errChan := l;
     stdout := stdout w; trace := trace w |}.

Definition with_stdout (w : World) (l : list string) : World :=
  {| fs := fs w; binPaths := binPaths w; errChan := errChan w;
     stdout := l; trace := trace w |}.

Definition record (w : World) (ev : Event) : World :=
  {| fs := fs w; binPaths := binPaths w; errChan := errChan w;
     stdout := stdout w; trace := trace w ++ [ev] |}.

(** The status codes on which [client.Do] looks for a redirect. *)
Definition redirects (code : Z) : bool :=
  (code =? 301) || (code =? 302) || (code =? 303) || (code =? 307) || (code =? 308).

(** What the outside decides.  The oracles see the whole world, so their
    answers may change over time.  [MkdirAll_err] is the failure of the
    [os.Mkdir] of one directory; [RoundTrip] is the answer of [client.Do];
    [filepath_Join] and [NewRequest_err] stand for the library functions
    [filepath.Join] and the URL check of [http.NewRequest].

    [client.Do] parses the [Location] of a redirect before it asks
    [CheckRedirect], with the parser that [http.NewRequest] uses, and
    returns an error when that fails: so the client that does not follow
    redirects never answers with a redirect whose location
    [http.NewRequest] would refuse.  This is [Location_parses]. *)
Record Env := {
  MkdirAll_err : World -> string -> option string;
  Create_err : World -> string -> option string;
  Write_err : World -> string -> option (nat * string);
  RoundTrip : World -> http.Client -> http.Request -> string + http.Response;
  LatestRelease : World -> string -> string -> string + github.RepositoryRelease;
  NewRequest_err : string -> string -> option string;
  filepath_Join : string -> string -> string;
  Location_parses :
    forall w req resp,
      RoundTrip w http.NoRedirectClient req = inr resp ->
      redirects (http.StatusCode resp) = true ->
      http.Header_Get resp "Location" <> "" ->
      NewRequest_err "GET" (http.Header_Get resp "Location") = None
}.

(** [http.NewRequest(method, url, nil)]. *)
Definition NewRequest (env : Env) (method url : string) : string + http.Request :=
  match NewRequest_err env method url with
  | Some e => inl e
  | None => inr {| http.Method := method; http.URL := url; http.Header := ∅ |}
  end.

(** The requests the asset fetcher builds: the one to the asset's API URL,
    with the token when there is one, and the one to the redirect
    location. *)
Definition apiRequest (tok apiURL : string) : http.Request :=
  {| http.Method := "GET"; http.URL := apiURL;
     http.Header :=
       <["Accept" := "application/octet-stream"]>
         (if String.eqb tok "" then ∅
          else {["Authorization" := "token " +:+ tok]}) |}.

Definition locationRequest (redirectURL : string) : http.Request :=
  {| http.Method := "GET"; http.URL := redirectURL;
     http.Header := {["Accept" := "application/octet-stream"]} |}.

(** ** Programs: trees of system calls *)

(** A call and the type of its answer.  An [option string] answer is a Go
    [error] ([None] is [nil]); [Stat] answers whether [err == nil]. *)
Inductive Sys : Type -> Type :=
| MkdirAll (path : string) : Sys (option string)
| Stat (path : string) : Sys bool
| Create (path : string) : Sys (option string)
| Do (c : http.Client) (req : http.Request) : Sys (string + http.Response)
| Copy (path : string) (src : http.Response) : Sys (option string)
| GetLatestRelease (owner repo : string) : Sys (string + github.RepositoryRelease)
| Printf (line : string) : Sys unit
| AppendBinPath (path : string) : Sys unit
| SendErr (msg : string) : Sys unit.

Inductive prog (A : Type) : Type :=
| Ret (a : A)
| Vis {X : Type} (e : Sys X) (k : X -> prog A).

Arguments Ret {A} a.
Arguments Vis {A X} e k.

Fixpoint bind {A B} (m : prog A) (f : A -> prog B) : prog B :=
  match m with
  | Ret a => f a
  | Vis e k => Vis e (fun x => bind (k x) f)
  end.

Notation "x <- m ;; f" := (bind m (fun x => f))
  (at level 100, m at next level, right associativity).
Notation "'call' e ;; f" := (Vis e (fun _ => f))
  (at level 100, e at next level, right associativity).
Notation "x <-( e ) ;; f" := (Vis e (fun x => f))
  (at level 100, right associativity).

(** The bytes [io.Copy] leaves in the file and the error it returns: a
    write error after [n] bytes keeps the first [n], otherwise the whole
    body is written and the error is the one of the body stream. *)
Definition copy_outcome (werr : option (nat * string)) (src : http.Response)
  : string * option string :=
  match werr with
  | Some (n, e) =>
      if (n <? String.length (http.Body src))%nat
      then (String.substring 0 n (http.Body src), Some e)
      else (http.Body src, http.BodyErr src)
  | None => (http.Body src, http.BodyErr src)
  end.

(** The parents of a path, outermost first: the prefixes that end before
    a separator which a name follows.  These are the paths that
    [os.MkdirAll] reaches by cutting the last name, and the separators
    before it, off its argument again and again: ["a"] and ["a/b"] for
    ["a/b/c"], and none for ["a"] and for ["/a"]. *)
Fixpoint parents_from (pre rest : string) : list string :=
  match rest with
  | String c (String c' _ as rest') =>
      if Ascii.eqb c slash && negb (Ascii.eqb c' slash) && negb (String.eqb pre "")
      then pre :: parents_from (pre +:+ String c "") rest'
      else parents_from (pre +:+ String c "") rest'
  | _ => []
  end.

Definition parents (path : string) : list string := parents_from "" path.

(** [os.MkdirAll] on a path and its parents, innermost first.  A
    directory in place is a success and a file in place the failure of
    [ENOTDIR]; where nothing is in place the parent is made sure of first
    and then the directory is made by [os.Mkdir], unless the outside
    refuses.  The directories made before a failure stay. *)
Fixpoint mkdirAll (env : Env) (w : World) (up : list string) (f : gmap string Node)
  : option string * gmap string Node :=
  match up with
  | [] => (None, f)
  | path :: up' =>
      match f !! path with
      | Some Dir => (None, f)
      | Some (File _) => (Some ("mkdir " +:+ path +:+ ": not a directory"), f)
      | None =>
          match mkdirAll env w up' f with
          | (Some e, f1) => (Some e, f1)
          | (None, f1) =>
              match MkdirAll_err env w path with
              | Some e => (Some e, f1)
              | None => (None, <[path := Dir]> f1)
              end
          end
      end
  end.

Arguments mkdirAll : simpl never.

(** The effect of one system call.  [os.MkdirAll] is [mkdirAll] in one
    step; [os.Stat] succeeds when something is at the path; [os.Create]
    fails on a directory and otherwise leaves an empty file; [io.Copy] into
    the created file is one step; the append to [d.binPaths], done under
    [d.mu], is one step, and so is a send on the error channel, whose
    capacity is the number of repositories, so that no send waits. *)
Definition handle (env : Env) {X} (e : Sys X) (w : World) : X * World :=
  match e in Sys X return X * World with
  | MkdirAll path =>
      let '(err, f) := mkdirAll env w (path :: rev (parents path)) (fs w) in
      (err, with_fs (record w (EvMkdirAll path)) f)
  | Stat path =>
      (bool_decide (is_Some (fs w !! path)), record w (EvStat path))
  | Create path =>
      let w1 := record w (EvCreate path) in
      match fs w !! path with
      | Some Dir => (Some ("open " +:+ path +:+ ": is a directory"), w1)
      | _ =>
          match Create_err env w path with
          | Some e => (Some e, w1)
          | None => (None, with_fs w1 (<[path := File ""]> (fs w)))
          end
      end
  | Do c req => (RoundTrip env w c req, record w (EvDo c req))
  | Copy path src =>
      let '(written, err) := copy_outcome (Write_err env w path) src in
      (err, with_fs (record w (EvCopy path)) (<[path := File written]> (fs w)))
  | GetLatestRelease owner repo =>
      (LatestRelease env w owner repo, record w (EvGetLatestRelease owner repo))
  | Printf line => (tt, with_stdout w (stdout w ++ [line]))
  | AppendBinPath path => (tt, with_binPaths w (binPaths w ++ [path]))
  | SendErr msg => (tt, with_errChan w (errChan w ++ [msg]))
  end.

(** A program run alone, to its end. *)
Fixpoint run (env : Env) {A} (p : prog A) (w : World) : A * World :=
  match p with
  | Ret a => (a, w)
  | Vis e k => let '(x, w1) := handle env e w in run env (k x) w1
  end.

(** ** The downloader *)

(** The fields of the Go struct that a call reads.  [binPaths] is in the
    [World]; [client] is the oracle [LatestRelease]; [wg] and [mu] are the
    barrier and the step of the scheduler; [assetsMap] is never read. *)
Record Downloader := {
  destDir : string;
  token : string;
  matchFilter : string
}.

Section Downloader.

Variable env : Env.
Variable d : Downloader.

(** [downloadAsset] is written in four parts, in the order of the
    source: the guard and the existence check ([downloadAsset] below),
    the creation of the file and the first request ([fetchAsset]), the
    reading of the redirect and the second request ([followRedirect]),
    and the copy of the body ([writeBody]). *)

(** The copy of the body into the file, and the record of the path. *)
Definition writeBody (asset : github.ReleaseAsset) (filePath : string)
    (secondResp : http.Response) : prog (option string) :=
  err <-( Copy filePath secondResp ) ;;
  match err with
  | Some e => Ret (Some ("failed to write to file '" +:+ filePath +:+ "': " +:+ e))
  | None =>
  call Printf ("Downloaded '" +:+ github.GetName asset +:+ "' to '"
               +:+ filePath +:+ "'" +:+ GoStrings.LF) ;;
  call AppendBinPath filePath ;;
  Ret None
  end.

(** From the answer to the first request to the answer to the second. *)
Definition followRedirect (asset : github.ReleaseAsset) (filePath : string)
    (resp : http.Response) : prog (option string) :=
  if negb (http.StatusCode resp =? http.StatusFound)
  then Ret (Some ("unexpected status code (expected 302 Found): got "
                  +:+ http.Status resp))
  else
  let redirectURL := http.Header_Get resp "Location" in
  if String.eqb redirectURL ""
  then Ret (Some ("no redirect location found for asset '"
                  +:+ github.GetName asset +:+ "'"))
  else
  match NewRequest env "GET" redirectURL with
  | inl e => Ret (Some ("failed to create HTTP request for redirected URL: " +:+ e))
  | inr secondReq =>
  let secondReq := http.Header_Set secondReq "Accept" "application/octet-stream" in
  r2 <-( Do http.DefaultClient secondReq ) ;;
  match r2 with
  | inl e => Ret (Some ("failed to download asset from redirect URL: " +:+ e))
  | inr secondResp =>
  if negb (http.StatusCode secondResp =? http.StatusOK)
  then Ret (Some ("bad status downloading asset from redirect URL: "
                  +:+ http.Status secondResp))
  else writeBody asset filePath secondResp
  end end.

(** The creation of the file and the first request. *)
Definition fetchAsset (asset : github.ReleaseAsset) (apiURL filePath : string)
  : prog (option string) :=
  err <-( Create filePath ) ;;
  match err with
  | Some e => Ret (Some ("failed to create file '" +:+ filePath +:+ "': " +:+ e))
  | None =>
  match NewRequest env "GET" apiURL with
  | inl e => Ret (Some ("failed to create HTTP request: " +:+ e))
  | inr req =>
  let req := if String.eqb (token d) "" then req
             else http.Header_Set req "Authorization" ("token " +:+ token d) in
  let req := http.Header_Set req "Accept" "application/octet-stream" in
  r <-( Do http.NoRedirectClient req ) ;;
  match r with
  | inl e => Ret (Some ("failed to get asset redirect URL: " +:+ e))
  | inr resp => followRedirect asset filePath resp
  end end end.

(** [downloadAsset]. *)
Definition downloadAsset (asset : github.ReleaseAsset) (versionDir : string)
    (forceDownload : bool) : prog (option string) :=
  let apiURL := github.GetURL asset in
  if String.eqb apiURL ""
  then Ret (Some ("asset '" +:+ github.GetName asset
                  +:+ "' does not have an API URL"))
  else
  let fileName := github.GetName asset in
  let filePath := filepath_Join env versionDir fileName in
  if negb forceDownload
  then
    ok <-( Stat filePath ) ;;
    if ok : bool
    then
      call Printf ("File '" +:+ filePath
                   +:+ "' already exists. Skipping download." +:+ GoStrings.LF) ;;
      call AppendBinPath filePath ;;
      Ret None
    else fetchAsset asset apiURL filePath
  else fetchAsset asset apiURL filePath.

(** The loop of [downloadLatestRelease] over the assets of the
    release. *)
Fixpoint downloadAssets (owner repo versionDir : string) (forceDownload : bool)
    (assets : list github.ReleaseAsset) : prog (option string) :=
  match assets with
  | [] => Ret None
  | asset :: rest =>
      if negb (String.eqb (matchFilter d) "")
         && negb (GoStrings.Contains (github.GetName asset) (matchFilter d))
      then
        call Printf ("Skipping asset '" +:+ github.GetName asset
                     +:+ "' (does not match filter '" +:+ matchFilter d
                     +:+ "')" +:+ GoStrings.LF) ;;
        downloadAssets owner repo versionDir forceDownload rest
      else
        err <- downloadAsset asset versionDir forceDownload ;;
        match err with
        | Some e =>
            call Printf ("Warning: failed to download asset '"
                         +:+ github.GetName asset +:+ "' from " +:+ owner
                         +:+ "/" +:+ repo +:+ ": " +:+ e +:+ GoStrings.LF) ;;
            downloadAssets owner repo versionDir forceDownload rest
        | None => downloadAssets owner repo versionDir forceDownload rest
        end
  end.

(** The tag used for the directory and the [forceDownload] flag. *)
Definition tag_and_force (release : github.RepositoryRelease) : string * bool :=
  let tag := github.GetTagName release in
  if String.eqb tag "" then ("latest", true) else (tag, false).

(** [fmt.Sprintf("%s-%s", repo, tag)]. *)
Definition dirName (repo tag : string) : string := repo +:+ "-" +:+ tag.

(** The end of [downloadLatestRelease]: the version directory is made
    and the assets are downloaded into it. *)
Definition downloadInto (owner repo versionDir : string) (forceDownload : bool)
    (assets : list github.ReleaseAsset) : prog (option string) :=
  err <-( MkdirAll versionDir ) ;;
  match err with
  | Some e => Ret (Some ("failed to create version directory '" +:+ versionDir
                         +:+ "': " +:+ e))
  | None => downloadAssets owner repo versionDir forceDownload assets
  end.

(** [downloadLatestRelease]. *)
Definition downloadLatestRelease (owner repo : string) : prog (option string) :=
  r <-( GetLatestRelease owner repo ) ;;
  match r with
  | inl e => Ret (Some ("error fetching latest release: " +:+ e))
  | inr release =>
  if github.GetDraft release || github.GetPrerelease release
  then Ret (Some "latest release is draft or pre-release")
  else
  if (length (github.Assets release) =? 0)%nat
  then Ret (Some "no assets found in the latest release")
  else
  let '(tag, forceDownload) := tag_and_force release in
  let versionDir := filepath_Join env (destDir d) (dirName repo tag) in
  downloadInto owner repo versionDir forceDownload (github.Assets release)
  end.

(** The goroutine that [DownloadLatestReleases] starts for a
    repository.  The Go closure returns nothing; the program returns the
    error it saw, so that a run can be asked what each task saw. *)
Definition goroutine (owner repo : string) : prog (option string) :=
  err <- downloadLatestRelease owner repo ;;
  match err with
  | Some e =>
      call SendErr ("failed to download " +:+ owner +:+ "/" +:+ repo
                    +:+ ": " +:+ e) ;;
      Ret err
  | None => Ret err
  end.

(** *** The fan-out *)

(** One scheduling decision: the goroutine at index [i] performs its
    next system call; a finished goroutine or an index outside the pool
    does nothing.  A scheduler is a list of such decisions: every
    interleaving of the system calls of the goroutines is the run of some
    list. *)
Definition step_at (i : nat) (pool : list (prog (option string))) (w : World)
  : list (prog (option string)) * World :=
  match pool !! i with
  | Some (Vis e k) => let '(x, w1) := handle env e w in (<[i := k x]> pool, w1)
  | _ => (pool, w)
  end.

Fixpoint schedule (sched : list nat) (pool : list (prog (option string)))
    (w : World) : list (prog (option string)) * World :=
  match sched with
  | [] => (pool, w)
  | i :: sched' => let '(pool1, w1) := step_at i pool w in schedule sched' pool1 w1
  end.

(** What is left when the scheduler's list is used up runs in the order
    of the pool. *)
Fixpoint drain (pool : list (prog (option string))) (w : World)
  : list (option string) * World :=
  match pool with
  | [] => ([], w)
  | p :: pool' =>
      let '(r, w1) := run env p w in
      let '(rs, w2) := drain pool' w1 in
      (r :: rs, w2)
  end.

(** [d.wg.Wait()]: returns when every goroutine has finished, with what
    each of them saw. *)
Definition wg_Wait (sched : list nat) (pool : list (prog (option string)))
    (w : World) : list (option string) * World :=
  let '(pool1, w1) := schedule sched pool w in drain pool1 w1.

(** The loop over [userRepos]: the goroutines started, or the first
    identifier that does not parse, its error, and the goroutines started
    before it. *)
Fixpoint spawn (userRepos : list string) (pool : list (prog (option string)))
  : (string * string * list (prog (option string))) + list (prog (option string)) :=
  match userRepos with
  | [] => inr pool
  | userRepo :: rest =>
      match parseUserRepo userRepo with
      | inl e => inl (userRepo, e, pool)
      | inr (owner, repo) => spawn rest (pool ++ [goroutine owner repo])
      end
  end.

(** What a call returns ([paths], [err]), the world at the return, and
    the goroutines of the call at that moment: finished ones are [Ret]
    of what they saw. A [nil] slice is the empty list. *)
Record Outcome := {
  paths : list string;
  err : option string;
  world : World;
  tasks : list (prog (option string))
}.

(** [DownloadLatestReleases].  The loop that starts the goroutines touches
    nothing of the world, so the steps that goroutines take while it still
    runs are steps of the scheduler after it.  When an identifier does not
    parse the call returns at once: the goroutines started before it are
    left where the scheduler brought them. *)
Definition DownloadLatestReleases (userRepos : list string) (sched : list nat)
    (w : World) : Outcome :=
  match handle env (MkdirAll (destDir d)) w with
  | (Some e, w1) =>
      {| paths := []; world := w1; tasks := [];
         err := Some ("failed to create destination directory: " +:+ e) |}
  | (None, w1) =>
      let w2 := with_errChan w1 [] in
      match spawn userRepos [] with
      | inl (userRepo, e, pool) =>
          let '(pool1, w3) := schedule sched pool w2 in
          {| paths := []; world := w3; tasks := pool1;
             err := Some ("invalid user/repo format '" +:+ userRepo
                          +:+ "': " +:+ e) |}
      | inr pool =>
          let '(results, w3) := wg_Wait sched pool w2 in
          let errs := errChan w3 in
          if (0 <? length errs)%nat
          then {| paths := binPaths w3; world := w3; tasks := map Ret results;
                  err := Some ("errors occurred:" +:+ GoStrings.LF
                               +:+ GoStrings.Join errs GoStrings.LF) |}
          else {| paths := binPaths w3; world := w3; tasks := map Ret results;
                  err := None |}
      end
  end.

End Downloader.

(** ** What the fan-out is expected to report *)

(** The identifiers that parse, as pairs. *)
Definition parsed (userRepos : list string) : list (string * string) :=
  omap (fun s => match parseUserRepo s with
                 | inr p => Some p
                 | inl _ => None
                 end) userRepos.

Definition malformed (s : string) : bool :=
  match parseUserRepo s with
  | inl _ => true
  | inr _ => false
  end.

(** The message a goroutine sends for the error of its repository. *)
Definition report (id : string * string) (e : string) : string :=
  "failed to download " +:+ id.1 +:+ "/" +:+ id.2 +:+ ": " +:+ e.

Definition failure (id : string * string) (res : option string) : list string :=
  match res with
  | Some e => [report id e]
  | None => []
  end.

(** The messages of the repositories that failed, in the order of the
    input. *)
Fixpoint failures (ids : list (string * string)) (results : list (option string))
  : list string :=
  match ids, results with
  | id :: ids', res :: results' => failure id res ++ failures ids' results'
  | _, _ => []
  end.

(** ** Invariants of the goroutines *)

(** A program that never sends on the error channel. *)
Fixpoint no_send {A} (p : prog A) : Prop :=
  match p with
  | Ret _ => True
  | Vis e k =>
      match e with
      | SendErr _ => False
      | _ => True
      end /\ forall x, no_send (k x)
  end.

(** The end of [goroutine]: the error, if any, goes to the channel. *)
Definition reporter (id : string * string) (err : option string)
  : prog (option string) :=
  match err with
  | Some e =>
      call SendErr ("failed to download " +:+ id.1 +:+ "/" +:+ id.2 +:+ ": " +:+ e) ;;
      Ret err
  | None => Ret err
  end.

(** A goroutine of the pool is on its way to its report, or finished. *)
Definition thread_ok (id : string * string) (p : prog (option string)) : Prop :=
  (exists m, no_send m /\ p = bind m (reporter id)) \/ (exists res, p = Ret res).

(** What a goroutine has sent so far, read off its state. *)
Definition contrib (id : string * string) (p : prog (option string)) : list string :=
  match p with
  | Ret res => failure id res
  | Vis _ _ => []
  end.

Fixpoint contribs (ids : list (string * string)) (pool : list (prog (option string)))
  : list string :=
  match ids, pool with
  | id :: ids', p :: pool' => contrib id p ++ contribs ids' pool'
  | _, _ => []
  end.

(** ** What a goroutine guarantees whatever the others do *)

(** Between two steps of a goroutine the others may have run and changed
    anything of the world, except that the result list and the standard
    output can only have grown. *)
Definition extends (w w' : World) : Prop :=
  (exists l, binPaths w' = binPaths w ++ l) /\ (exists l, stdout w' = stdout w ++ l).

Definition stable (P : World -> Prop) : Prop :=
  forall w w', extends w w' -> P w -> P w'.

(** [wpi env p Q w]: from [w] on, whatever the others do between its
    steps, the program [p] can only end with a result and in a world that
    satisfy [Q]. *)
Fixpoint wpi (env : Env) {A} (p : prog A) (Q : A -> World -> Prop) (w : World)
  : Prop :=
  match p with
  | Ret a => Q a w
  | Vis e k =>
      forall w', extends w w' ->
                 wpi env (k (handle env e w').1) Q (handle env e w').2
  end.

(** The asset passes the filter of the downloader. *)
Definition passes_filter (d : Downloader) (asset : github.ReleaseAsset) : bool :=
  negb (negb (String.eqb (matchFilter d) "")
        && negb (GoStrings.Contains (github.GetName asset) (matchFilter d))).

(** The warning printed for an asset that could not be downloaded. *)
Definition warning (owner repo : string) (asset : github.ReleaseAsset) (e : string)
  : string :=
  "Warning: failed to download asset '" +:+ github.GetName asset +:+ "' from "
  +:+ owner +:+ "/" +:+ repo +:+ ": " +:+ e +:+ GoStrings.LF.

(** Every asset that passes the filter is in the result list or has its
    warning on the standard output. *)
Definition assets_settled (env : Env) (d : Downloader) (owner repo versionDir : string)
    (assets : list github.ReleaseAsset) (w : World) : Prop :=
  forall asset, In asset assets -> passes_filter d asset = true ->
    In (filepath_Join env versionDir (github.GetName asset)) (binPaths w)
    \/ exists e, In (warning owner repo asset e) (stdout w).

(** The directory of a release of a repository. *)
Definition versionDirOf (env : Env) (d : Downloader) (repo : string)
    (release : github.RepositoryRelease) : string :=
  filepath_Join env (destDir d) (dirName repo (tag_and_force release).1).

(** The ways in which the task of a repository reports an error [e] from
    the world [w]: the release cannot be fetched, it is a draft or a
    pre-release, it has no asset, or its directory cannot be made. *)
Definition resolver_failure (env : Env) (d : Downloader) (owner repo : string)
    (w : World) (e : string) : Prop :=
  match LatestRelease env w owner repo with
  | inl x => e = "error fetching latest release: " +:+ x
  | inr release =>
      if github.GetDraft release || github.GetPrerelease release
      then e = "latest release is draft or pre-release"
      else if (length (github.Assets release) =? 0)%nat
      then e = "no assets found in the latest release"
      else exists x,
          (handle env (MkdirAll (versionDirOf env d repo release))
             (record w (EvGetLatestRelease owner repo))).1 = Some x
          /\ e = "failed to create version directory '"
                 +:+ versionDirOf env d repo release +:+ "': " +:+ x
  end.

(** A repository that has only drafts or pre-releases to offer as latest
    release, whenever it is asked. *)
Definition draft_only (env : Env) (id : string * string) : Prop :=
  forall w, exists release,
    LatestRelease env w id.1 id.2 = inr release
    /\ github.GetDraft release || github.GetPrerelease release = true.

(** The task of such a repository can only report that. *)
Definition draft_reported (env : Env) (id : string * string) (res : option string)
    (w : World) : Prop :=
  draft_only env id -> res = Some "latest release is draft or pre-release".

(** A repository whose task saw no error had a release resolved, and its
    assets are settled. *)
Definition release_settled (env : Env) (d : Downloader) (id : string * string)
    (res : option string) (w : World) : Prop :=
  res = None ->
  exists w0 release,
    LatestRelease env w0 id.1 id.2 = inr release
    /\ github.GetDraft release = false
    /\ github.GetPrerelease release = false
    /\ github.Assets release <> []
    /\ assets_settled env d id.1 id.2 (versionDirOf env d id.2 release)
         (github.Assets release) w.

(** ** Concrete worlds, used to run the definitions *)

Module Ex.

Definition found (location : option string) : http.Response :=
  {| http.StatusCode := 302; http.Status := "302 Found";
     http.RespHeader := match location with
                        | Some l => {["Location" := l]}
                        | None => ∅
                        end;
     http.Body := ""; http.BodyErr := None |}.

Definition ok (body : string) : http.Response :=
  {| http.StatusCode := 200; http.Status := "200 OK"; http.RespHeader := ∅;
     http.Body := body; http.BodyErr := None |}.

Definition status (code : Z) (text : string) : http.Response :=
  {| http.StatusCode := code; http.Status := text; http.RespHeader := ∅;
     http.Body := ""; http.BodyErr := None |}.

Definition asset (name url : string) : github.ReleaseAsset :=
  {| github.Name := Some name; github.URL := Some url |}.

(** An asset the API gave no URL for. *)
Definition asset_without_URL (name : string) : github.ReleaseAsset :=
  {| github.Name := Some name; github.URL := None |}.

Definition release (tag : option string) (assets : list github.ReleaseAsset)
  : github.RepositoryRelease :=
  {| github.TagName := tag; github.Draft := Some false;
     github.Prerelease := Some false; github.Assets := assets |}.

Definition draft : github.RepositoryRelease :=
  {| github.TagName := Some "v0.1"; github.Draft := Some true;
     github.Prerelease := Some false;
     github.Assets := [asset "tool_linux.tar.gz" "https://api.example/assets/9"] |}.

Definition join (dir name : string) : string := dir +:+ "/" +:+ name.

(** [client.Do] of the client that does not follow redirects, on the
    answer of the server: a redirect whose location does not parse is an
    error of the call. *)
Definition client_Do (url_err : string -> option string)
    (answer : string + http.Response) : string + http.Response :=
  match answer with
  | inl e => inl e
  | inr resp =>
      if redirects (http.StatusCode resp)
         && negb (String.eqb (http.Header_Get resp "Location") "")
      then match url_err (http.Header_Get resp "Location") with
           | Some e => inl ("failed to parse Location header: " +:+ e)
           | None => inr resp
           end
      else inr resp
  end.

Lemma client_Do_parses url_err answer resp :
  client_Do url_err answer = inr resp ->
  redirects (http.StatusCode resp) = true ->
  http.Header_Get resp "Location" <> "" ->
  url_err (http.Header_Get resp "Location") = None.
Proof.
  unfold client_Do. destruct answer as [e|resp']; [discriminate|].
  destruct (redirects (http.StatusCode resp')
            && negb (String.eqb (http.Header_Get resp' "Location") "")) eqn:Hr.
  - destruct (url_err (http.Header_Get resp' "Location")) eqn:Hu; [discriminate|].
    intros [= <-] _ _. exact Hu.
  - intros [= <-] Hred Hloc. apply String.eqb_neq in Hloc.
    rewrite Hred, Hloc in Hr. discriminate.
Qed.

(** An environment given by the answers of the server to the two
    requests, the latest release of each repository, and the failures of
    the file system and of the URL check. *)
Definition mkEnv (first second : string + http.Response)
    (latest : string -> string -> string + github.RepositoryRelease)
    (mkdir_err create_err url_err : string -> option string)
    (write_err : option (nat * string)) : Env :=
  {| MkdirAll_err := fun _ path => mkdir_err path;
     Create_err := fun _ path => create_err path;
     Write_err := fun _ _ => write_err;
     RoundTrip := fun _ c _ =>
       match c with
       | http.NoRedirectClient => client_Do url_err first
       | http.DefaultClient => second
       end;
     LatestRelease := fun _ owner repo => latest owner repo;
     NewRequest_err := fun _ url => url_err url;
     filepath_Join := join;
     Location_parses := fun _ _ resp => client_Do_parses url_err first resp |}.

Definition never : string -> option string := fun _ => None.

(** The directory of release [v1.2.0] of [tool] cannot be made. *)
Definition read_only (path : string) : option string :=
  if String.eqb path "downloads/tool-v1.2.0" then Some "permission denied" else None.

Definition linux : github.ReleaseAsset :=
  asset "tool_linux.tar.gz" "https://api.example/assets/1".
Definition darwin : github.ReleaseAsset :=
  asset "tool_darwin.tar.gz" "https://api.example/assets/2".

(** Repositories named [drafty] have a draft as latest release, those
    named [nightly] a release without tag, and the others release
    [v1.2.0] with two assets. *)
Definition latest (owner repo : string) : string + github.RepositoryRelease :=
  if String.eqb repo "drafty" then inr draft
  else if String.eqb repo "nightly" then inr (release None [linux])
  else inr (release (Some "v1.2.0") [linux; darwin]).

(** Everything succeeds: a redirect to the CDN, then the body ["B"]. *)
Definition env : Env :=
  mkEnv (inr (found (Some "https://cdn.example/asset"))) (inr (ok "B"))
    latest never never never None.

(** The URL check refuses a bracket that is not closed. *)
Definition bad_host (url : string) : option string :=
  if String.eqb url "http://[::1" then Some "missing ']' in host" else None.

Definition d : Downloader :=
  {| destDir := "downloads"; token := "s3cr3t"; matchFilter := "" |}.

Definition anonymous : Downloader :=
  {| destDir := "downloads"; token := ""; matchFilter := "" |}.

Definition empty : World :=
  {| fs := ∅; binPaths := []; errChan := []; stdout := []; trace := [] |}.

(** A world where the asset is already on disk. *)
Definition downloaded : World :=
  {| fs := {["downloads/tool-v1.2.0/tool_linux.tar.gz" := File "old"]};
     binPaths := []; errChan := []; stdout := []; trace := [] |}.

End Ex.

(** ** The rest of the package *)

(** [New].  [getenv] is [os.Getenv].  The API client that [New] builds,
    anonymous when there is no token, is the oracle [LatestRelease]; the
    new downloader has no filter, and its [binPaths] is empty: see
    [fresh]. *)
Definition New (getenv : string -> string) (token destDir : string) : Downloader :=
  let token := if String.eqb token "" then getenv "GITHUB_TOKEN" else token in
  {| destDir := destDir; token := token; matchFilter := "" |}.

(** The world of a downloader that [New] has just made: [d.binPaths] is
    [nil]. *)
Definition fresh (w : World) : World := with_binPaths w [].

(** [SetMatchFilter]. *)
Definition SetMatchFilter (d : Downloader) (match_ : string) : Downloader :=
  {| destDir := destDir d; token := token d; matchFilter := match_ |}.

(** The line printed for an asset that the filter leaves out. *)
Definition skip_line (d : Downloader) (asset : github.ReleaseAsset) : string :=
  "Skipping asset '" +:+ github.GetName asset +:+ "' (does not match filter '"
  +:+ matchFilter d +:+ "')" +:+ GoStrings.LF.

(** The path at which an asset of a version directory is saved. *)
Definition target (env : Env) (versionDir : string) (asset : github.ReleaseAsset)
  : string :=
  filepath_Join env versionDir (github.GetName asset).




(** What a call of the asset fetcher that returns [r] adds to the result
    list. *)
Definition recorded (path : string) (r : option string) : list string :=
  match r with
  | None => [path]
  | Some _ => []
  end.

(** The number of lines a call of the asset fetcher that returns [r]
    prints. *)
Definition printed (r : option string) : nat :=
  match r with
  | None => 1%nat
  | Some _ => 0%nat
  end.


(** The requests among the events of a trace, and the repositories whose
    latest release was asked for. *)
Definition requests (tr : list Event) : list (http.Client * http.Request) :=
  omap (fun ev => match ev with
                  | EvDo c req => Some (c, req)
                  | _ => None
                  end) tr.

Definition api_calls (tr : list Event) : list (string * string) :=
  omap (fun ev => match ev with
                  | EvGetLatestRelease owner repo => Some (owner, repo)
                  | _ => None
                  end) tr.

(** A program that never asks the API for a release. *)
Fixpoint no_api {A} (p : prog A) : Prop :=
  match p with
  | Ret _ => True
  | Vis e k =>
      match e with
      | GetLatestRelease _ _ => False
      | _ => True
      end /\ forall x, no_api (k x)
  end.

(** A goroutine has not started yet, or will not ask the API again. *)
Definition thread_api (env : Env) (d : Downloader) (id : string * string)
    (p : prog (option string)) : Prop :=
  p = goroutine env d id.1 id.2 \/ no_api p.

(** The repository a goroutine has asked the API about so far, read off
    its state. *)
Definition asked (id : string * string) (p : prog (option string))
  : list (string * string) :=
  match p with
  | Vis (GetLatestRelease _ _) _ => []
  | _ => [id]
  end.

Fixpoint all_asked (ids : list (string * string)) (pool : list (prog (option string)))
  : list (string * string) :=
  match ids, pool with
  | id :: ids', p :: pool' => asked id p ++ all_asked ids' pool'
  | _, _ => []
  end.

(** ** The command line *)

(** What a process gets from outside the package: the environment
    variables, the usage text that [flag.Usage] prints for the command it
    runs, which lists the flags of that command, and the prefix that the
    standard logger puts before a message. *)
Record Process := {
  getenv : string -> string;
  usage : string;
  log_prefix : string
}.

(** How [main] ends: the exit status, the world, and what went to the
    standard error. *)
Record Exit := {
  code : Z;
  final : World;
  stderr : list string
}.

(** How [flag.Parse] ends for the flag set of the command line, which
    exits on error: a flag that is not defined, or one without its value,
    ends the process with status 2 after the message and the usage; [-h]
    or [-help] ends it with status 0 after the usage; otherwise the flags
    hold their values and [main] goes on. *)
Inductive flag_Parse (Flags : Type) : Type :=
| ParseError (message : string)
| ParseHelp
| Parsed (F : Flags).

Arguments ParseError {Flags} message.
Arguments ParseHelp {Flags}.
Arguments Parsed {Flags} F.

(** [fmt.Println(s)]. *)
Definition Println (w : World) (s : string) : World :=
  with_stdout w (stdout w ++ [s +:+ GoStrings.LF]).

Definition comma : ascii := ","%char.

(** What [main] does once it has the list of identifiers, the same in
    both command lines. *)
Definition download_and_list (env : Env) (P : Process) (token dest match_ : string)
    (userRepos : list string) (sched : list nat) (w : World) : Exit :=
  let downloader := SetMatchFilter (New (getenv P) token dest) match_ in
  let w := fresh w in
  let w := Println w "Starting download..." in
  let out := DownloadLatestReleases env downloader userRepos sched w in
  match err out with
  | Some e =>
      {| code := 1; final := world out;
         stderr := [log_prefix P +:+ "Error downloading releases: " +:+ e
                    +:+ GoStrings.LF] |}
  | None =>
      let w := Println (world out) "Download completed successfully." in
      let w := Println w "Downloaded binaries:" in
      {| code := 0; final := fold_left Println (paths out) w; stderr := [] |}
  end.

(** The token of the flag, or of the environment, and the warning when
    there is none. *)
Definition token_or_env (P : Process) (flag_token : string) : string :=
  if String.eqb flag_token "" then getenv P "GITHUB_TOKEN" else flag_token.

Definition warn_without_token (token : string) (w : World) : World :=
  if String.eqb token ""
  then Println w ("Warning: No GitHub token provided. Proceeding with "
                  +:+ "unauthenticated requests (rate limits apply).")
  else w.

(** The command with one [-repo] flag for each repository. *)
Module cmd.

(** [repoList] and its methods [String] and [Set]. *)
Definition repoList := list string.

Definition repoList_String (r : repoList) : string := GoStrings.Join r ",".

Definition repoList_Set (r : repoList) (value : string) : repoList * option string :=
  (r ++ [value], None).

(** [flag.Parse] calls [Set] once for every [-repo] flag, in the order of
    the command line. *)
Definition repo_flags (values : list string) : repoList :=
  fold_left (fun r v => (repoList_Set r v).1) values [].

(** The value of the flags after [flag.Parse]. *)
Record Flags := {
  flag_token : string;
  flag_dest : string;
  flag_repo : repoList;
  flag_match : string
}.

(** [main], from the return of [flag.Parse] on. *)
Definition main (env : Env) (P : Process) (F : Flags) (sched : list nat) (w : World)
  : Exit :=
  let token := token_or_env P (flag_token F) in
  let w := warn_without_token token w in
  if (length (flag_repo F) =? 0)%nat
  then {| code := 1; final := Println w "Error: At least one repository is required.";
          stderr := [usage P] |}
  else download_and_list env P token (flag_dest F) (flag_match F) (flag_repo F)
         sched w.

(** [main] with the exits of [flag.Parse]. *)
Definition command (env : Env) (P : Process) (parse : flag_Parse Flags)
    (sched : list nat) (w : World) : Exit :=
  match parse with
  | ParseError message =>
      {| code := 2; final := w; stderr := [message +:+ GoStrings.LF; usage P] |}
  | ParseHelp => {| code := 0; final := w; stderr := [usage P] |}
  | Parsed F => main env P F sched w
  end.

End cmd.

(** The earlier command, with one [-repos] flag, a list separated by
    commas.  It calls the package as it is modelled above. *)
Module cmd_repos.

Record Flags := {
  flag_token : string;
  flag_dest : string;
  flag_repos : string;
  flag_match : string
}.

(** [main], from the return of [flag.Parse] on. *)
Definition main (env : Env) (P : Process) (F : Flags) (sched : list nat) (w : World)
  : Exit :=
  let token := token_or_env P (flag_token F) in
  let w := warn_without_token token w in
  if String.eqb (flag_repos F) ""
  then {| code := 1; final := Println w "Error: At least one repository is required.";
          stderr := [usage P] |}
  else
    let userRepos := GoStrings.Split (flag_repos F) comma in
    download_and_list env P token (flag_dest F) (flag_match F) userRepos sched w.

(** [main] with the exits of [flag.Parse]. *)
Definition command (env : Env) (P : Process) (parse : flag_Parse Flags)
    (sched : list nat) (w : World) : Exit :=
  match parse with
  | ParseError message =>
      {| code := 2; final := w; stderr := [message +:+ GoStrings.LF; usage P] |}
  | ParseHelp => {| code := 0; final := w; stderr := [usage P] |}
  | Parsed F => main env P F sched w
  end.

End cmd_repos.

(** ** The revision that saves every asset in the root directory *)

Module flat.

Section Flat.

Variable env : Env.
Variable d : Downloader.

(** [downloadAsset] of that revision; from the creation of the file on it
    is word for word [fetchAsset]. *)
Definition downloadAsset (asset : github.ReleaseAsset) : prog (option string) :=
  let apiURL := github.GetURL asset in
  if String.eqb apiURL ""
  then Ret (Some ("asset '" +:+ github.GetName asset
                  +:+ "' does not have an API URL"))
  else
  let fileName := github.GetName asset in
  let filePath := filepath_Join env (destDir d) fileName in
  ok <-( Stat filePath ) ;;
  if ok : bool
  then
    call Printf ("File '" +:+ filePath
                 +:+ "' already exists. Skipping download." +:+ GoStrings.LF) ;;
    call AppendBinPath filePath ;;
    Ret None
  else fetchAsset env d asset apiURL filePath.

(** The loop of [downloadLatestRelease] of that revision. *)
Fixpoint downloadAssets (owner repo : string) (assets : list github.ReleaseAsset)
  : prog (option string) :=
  match assets with
  | [] => Ret None
  | asset :: rest =>
      if negb (String.eqb (matchFilter d) "")
         && negb (GoStrings.Contains (github.GetName asset) (matchFilter d))
      then
        call Printf ("Skipping asset '" +:+ github.GetName asset
                     +:+ "' (does not match filter '" +:+ matchFilter d
                     +:+ "')" +:+ GoStrings.LF) ;;
        downloadAssets owner repo rest
      else
        err <- downloadAsset asset ;;
        match err with
        | Some e =>
            call Printf ("Warning: failed to download asset '"
                         +:+ github.GetName asset +:+ "' from " +:+ owner
                         +:+ "/" +:+ repo +:+ ": " +:+ e +:+ GoStrings.LF) ;;
            downloadAssets owner repo rest
        | None => downloadAssets owner repo rest
        end
  end.

(** [downloadLatestRelease] of that revision. *)
Definition downloadLatestRelease (owner repo : string) : prog (option string) :=
  r <-( GetLatestRelease owner repo ) ;;
  match r with
  | inl e => Ret (Some ("error fetching latest release: " +:+ e))
  | inr release =>
  if github.GetDraft release || github.GetPrerelease release
  then Ret (Some "latest release is draft or pre-release")
  else
  let assets := github.Assets release in
  if (length assets =? 0)%nat
  then Ret (Some "no assets found in the latest release")
  else downloadAssets owner repo assets
  end.

(** The errors of the task of that revision. *)
Definition task_failure (owner repo : string) (w : World) (e : string) : Prop :=
  match LatestRelease env w owner repo with
  | inl x => e = "error fetching latest release: " +:+ x
  | inr release =>
      if github.GetDraft release || github.GetPrerelease release
      then e = "latest release is draft or pre-release"
      else if (length (github.Assets release) =? 0)%nat
      then e = "no assets found in the latest release"
      else False
  end.

End Flat.

End flat.

(** ** The first revision: the download URL and a single request *)

Module first.

(** The asset of the client library, with the field that revision
    reads. *)
Record ReleaseAsset := {
  Name : option string;
  BrowserDownloadURL : option string
}.

Definition GetName (a : ReleaseAsset) : string := default "" (Name a).
Definition GetBrowserDownloadURL (a : ReleaseAsset) : string :=
  default "" (BrowserDownloadURL a).

(** [fmt.Sprintf("%s_%s_%s", owner, repo, asset.GetName())]. *)
Definition fileName (owner repo : string) (asset : ReleaseAsset) : string :=
  owner +:+ "_" +:+ repo +:+ "_" +:+ GetName asset.

(** The request of that revision. *)
Definition request (tok url : string) : http.Request :=
  http.Header_Set
    (http.Header_Set {| http.Method := "GET"; http.URL := url; http.Header := ∅ |}
       "Authorization" ("token " +:+ tok))
    "Accept" "application/octet-stream".

Section First.

Variable env : Env.
Variable d : Downloader.

(** [downloadAsset] of that revision. *)
Definition downloadAsset (owner repo : string) (asset : ReleaseAsset)
  : prog (option string) :=
  let url := GetBrowserDownloadURL asset in
  if String.eqb url ""
  then Ret (Some ("asset '" +:+ GetName asset +:+ "' does not have a download URL"))
  else
  let fileName := fileName owner repo asset in
  let filePath := filepath_Join env (destDir d) fileName in
  ok <-( Stat filePath ) ;;
  if ok : bool
  then
    call Printf ("File '" +:+ filePath
                 +:+ "' already exists. Skipping download." +:+ GoStrings.LF) ;;
    call AppendBinPath filePath ;;
    Ret None
  else
  err <-( Create filePath ) ;;
  match err with
  | Some e => Ret (Some ("failed to create file '" +:+ filePath +:+ "': " +:+ e))
  | None =>
  match NewRequest env "GET" url with
  | inl e => Ret (Some ("failed to create HTTP request: " +:+ e))
  | inr req =>
  let req := http.Header_Set req "Authorization" ("token " +:+ token d) in
  let req := http.Header_Set req "Accept" "application/octet-stream" in
  r <-( Do http.DefaultClient req ) ;;
  match r with
  | inl e => Ret (Some ("failed to download asset: " +:+ e))
  | inr resp =>
  if negb (http.StatusCode resp =? http.StatusOK)
  then Ret (Some ("bad status downloading asset: " +:+ http.Status resp))
  else
  err <-( Copy filePath resp ) ;;
  match err with
  | Some e => Ret (Some ("failed to write to file '" +:+ filePath +:+ "': " +:+ e))
  | None =>
  call Printf ("Downloaded '" +:+ GetName asset +:+ "' to '"
               +:+ filePath +:+ "'" +:+ GoStrings.LF) ;;
  call AppendBinPath filePath ;;
  Ret None
  end end end end.

End First.

End first.

(** ** More examples *)

Module Cases.

(** The API answers [503] to the first request. *)
Definition unavailable : Env :=
  Ex.mkEnv (inr (Ex.status 503 "503 Service Unavailable")) (inr (Ex.ok "B"))
    Ex.latest Ex.never Ex.never Ex.never None.

(** A downloader that wants the assets for Windows only. *)
Definition windows : Downloader :=
  {| destDir := "downloads"; token := "s3cr3t"; matchFilter := "windows" |}.

(** A downloader that wants the assets for Linux only. *)
Definition only_linux : Downloader :=
  {| destDir := "downloads"; token := "s3cr3t"; matchFilter := "linux" |}.

(** The API knows no repository without an owner. *)
Definition owners : Env :=
  Ex.mkEnv (inr (Ex.found (Some "https://cdn.example/asset"))) (inr (Ex.ok "B"))
    (fun owner repo =>
       if String.eqb owner "" then inl "404 Not Found" else Ex.latest owner repo)
    Ex.never Ex.never Ex.never None.

(** The latest release has a tag with a [/]. *)
Definition slashed : Env :=
  Ex.mkEnv (inr (Ex.found (Some "https://cdn.example/asset"))) (inr (Ex.ok "B"))
    (fun _ _ => inr (Ex.release (Some "release/1.0") [Ex.linux]))
    Ex.never Ex.never Ex.never None.

(** The server answers the first request with a redirect to a location
    that does not parse. *)
Definition bad_location : Env :=
  Ex.mkEnv (inr (Ex.found (Some "http://[::1"))) (inr (Ex.ok "B"))
    Ex.latest Ex.never Ex.never Ex.bad_host None.

(** A file stands where the root directory should be. *)
Definition blocked : World :=
  {| fs := {["downloads" := File "not a directory at all"]};
     binPaths := []; errChan := []; stdout := []; trace := [] |}.

(** An asset as the first revision reads it. *)
Definition legacy (name url : string) : first.ReleaseAsset :=
  {| first.Name := Some name; first.BrowserDownloadURL := Some url |}.

(** The download URL answers with the body at once. *)
Definition direct : Env :=
  Ex.mkEnv (inr (Ex.ok "B")) (inr (Ex.ok "B")) Ex.latest Ex.never Ex.never Ex.never
    None.

End Cases.

(** * Properties *)

(** ** The parser *)

Section ParserFacts.

Lemma Split_nonempty s sep : GoStrings.Split s sep <> [].
Proof.
  destruct s as [|c rest]; simpl; [discriminate|].
  destruct (Ascii.eqb c sep); [discriminate|].
  destruct (GoStrings.Split rest sep); discriminate.
Qed.

Lemma Split_length s sep :
  length (GoStrings.Split s sep) = S (GoStrings.count sep s).
Proof.
  induction s as [|c rest IH]; simpl; [reflexivity|].
  destruct (Ascii.eqb c sep); simpl; [now rewrite IH|].
  destruct (GoStrings.Split rest sep) as [|seg segs] eqn:E; simpl in *; lia.
Qed.

(** Joining the segments with the separator gives the string back. *)
Lemma Join_Split s sep :
  String.concat (String sep EmptyString) (GoStrings.Split s sep) = s.
Proof.
  induction s as [|c rest IH]; simpl; [reflexivity|].
  destruct (Ascii.eqb c sep) eqn:Ec.
  - apply Ascii.eqb_eq in Ec. subst c.
    pose proof (Split_nonempty rest sep) as Hne.
    destruct (GoStrings.Split rest sep) as [|seg segs]; [congruence|].
    simpl in *. now rewrite IH.
  - pose proof (Split_nonempty rest sep) as Hne.
    destruct (GoStrings.Split rest sep) as [|seg segs]; [congruence|].
    destruct segs as [|seg' segs']; simpl in *; now rewrite <- IH.
Qed.

Lemma parseUserRepo_inr s owner repo :
  parseUserRepo s = inr (owner, repo) <-> GoStrings.Split s slash = [owner; repo].
Proof.
  unfold parseUserRepo.
  destruct (GoStrings.Split s slash) as [|p0 [|p1 [|p2 ps]]]; simpl;
    split; intros H; try discriminate; congruence.
Qed.

Lemma parseUserRepo_inl s msg :
  parseUserRepo s = inl msg -> msg = "expected format 'owner/repo'".
Proof.
  unfold parseUserRepo.
  destruct (negb _); [congruence|].
  destruct (GoStrings.Split s slash) as [|p0 [|p1 [|p2 ps]]]; congruence.
Qed.

Lemma parseUserRepo_count s :
  (exists o r, parseUserRepo s = inr (o, r)) <-> GoStrings.count slash s = 1%nat.
Proof.
  pose proof (Split_length s slash) as Hl.
  split.
  - intros (o & r & H). apply parseUserRepo_inr in H. rewrite H in Hl.
    simpl in Hl. lia.
  - intros Hc. rewrite Hc in Hl.
    destruct (GoStrings.Split s slash) as [|p0 [|p1 [|p2 ps]]] eqn:E;
      simpl in Hl; try lia.
    exists p0, p1. now apply parseUserRepo_inr.
Qed.

End ParserFacts.

(** C4, as the code has it: [parseUserRepo] succeeds exactly when the
    split on [/] has two segments, which is when the string holds exactly
    one [/]; it then returns the two segments, empty or not, and otherwise
    fails with the format error. *)
Theorem parseUserRepo_two_segments (s : string) :
  match parseUserRepo s with
  | inr (owner, repo) =>
      GoStrings.Split s slash = [owner; repo] /\ GoStrings.count slash s = 1%nat
  | inl e =>
      e = "expected format 'owner/repo'"
      /\ length (GoStrings.Split s slash) <> 2%nat
      /\ GoStrings.count slash s <> 1%nat
  end.
Proof.
  destruct (parseUserRepo s) as [e|[owner repo]] eqn:E.
  - split; [eapply parseUserRepo_inl; eauto|].
    assert (Hc : GoStrings.count slash s <> 1%nat).
    { intros Hc. apply parseUserRepo_count in Hc as (o & r & Hc). congruence. }
    split; [|exact Hc]. rewrite Split_length. lia.
  - split; [now apply parseUserRepo_inr|].
    apply parseUserRepo_count. eauto.
Qed.

(** C4 as stated fails: a leading or a trailing [/] gives an empty owner
    or an empty repository name, and the parser accepts both. *)
Lemma parseUserRepo_accepts_empty_segment :
  parseUserRepo "/repo" = inr ("", "repo")
  /\ parseUserRepo "owner/" = inr ("owner", "")
  /\ ~ two_nonempty_segments "/repo"
  /\ ~ two_nonempty_segments "owner/".
Proof.
  repeat split; try reflexivity.
  - intros (o & r & H & Ho & Hr). vm_compute in H. congruence.
  - intros (o & r & H & Ho & Hr). vm_compute in H. congruence.
Qed.

(** C9: whenever [parseUserRepo] succeeds with [(owner, repo)], the input
    is [owner], a [/] and [repo].  (The parser is a function of its
    argument alone: it reads and writes nothing else.) *)
Theorem parseUserRepo_roundtrip (s owner repo : string) :
  parseUserRepo s = inr (owner, repo) -> owner +:+ "/" +:+ repo = s.
Proof.
  intros H. apply parseUserRepo_inr in H.
  pose proof (Join_Split s slash) as J. rewrite H in J. exact J.
Qed.

Lemma parseUserRepo_roundtrip_witness :
  parseUserRepo "dropsite-ai/ghdownloader" = inr ("dropsite-ai", "ghdownloader")
  /\ "dropsite-ai" +:+ "/" +:+ "ghdownloader" = "dropsite-ai/ghdownloader".
Proof.
  split; [reflexivity|].
  apply (parseUserRepo_roundtrip "dropsite-ai/ghdownloader"). reflexivity.
Defined.

(** ** Running programs *)

Section RunFacts.

Variable env : Env.

Lemma run_bind {A B} (m : prog A) (f : A -> prog B) (w : World) :
  run env (bind m f) w = let '(a, w1) := run env m w in run env (f a) w1.
Proof.
  revert w. induction m as [a|X e k IH]; intros w; simpl; [reflexivity|].
  destruct (handle env e w) as [x w1]. apply IH.
Qed.

Lemma handle_Create_ok path w :
  fs w !! path <> Some Dir ->
  Create_err env w path = None ->
  handle env (Create path) w
  = (None, with_fs (record w (EvCreate path)) (<[path := File ""]> (fs w))).
Proof.
  intros Hd Hc. simpl. rewrite Hc.
  destruct (fs w !! path) as [[c|]|]; congruence.
Qed.

(** What [os.MkdirAll] does to the file system: a path keeps what was at
    it, or it is one of the paths of the call, nothing was at it and it is
    a directory now; after a success the first path is a directory; and
    a file at the first path is a failure. *)
Lemma mkdirAll_spec w up f :
  let '(r, f1) := mkdirAll env w up f in
  (forall q, f1 !! q = f !! q
             \/ (f !! q = None /\ f1 !! q = Some Dir /\ In q up))
  /\ (r = None -> forall p, head up = Some p -> f1 !! p = Some Dir)
  /\ (forall p c, head up = Some p -> f !! p = Some (File c) ->
      r = Some ("mkdir " +:+ p +:+ ": not a directory")).
Proof.
  induction up as [|path up IH].
  { change (mkdirAll env w [] f) with (@None string, f).
    split; [now left|]. split; [intros _ p [=]|intros p c [=]]. }
  change (mkdirAll env w (path :: up) f)
    with (match f !! path with
          | Some Dir => (None, f)
          | Some (File _) => (Some ("mkdir " +:+ path +:+ ": not a directory"), f)
          | None =>
              match mkdirAll env w up f with
              | (Some e, f1) => (Some e, f1)
              | (None, f1) =>
                  match MkdirAll_err env w path with
                  | Some e => (Some e, f1)
                  | None => (None, <[path := Dir]> f1)
                  end
              end
          end).
  destruct (f !! path) as [[c|]|] eqn:Hp.
  - split; [now left|]. split; [discriminate|].
    intros p c' [= <-]. reflexivity.
  - split; [now left|]. split; [intros _ p [= <-]; exact Hp|].
    intros p c [= <-]. congruence.
  - destruct (mkdirAll env w up f) as [[e|] f1].
    + destruct IH as (Hfs & _). split.
      { intros q. destruct (Hfs q) as [H|(H1 & H2 & H3)]; [now left|].
        right. repeat split; auto. now right. }
      split; [discriminate|]. intros p c [= <-]. congruence.
    + destruct IH as (Hfs & _).
      destruct (MkdirAll_err env w path) as [e|].
      * split.
        { intros q. destruct (Hfs q) as [H|(H1 & H2 & H3)]; [now left|].
          right. repeat split; auto. now right. }
        split; [discriminate|]. intros p c [= <-]. congruence.
      * split.
        { intros q. destruct (decide (q = path)) as [->|Hq].
          - right. rewrite lookup_insert_eq. repeat split; auto. now left.
          - rewrite lookup_insert_ne by congruence.
            destruct (Hfs q) as [H|(H1 & H2 & H3)]; [now left|].
            right. repeat split; auto. now right. }
        split; [intros _ p [= <-]; apply lookup_insert_eq|].
        intros p c [= <-]. congruence.
Qed.

Lemma handle_MkdirAll_cases path w :
  let '(r, w1) := handle env (MkdirAll path) w in
  trace w1 = trace w ++ [EvMkdirAll path]
  /\ binPaths w1 = binPaths w /\ errChan w1 = errChan w /\ stdout w1 = stdout w.
Proof.
  cbn [handle]. destruct (mkdirAll env w _ (fs w)) as [r f1]. cbn. auto.
Qed.

(** The parents of some paths. *)
Example parents_of_paths :
  parents "downloads/tool-release/1.0" = ["downloads"; "downloads/tool-release"]
  /\ parents "downloads" = []
  /\ parents "/srv" = []
  /\ parents "/srv/downloads/" = ["/srv"]
  /\ parents "./downloads" = ["."].
Proof. repeat split. Qed.

(** The trace only grows. *)
Lemma handle_extends_trace {X} (e : Sys X) w :
  exists rest, trace (handle env e w).2 = trace w ++ rest.
Proof.
  destruct e; cbn [handle].
  - destruct (mkdirAll env w _ (fs w)). now eexists.
  - now eexists.
  - destruct (fs w !! path) as [[c|]|]; try destruct (Create_err env w path);
      now eexists.
  - now eexists.
  - destruct (copy_outcome (Write_err env w path) src). now eexists.
  - now eexists.
  - exists []. cbn. now rewrite app_nil_r.
  - exists []. cbn. now rewrite app_nil_r.
  - exists []. cbn. now rewrite app_nil_r.
Qed.

Lemma run_extends_trace {A} (p : prog A) w :
  exists rest, trace (run env p w).2 = trace w ++ rest.
Proof.
  revert w. induction p as [a|X e k IH]; intros w.
  { exists []. cbn. now rewrite app_nil_r. }
  cbn [run]. destruct (handle_extends_trace e w) as (rest1 & H1).
  destruct (handle env e w) as [x w1]. cbn [snd] in H1.
  destruct (IH x w1) as (rest2 & H2). exists (rest1 ++ rest2).
  now rewrite H2, H1, app_assoc.
Qed.

(** The file system after [os.MkdirAll]. *)
Lemma handle_MkdirAll_fs path w :
  let '(r, w1) := handle env (MkdirAll path) w in
  (forall q, fs w1 !! q = fs w !! q
             \/ (fs w !! q = None /\ fs w1 !! q = Some Dir
                 /\ In q (path :: parents path)))
  /\ (r = None -> fs w1 !! path = Some Dir)
  /\ (forall c, fs w !! path = Some (File c) ->
      r = Some ("mkdir " +:+ path +:+ ": not a directory")).
Proof.
  cbn [handle]. pose proof (mkdirAll_spec w (path :: rev (parents path)) (fs w)) as H.
  destruct (mkdirAll env w _ (fs w)) as [r f1]. cbn [fs with_fs].
  destruct H as (Hfs & Hok & Hfile). split; [|split].
  - intros q. destruct (Hfs q) as [H|(H1 & H2 & [H3|H3])]; [now left| |].
    + right. repeat split; auto. now left.
    + right. repeat split; auto. right. now apply in_rev.
  - intros Hr. now apply Hok.
  - intros c Hc. now apply (Hfile path c).
Qed.

End RunFacts.

(** ** The asset fetcher *)

(** C10: an asset whose API URL is empty makes [downloadAsset] return its
    error at once: the program performs no system call at all, so it
    leaves the file system, the result list and every other part of the
    world as they were. *)
Theorem downloadAsset_empty_URL env d asset versionDir forceDownload w :
  github.GetURL asset = "" ->
  downloadAsset env d asset versionDir forceDownload
  = Ret (Some ("asset '" +:+ github.GetName asset +:+ "' does not have an API URL"))
  /\ run env (downloadAsset env d asset versionDir forceDownload) w
     = (Some ("asset '" +:+ github.GetName asset +:+ "' does not have an API URL"), w).
Proof.
  intros H. unfold downloadAsset. rewrite H. simpl. split; reflexivity.
Qed.

Lemma downloadAsset_empty_URL_witness :
  github.GetURL (Ex.asset_without_URL "tool_linux.tar.gz") = ""
  /\ run Ex.env
       (downloadAsset Ex.env Ex.d (Ex.asset_without_URL "tool_linux.tar.gz")
          "downloads/tool-v1.2.0" false) Ex.downloaded
     = (Some "asset 'tool_linux.tar.gz' does not have an API URL", Ex.downloaded).
Proof.
  split; [reflexivity|].
  apply (downloadAsset_empty_URL Ex.env Ex.d (Ex.asset_without_URL "tool_linux.tar.gz")
           "downloads/tool-v1.2.0" false Ex.downloaded).
  reflexivity.
Defined.

(** ** The release resolver *)

(** C3: once the latest release is resolved (fetched, neither draft nor
    pre-release, with assets), the task makes the subdirectory and runs the
    loop over the assets in it.  With an empty tag the subdirectory is
    [<repo>-latest] under the root and [forceDownload] is [true]; with a
    tag [T] that is not empty it is [<repo>-T] and [forceDownload] is
    [false].  That directory is the argument of [os.MkdirAll], whose
    failure is the error of the task, and that directory and that flag are
    the arguments with which the loop calls [downloadAsset] for each asset
    that passes the filter. *)
Theorem downloadLatestRelease_directory env d owner repo w release :
  LatestRelease env w owner repo = inr release ->
  github.GetDraft release = false ->
  github.GetPrerelease release = false ->
  github.Assets release <> [] ->
  let tag := if String.eqb (github.GetTagName release) "" then "latest"
             else github.GetTagName release in
  let force := String.eqb (github.GetTagName release) "" in
  let dir := filepath_Join env (destDir d) (repo +:+ "-" +:+ tag) in
  let w0 := record w (EvGetLatestRelease owner repo) in
  (github.GetTagName release = "" ->
   dir = filepath_Join env (destDir d) (repo +:+ "-latest") /\ force = true)
  /\ (forall T, github.GetTagName release = T -> T <> "" ->
      dir = filepath_Join env (destDir d) (repo +:+ "-" +:+ T) /\ force = false)
  /\ (exists rest,
        trace (run env (downloadLatestRelease env d owner repo) w).2
        = trace w ++ EvGetLatestRelease owner repo :: EvMkdirAll dir :: rest)
  /\ (forall x,
      (handle env (MkdirAll dir) w0).1 = Some x ->
      run env (downloadLatestRelease env d owner repo) w
      = (Some ("failed to create version directory '" +:+ dir +:+ "': " +:+ x),
         (handle env (MkdirAll dir) w0).2))
  /\ ((handle env (MkdirAll dir) w0).1 = None ->
      run env (downloadLatestRelease env d owner repo) w
      = run env (downloadAssets env d owner repo dir force (github.Assets release))
          (handle env (MkdirAll dir) w0).2)
  /\ (forall asset rest w',
      passes_filter d asset = true ->
      run env (downloadAssets env d owner repo dir force (asset :: rest)) w'
      = let '(r, w1) := run env (downloadAsset env d asset dir force) w' in
        run env (downloadAssets env d owner repo dir force rest)
          match r with
          | Some e => with_stdout w1 (stdout w1 ++ [warning owner repo asset e])
          | None => w1
          end).
Proof.
  intros Hrel Hd Hp Ha tag force dir w0.
  assert (Hlen : (length (github.Assets release) =? 0)%nat = false).
  { destruct (github.Assets release); [congruence|reflexivity]. }
  assert (Htf : tag_and_force release = (tag, force)).
  { unfold tag_and_force, tag, force.
    destruct (String.eqb (github.GetTagName release) ""); reflexivity. }
  assert (Hrun : run env (downloadLatestRelease env d owner repo) w
                 = let '(err, w2) := handle env (MkdirAll dir) w0 in
                   match err with
                   | Some x =>
                       (Some ("failed to create version directory '" +:+ dir
                              +:+ "': " +:+ x), w2)
                   | None =>
                       run env (downloadAssets env d owner repo dir force
                                  (github.Assets release)) w2
                   end).
  { unfold downloadLatestRelease.
    change (run env (Vis (GetLatestRelease owner repo) ?k) w)
      with (run env (k (LatestRelease env w owner repo)) w0).
    cbv beta. rewrite Hrel. cbv beta iota. rewrite Hd, Hp, Hlen. cbn [orb].
    cbv beta iota. rewrite Htf. cbv beta iota zeta.
    unfold downloadInto, dirName. fold dir. cbn [run].
    destruct (handle env (MkdirAll dir) w0) as [[x|] w2]; reflexivity. }
  split; [|split; [|split; [|split; [|split]]]].
  - intros Ht. unfold dir, tag, force. rewrite Ht. split; reflexivity.
  - intros T Ht HT. unfold dir, tag, force. rewrite Ht.
    apply String.eqb_neq in HT. rewrite HT. split; reflexivity.
  - rewrite Hrun. pose proof (handle_MkdirAll_cases env dir w0) as Hm.
    destruct (handle env (MkdirAll dir) w0) as [[x|] w2].
    + exists []. cbn [snd]. destruct Hm as (Ht & _). rewrite Ht. unfold w0.
      cbn [trace record]. now rewrite <- app_assoc.
    + destruct Hm as (Ht & _).
      pose proof (run_extends_trace env
                    (downloadAssets env d owner repo dir force (github.Assets release))
                    w2) as (rest & Hrest).
      exists rest. rewrite Hrest, Ht. unfold w0. cbn [trace record].
      now rewrite <- !app_assoc.
  - intros x Hx. rewrite Hrun.
    destruct (handle env (MkdirAll dir) w0) as [[x'|] w2]; cbn [fst snd] in *;
      [|discriminate]. now injection Hx as ->.
  - intros Hx. rewrite Hrun.
    destruct (handle env (MkdirAll dir) w0) as [[x'|] w2]; cbn [fst snd] in *;
      [discriminate|reflexivity].
  - intros asset rest w' Hpass. cbn [downloadAssets].
    unfold passes_filter in Hpass.
    destruct (negb (String.eqb (matchFilter d) "") && _); [discriminate|].
    rewrite run_bind.
    destruct (run env (downloadAsset env d asset dir force) w') as [[e|] w1];
      reflexivity.
Qed.

Lemma downloadLatestRelease_directory_witness :
  run Ex.env (downloadLatestRelease Ex.env Ex.d "acme" "nightly") Ex.empty
  = run Ex.env (downloadAssets Ex.env Ex.d "acme" "nightly"
                  "downloads/nightly-latest" true [Ex.linux])
      (handle Ex.env (MkdirAll "downloads/nightly-latest")
         (record Ex.empty (EvGetLatestRelease "acme" "nightly"))).2
  /\ run Ex.env (downloadLatestRelease Ex.env Ex.d "acme" "tool") Ex.empty
     = run Ex.env (downloadAssets Ex.env Ex.d "acme" "tool"
                     "downloads/tool-v1.2.0" false [Ex.linux; Ex.darwin])
         (handle Ex.env (MkdirAll "downloads/tool-v1.2.0")
            (record Ex.empty (EvGetLatestRelease "acme" "tool"))).2.
Proof.
  split.
  - apply (proj1 (proj2 (proj2 (proj2 (proj2
             (downloadLatestRelease_directory Ex.env Ex.d "acme" "nightly"
                Ex.empty (Ex.release None [Ex.linux])
                eq_refl eq_refl eq_refl ltac:(discriminate))))))).
    reflexivity.
  - apply (proj1 (proj2 (proj2 (proj2 (proj2
             (downloadLatestRelease_directory Ex.env Ex.d "acme" "tool"
                Ex.empty (Ex.release (Some "v1.2.0") [Ex.linux; Ex.darwin])
                eq_refl eq_refl eq_refl ltac:(discriminate))))))).
    reflexivity.
Defined.

Section FetchFacts.

Variable env : Env.
Variable d : Downloader.

Lemma fetch_first_request url :
  http.Header_Set
    (if String.eqb (token d) ""
     then {| http.Method := "GET"; http.URL := url; http.Header := ∅ |}
     else http.Header_Set
            {| http.Method := "GET"; http.URL := url; http.Header := ∅ |}
            "Authorization" ("token " +:+ token d))
    "Accept" "application/octet-stream"
  = apiRequest (token d) url.
Proof. unfold apiRequest. destruct (String.eqb (token d) ""); reflexivity. Qed.

(** The run of [fetchAsset] up to the answer to the first request, when
    the file can be created and the request built. *)
Lemma fetchAsset_to_first_request asset url path w :
  fs w !! path <> Some Dir ->
  Create_err env w path = None ->
  NewRequest_err env "GET" url = None ->
  let wc := with_fs (record w (EvCreate path)) (<[path := File ""]> (fs w)) in
  let req := apiRequest (token d) url in
  run env (fetchAsset env d asset url path) w
  = run env
      match RoundTrip env wc http.NoRedirectClient req with
      | inl e => Ret (Some ("failed to get asset redirect URL: " +:+ e))
      | inr resp => followRedirect env asset path resp
      end
      (record wc (EvDo http.NoRedirectClient req)).
Proof.
  intros Hd Hc Hn. unfold fetchAsset. cbn [run].
  rewrite handle_Create_ok by assumption.
  unfold NewRequest at 1. rewrite Hn, fetch_first_request. reflexivity.
Qed.

Lemma prefix_refl s : String.prefix s s = true.
Proof.
  induction s as [|c s IH]; simpl; [reflexivity|].
  destruct (ascii_dec c c); [exact IH|congruence].
Qed.

Lemma prefix_substring n s : String.prefix (String.substring 0 n s) s = true.
Proof.
  revert n; induction s as [|c s IH]; intros [|n]; simpl; try reflexivity.
  destruct (ascii_dec c c); [apply IH|congruence].
Qed.

Lemma copy_outcome_prefix werr src :
  String.prefix (copy_outcome werr src).1 (http.Body src) = true.
Proof.
  unfold copy_outcome. destruct werr as [[n e]|]; simpl; [|apply prefix_refl].
  destruct (n <? String.length (http.Body src))%nat; simpl;
    [apply prefix_substring|apply prefix_refl].
Qed.

(** A copy that reports no error has written the whole body. *)
Lemma copy_outcome_complete werr src written :
  copy_outcome werr src = (written, None) -> written = http.Body src.
Proof.
  unfold copy_outcome. destruct werr as [[n e]|]; [|congruence].
  destruct (n <? String.length (http.Body src))%nat; congruence.
Qed.

(** What [writeBody] does, by the outcome of the copy. *)
Lemma writeBody_run asset path src w :
  let wc := with_fs (record w (EvCopy path))
              (<[path := File (copy_outcome (Write_err env w path) src).1]> (fs w)) in
  run env (writeBody asset path src) w
  = match (copy_outcome (Write_err env w path) src).2 with
    | Some e =>
        (Some ("failed to write to file '" +:+ path +:+ "': " +:+ e), wc)
    | None =>
        (None,
         with_binPaths
           (with_stdout wc
              (stdout w ++ ["Downloaded '" +:+ github.GetName asset +:+ "' to '"
                            +:+ path +:+ "'" +:+ GoStrings.LF]))
           (binPaths w ++ [path]))
    end.
Proof.
  unfold writeBody. cbn [run handle].
  destruct (copy_outcome (Write_err env w path) src) as [written [e|]];
    reflexivity.
Qed.

(** What the run of [followRedirect] leaves behind: the trace grows, a
    success records the path, and the file is untouched unless the copy
    ran, in which case it holds a prefix of the body that answered the
    second request (the whole body on success). *)
Lemma followRedirect_file asset path resp w r w1 :
  run env (followRedirect env asset path resp) w = (r, w1) ->
  exists rest,
    trace w1 = trace w ++ rest
    /\ (r = None -> binPaths w1 = binPaths w ++ [path])
    /\ ((exists c, fs w1 !! path = Some (File c)
          /\ In (EvCopy path) rest
          /\ exists w' req2 src,
               RoundTrip env w' http.DefaultClient req2 = inr src
               /\ http.StatusCode src = http.StatusOK
               /\ String.prefix c (http.Body src) = true
               /\ (r = None -> c = http.Body src))
        \/ (fs w1 = fs w /\ ~ In (EvCopy path) rest /\ r <> None)).
Proof.
  unfold followRedirect.
  destruct (negb (http.StatusCode resp =? http.StatusFound)).
  { cbn [run]. intros [= <- <-]. exists []. rewrite app_nil_r.
    split; [reflexivity|]. split; [discriminate|]. right. auto. }
  destruct (String.eqb (http.Header_Get resp "Location") "").
  { cbn [run]. intros [= <- <-]. exists []. rewrite app_nil_r.
    split; [reflexivity|]. split; [discriminate|]. right. auto. }
  destruct (NewRequest env "GET" (http.Header_Get resp "Location")) as [e|req2].
  { cbn [run]. intros [= <- <-]. exists []. rewrite app_nil_r.
    split; [reflexivity|]. split; [discriminate|]. right. auto. }
  cbn [run handle].
  set (req := http.Header_Set req2 "Accept" "application/octet-stream").
  destruct (RoundTrip env w http.DefaultClient req) as [e|src] eqn:Hrt.
  { cbn [run]. intros [= <- <-]. exists [EvDo http.DefaultClient req].
    split; [reflexivity|]. split; [discriminate|]. right.
    split; [reflexivity|]. split; [|discriminate].
    intros [H|[]]; discriminate. }
  destruct (negb (http.StatusCode src =? http.StatusOK)) eqn:Hst.
  { cbn [run]. intros [= <- <-]. exists [EvDo http.DefaultClient req].
    split; [reflexivity|]. split; [discriminate|]. right.
    split; [reflexivity|]. split; [|discriminate].
    intros [H|[]]; discriminate. }
  apply negb_false_iff, Z.eqb_eq in Hst.
  rewrite writeBody_run.
  set (w2 := record w (EvDo http.DefaultClient req)).
  pose proof (copy_outcome_prefix (Write_err env w2 path) src) as Hpre.
  destruct (copy_outcome (Write_err env w2 path) src) as [written [e|]] eqn:Hco;
    cbn [fst snd] in *; intros [= <- <-];
    exists [EvDo http.DefaultClient req; EvCopy path]; cbn [trace record with_fs
      with_binPaths with_stdout binPaths fs w2]; rewrite <- ?app_assoc;
    (split; [reflexivity|]); (split; [try discriminate; reflexivity|]); left;
    exists written; (split; [apply lookup_insert_eq|]);
    (split; [right; left; reflexivity|]);
    exists w, req, src; repeat split; auto; try discriminate.
  intros _. eapply copy_outcome_complete; eauto.
Qed.

(** The run of [fetchAsset] when the file can be created: the creation
    comes first in the trace, the first request right after it when it
    can be built, and at the end the file is there, empty after a
    failure before the copy, and otherwise a prefix of the body that
    answered the second request. *)
Lemma fetchAsset_created asset url path w :
  fs w !! path <> Some Dir ->
  Create_err env w path = None ->
  exists r w1 rest c,
    run env (fetchAsset env d asset url path) w = (r, w1)
    /\ trace w1 = trace w ++ EvCreate path :: rest
    /\ (NewRequest_err env "GET" url = None ->
        exists rest', rest = EvDo http.NoRedirectClient (apiRequest (token d) url)
                               :: rest')
    /\ (r = None -> binPaths w1 = binPaths w ++ [path])
    /\ fs w1 !! path = Some (File c)
    /\ ((c = "" /\ r <> None /\ ~ In (EvCopy path) rest)
        \/ (In (EvCopy path) rest
            /\ exists w' req2 src,
                 RoundTrip env w' http.DefaultClient req2 = inr src
                 /\ http.StatusCode src = http.StatusOK
                 /\ String.prefix c (http.Body src) = true
                 /\ (r = None -> c = http.Body src))).
Proof.
  intros Hd Hc.
  destruct (NewRequest_err env "GET" url) as [e|] eqn:Hn.
  { unfold fetchAsset. cbn [run]. rewrite handle_Create_ok by assumption.
    unfold NewRequest. rewrite Hn. cbn [run].
    eexists _, _, [], "". split; [reflexivity|].
    split; [reflexivity|]. split; [discriminate|]. split; [discriminate|].
    split; [apply lookup_insert_eq|]. left. repeat split; auto; discriminate. }
  rewrite fetchAsset_to_first_request by assumption.
  set (wc := with_fs (record w (EvCreate path)) (<[path := File ""]> (fs w))).
  set (req := apiRequest (token d) url).
  destruct (RoundTrip env wc http.NoRedirectClient req) as [e|resp].
  { cbn [run]. eexists _, _, [EvDo http.NoRedirectClient req], "".
    split; [reflexivity|]. cbn [trace record with_fs wc]. rewrite <- app_assoc.
    split; [reflexivity|]. split; [eauto|]. split; [discriminate|].
    split; [apply lookup_insert_eq|]. left.
    split; [reflexivity|]. split; [discriminate|]. intros [H|[]]; discriminate. }
  destruct (run env (followRedirect env asset path resp)
              (record wc (EvDo http.NoRedirectClient req))) as [r w1] eqn:Hrun.
  apply followRedirect_file in Hrun as (rest & Ht & Hb & Hf).
  cbn [trace record with_fs wc binPaths] in Ht, Hb.
  rewrite <- !app_assoc in Ht. cbn [app] in Ht.
  destruct Hf as [(c & Hc1 & Hin & Hsrc)|(Hfs & Hnin & Hr)].
  - exists r, w1, (EvDo http.NoRedirectClient req :: rest), c.
    split; [reflexivity|]. split; [exact Ht|]. split; [eauto|].
    split; [exact Hb|]. split; [exact Hc1|]. right. split; [right; exact Hin|].
    exact Hsrc.
  - exists r, w1, (EvDo http.NoRedirectClient req :: rest), "".
    split; [reflexivity|]. split; [exact Ht|]. split; [eauto|].
    split; [exact Hb|]. split; [rewrite Hfs; apply lookup_insert_eq|]. left.
    split; [reflexivity|]. split; [exact Hr|]. intros [H|H]; [discriminate|auto].
Qed.

Lemma second_request loc :
  NewRequest_err env "GET" loc = None ->
  NewRequest env "GET" loc
  = inr {| http.Method := "GET"; http.URL := loc; http.Header := ∅ |}
  /\ http.Header_Set {| http.Method := "GET"; http.URL := loc; http.Header := ∅ |}
       "Accept" "application/octet-stream" = locationRequest loc.
Proof. intros H. unfold NewRequest. rewrite H. split; reflexivity. Qed.

(** The run of [followRedirect], by the answers to the two requests. *)
Lemma followRedirect_spec asset path resp w r w1 :
  run env (followRedirect env asset path resp) w = (r, w1) ->
  (r = Some ("unexpected status code (expected 302 Found): got "
             +:+ http.Status resp)
   <-> http.StatusCode resp <> http.StatusFound)
  /\ (http.StatusCode resp = http.StatusFound ->
      http.Header_Get resp "Location" = "" ->
      r = Some ("no redirect location found for asset '"
                +:+ github.GetName asset +:+ "'")
      /\ w1 = w)
  /\ (http.StatusCode resp = http.StatusFound ->
      http.Header_Get resp "Location" <> "" ->
      NewRequest_err env "GET" (http.Header_Get resp "Location") = None ->
      let req2 := locationRequest (http.Header_Get resp "Location") in
      let w2 := record w (EvDo http.DefaultClient req2) in
      exists rest, trace w1 = trace w ++ EvDo http.DefaultClient req2 :: rest
      /\ forall src, RoundTrip env w http.DefaultClient req2 = inr src ->
         (http.StatusCode src <> http.StatusOK ->
          r = Some ("bad status downloading asset from redirect URL: "
                    +:+ http.Status src))
         /\ (http.StatusCode src = http.StatusOK ->
             (copy_outcome (Write_err env w2 path) src).2 = None ->
             r = None /\ fs w1 !! path = Some (File (http.Body src))
             /\ binPaths w1 = binPaths w ++ [path])).
Proof.
  unfold followRedirect.
  destruct (http.StatusCode resp =? http.StatusFound) eqn:Hst; cbn [negb].
  2:{ apply Z.eqb_neq in Hst. cbn [run]. intros [= <- <-].
      split; [tauto|]. split; intros; congruence. }
  apply Z.eqb_eq in Hst.
  intros Hrun. split; [|split].
  - split; [|congruence]. intros ->. exfalso. revert Hrun.
    repeat (first [ progress cbn [run handle]
                  | rewrite writeBody_run
                  | match goal with
                    | |- context [match ?x with _ => _ end] => destruct x
                    | |- context [if ?x then _ else _] => destruct x
                    end ]); intros [= H]; try discriminate H.
  - intros _ Hloc. rewrite Hloc in Hrun. cbn [String.eqb run] in Hrun.
    injection Hrun as <- <-. auto.
  - intros _ Hloc Hn.
    set (req2 := locationRequest (http.Header_Get resp "Location")).
    set (w2 := record w (EvDo http.DefaultClient req2)).
    revert Hrun.
    destruct (String.eqb (http.Header_Get resp "Location") "") eqn:E;
      [apply String.eqb_eq in E; congruence|].
    destruct (second_request _ Hn) as [-> ->]. fold req2.
    cbn [run handle]. fold w2.
    destruct (RoundTrip env w http.DefaultClient req2) as [e|src].
    { cbn [run]. intros [= <- <-]. exists []. split; [reflexivity|].
      intros src [=]. }
    destruct (http.StatusCode src =? http.StatusOK) eqn:Hs2; cbn [negb].
    2:{ apply Z.eqb_neq in Hs2. cbn [run]. intros [= <- <-].
        exists []. split; [reflexivity|]. intros src' [= <-].
        split; [auto|congruence]. }
    apply Z.eqb_eq in Hs2. rewrite writeBody_run.
    destruct (copy_outcome (Write_err env w2 path) src) as [written oe] eqn:Hco.
    cbn [fst snd]. intros H.
    exists [EvCopy path]. split.
    { destruct oe; injection H as <- <-; cbn; rewrite <- app_assoc; reflexivity. }
    intros src' [= <-]. split; [congruence|]. intros _ Ho.
    rewrite Hco in Ho. cbn [snd] in Ho. subst oe. injection H as <- <-.
    split; [reflexivity|]. split; [|reflexivity].
    cbn. rewrite lookup_insert_eq. f_equal. f_equal.
    eapply copy_outcome_complete; eauto.
Qed.

(** When the file cannot be created, [fetchAsset] stops there. *)
Lemma fetchAsset_not_created asset url path w :
  fs w !! path = Some Dir \/ Create_err env w path <> None ->
  exists e,
    run env (fetchAsset env d asset url path) w
    = (Some ("failed to create file '" +:+ path +:+ "': " +:+ e),
       record w (EvCreate path)).
Proof.
  intros H. unfold fetchAsset. cbn [run handle].
  destruct (fs w !! path) as [[c|]|] eqn:Hf.
  - destruct H as [H|H]; [discriminate|].
    destruct (Create_err env w path) as [e|]; [|congruence]. eauto.
  - eauto.
  - destruct H as [H|H]; [discriminate|].
    destruct (Create_err env w path) as [e|]; [|congruence]. eauto.
Qed.

(** Without force, a node at the target path ends [downloadAsset] after
    the existence check. *)
Lemma downloadAsset_existing asset versionDir w :
  github.GetURL asset <> "" ->
  is_Some (fs w !! filepath_Join env versionDir (github.GetName asset)) ->
  let filePath := filepath_Join env versionDir (github.GetName asset) in
  run env (downloadAsset env d asset versionDir false) w
  = (None,
     with_binPaths
       (with_stdout (record w (EvStat filePath))
          (stdout w ++ ["File '" +:+ filePath
                        +:+ "' already exists. Skipping download." +:+ GoStrings.LF]))
       (binPaths w ++ [filePath])).
Proof.
  intros Hu He. unfold downloadAsset.
  destruct (String.eqb (github.GetURL asset) "") eqn:E;
    [apply String.eqb_eq in E; congruence|].
  cbn [negb run handle]. rewrite bool_decide_eq_true_2 by exact He. reflexivity.
Qed.

(** Without force and with nothing at the target path, and always with
    force, [downloadAsset] goes on to [fetchAsset]. *)
Lemma downloadAsset_fetches asset versionDir forceDownload w :
  github.GetURL asset <> "" ->
  forceDownload = true
  \/ fs w !! filepath_Join env versionDir (github.GetName asset) = None ->
  let filePath := filepath_Join env versionDir (github.GetName asset) in
  run env (downloadAsset env d asset versionDir forceDownload) w
  = run env (fetchAsset env d asset (github.GetURL asset) filePath)
        (if forceDownload then w else record w (EvStat filePath)).
Proof.
  intros Hu Hf. unfold downloadAsset.
  destruct (String.eqb (github.GetURL asset) "") eqn:E;
    [apply String.eqb_eq in E; congruence|].
  destruct forceDownload; [reflexivity|]. destruct Hf as [Hf|Hf]; [discriminate|].
  cbn [negb run handle]. rewrite bool_decide_eq_false_2; [reflexivity|].
  rewrite Hf. intros [x Hx]. discriminate.
Qed.

End FetchFacts.

(** C2, as the code has it.  For an asset that has an API URL: without
    force and with a file at the target path, [downloadAsset] only checks
    that the file is there (no request, no change to the file system),
    records the path and returns [nil].  With force the existence of the
    file is never checked: the program is [fetchAsset], and where the file
    can be created and the request built, the file is created anew and the
    request to the API URL follows, so that in the end the file is empty
    or holds what the copy of this run wrote. *)
Theorem downloadAsset_existing_or_forced env d asset versionDir w :
  github.GetURL asset <> "" ->
  let filePath := filepath_Join env versionDir (github.GetName asset) in
  (forall content, fs w !! filePath = Some (File content) ->
   exists w1,
     run env (downloadAsset env d asset versionDir false) w = (None, w1)
     /\ binPaths w1 = binPaths w ++ [filePath]
     /\ trace w1 = trace w ++ [EvStat filePath]
     /\ fs w1 = fs w)
  /\ downloadAsset env d asset versionDir true
     = fetchAsset env d asset (github.GetURL asset) filePath
  /\ (fs w !! filePath <> Some Dir ->
      Create_err env w filePath = None ->
      NewRequest_err env "GET" (github.GetURL asset) = None ->
      exists r w1 rest c,
        run env (downloadAsset env d asset versionDir true) w = (r, w1)
        /\ trace w1
           = trace w ++ EvCreate filePath
               :: EvDo http.NoRedirectClient
                    (apiRequest (token d) (github.GetURL asset)) :: rest
        /\ fs w1 !! filePath = Some (File c)
        /\ (c = "" \/ In (EvCopy filePath) rest)).
Proof.
  intros Hu filePath. split; [|split].
  - intros content Hf. eexists. split.
    + apply downloadAsset_existing; [exact Hu|]. fold filePath. rewrite Hf. eauto.
    + repeat split.
  - unfold downloadAsset.
    destruct (String.eqb (github.GetURL asset) "") eqn:E;
      [apply String.eqb_eq in E; congruence|reflexivity].
  - intros Hd Hc Hn.
    rewrite (downloadAsset_fetches env d asset versionDir true w Hu (or_introl eq_refl)).
    destruct (fetchAsset_created env d asset (github.GetURL asset) filePath w Hd Hc)
      as (r & w1 & rest & c & Hrun & Ht & Hreq & _ & Hfile & Hc').
    destruct (Hreq Hn) as (rest' & ->).
    exists r, w1, rest', c. split; [exact Hrun|]. split; [exact Ht|].
    split; [exact Hfile|].
    destruct Hc' as [(-> & _)|(Hin & _)]; [left; reflexivity|right].
    destruct Hin as [H|H]; [discriminate|exact H].
Qed.

Lemma downloadAsset_existing_or_forced_witness :
  let filePath := "downloads/tool-v1.2.0/tool_linux.tar.gz" in
  (exists w1,
      run Ex.env (downloadAsset Ex.env Ex.d Ex.linux "downloads/tool-v1.2.0" false)
        Ex.downloaded = (None, w1)
      /\ binPaths w1 = binPaths Ex.downloaded ++ [filePath]
      /\ trace w1 = trace Ex.downloaded ++ [EvStat filePath]
      /\ fs w1 = fs Ex.downloaded)
  /\ exists r w1 rest c,
      run Ex.env (downloadAsset Ex.env Ex.d Ex.linux "downloads/tool-v1.2.0" true)
        Ex.downloaded = (r, w1)
      /\ trace w1
         = trace Ex.downloaded
             ++ EvCreate filePath
             :: EvDo http.NoRedirectClient
                  (apiRequest "s3cr3t" "https://api.example/assets/1") :: rest
      /\ fs w1 !! filePath = Some (File c)
      /\ (c = "" \/ In (EvCopy filePath) rest).
Proof.
  split.
  - apply (proj1 (downloadAsset_existing_or_forced Ex.env Ex.d Ex.linux
                    "downloads/tool-v1.2.0" Ex.downloaded ltac:(discriminate))
             "old").
    reflexivity.
  - apply (proj2 (proj2 (downloadAsset_existing_or_forced Ex.env Ex.d Ex.linux
                           "downloads/tool-v1.2.0" Ex.downloaded
                           ltac:(discriminate))));
      [vm_compute; discriminate|reflexivity|reflexivity].
Defined.

(** C2 as stated fails on an asset without API URL: with the file on disk
    and no force the call is an error and records nothing, and with force
    nothing is fetched and the file keeps its content.  It also fails,
    with force, where the file cannot be created: no request is sent and
    the file keeps its content. *)
Lemma downloadAsset_existing_file_without_URL :
  let asset := Ex.asset_without_URL "tool_linux.tar.gz" in
  let filePath := filepath_Join Ex.env "downloads/tool-v1.2.0" (github.GetName asset) in
  let locked := Ex.mkEnv (inr (Ex.found (Some "https://cdn.example/asset")))
                  (inr (Ex.ok "B")) Ex.latest Ex.never
                  (fun _ => Some "permission denied") Ex.never None in
  fs Ex.downloaded !! filePath = Some (File "old")
  /\ run Ex.env (downloadAsset Ex.env Ex.d asset "downloads/tool-v1.2.0" false)
       Ex.downloaded
     = (Some "asset 'tool_linux.tar.gz' does not have an API URL", Ex.downloaded)
  /\ run Ex.env (downloadAsset Ex.env Ex.d asset "downloads/tool-v1.2.0" true)
       Ex.downloaded
     = (Some "asset 'tool_linux.tar.gz' does not have an API URL", Ex.downloaded)
  /\ run locked (downloadAsset locked Ex.d Ex.linux "downloads/tool-v1.2.0" true)
       Ex.downloaded
     = (Some ("failed to create file 'downloads/tool-v1.2.0/tool_linux.tar.gz': "
              +:+ "permission denied"),
        record Ex.downloaded (EvCreate filePath)).
Proof. repeat split. Qed.

(** C8: past the existence check (forced, or nothing at the target path),
    [downloadAsset] creates the file before any request: the creation is
    the first event of the fetch.  Once the file is created, a failure of
    the call leaves it behind, empty or holding a prefix of the body that
    answered the second request, and a later call without force finds it,
    sends no request, records the path and returns [nil]. *)
Theorem downloadAsset_failure_leaves_file env d asset versionDir
    (forceDownload : bool) (w : World) :
  github.GetURL asset <> "" ->
  let filePath := filepath_Join env versionDir (github.GetName asset) in
  let w0 := if forceDownload then w else record w (EvStat filePath) in
  forceDownload = true \/ fs w !! filePath = None ->
  exists r w1 rest,
    run env (downloadAsset env d asset versionDir forceDownload) w = (r, w1)
    /\ trace w1 = trace w0 ++ EvCreate filePath :: rest
    /\ (fs w !! filePath <> Some Dir ->
        Create_err env w0 filePath = None ->
        forall e, r = Some e ->
        (exists c,
            fs w1 !! filePath = Some (File c)
            /\ (c = ""
                \/ exists w' req2 src,
                     RoundTrip env w' http.DefaultClient req2 = inr src
                     /\ String.prefix c (http.Body src) = true))
        /\ exists w2,
             run env (downloadAsset env d asset versionDir false) w1 = (None, w2)
             /\ binPaths w2 = binPaths w1 ++ [filePath]
             /\ trace w2 = trace w1 ++ [EvStat filePath]
             /\ fs w2 = fs w1).
Proof.
  intros Hu filePath w0 Hpast.
  rewrite (downloadAsset_fetches env d asset versionDir forceDownload w Hu Hpast).
  fold filePath. fold w0.
  assert (Hfs0 : fs w0 = fs w) by (subst w0; destruct forceDownload; reflexivity).
  assert (Hdec : fs w !! filePath = Some Dir \/ fs w !! filePath <> Some Dir).
  { destruct (fs w !! filePath) as [[c|]|]; auto; right; discriminate. }
  destruct Hdec as [Hdir|Hd].
  { destruct (fetchAsset_not_created env d asset (github.GetURL asset) filePath w0)
      as (e & Hrun); [left; rewrite Hfs0; exact Hdir|].
    eexists _, _, []. split; [exact Hrun|]. split; [reflexivity|]. congruence. }
  destruct (Create_err env w0 filePath) as [ce|] eqn:Hc.
  { destruct (fetchAsset_not_created env d asset (github.GetURL asset) filePath w0)
      as (e & Hrun); [right; congruence|].
    eexists _, _, []. split; [exact Hrun|]. split; [reflexivity|]. congruence. }
  assert (Hd0 : fs w0 !! filePath <> Some Dir) by (rewrite Hfs0; exact Hd).
  destruct (fetchAsset_created env d asset (github.GetURL asset) filePath w0 Hd0 Hc)
    as (r & w1 & rest & c & Hrun & Ht & _ & _ & Hfile & Hc').
  exists r, w1, rest. split; [exact Hrun|]. split; [exact Ht|].
  intros _ _ e He. split.
  - exists c. split; [exact Hfile|].
    destruct Hc' as [(-> & _)|(_ & w' & req2 & src & Hrt & _ & Hpre & _)];
      [left; reflexivity|right; eauto].
  - eexists. split.
    + apply downloadAsset_existing; [exact Hu|]. fold filePath. rewrite Hfile. eauto.
    + repeat split.
Qed.

Lemma downloadAsset_failure_leaves_file_witness :
  let env := Ex.mkEnv (inr (Ex.status 503 "503 Service Unavailable")) (inr (Ex.ok "B"))
               Ex.latest Ex.never Ex.never Ex.never None in
  let filePath := "downloads/tool-v1.2.0/tool_linux.tar.gz" in
  exists r w1 rest,
    run env (downloadAsset env Ex.d Ex.linux "downloads/tool-v1.2.0" false) Ex.empty
    = (r, w1)
    /\ trace w1 = trace (record Ex.empty (EvStat filePath)) ++ EvCreate filePath :: rest
    /\ (forall e, r = Some e ->
        (exists c,
            fs w1 !! filePath = Some (File c)
            /\ (c = ""
                \/ exists w' req2 src,
                     RoundTrip env w' http.DefaultClient req2 = inr src
                     /\ String.prefix c (http.Body src) = true))
        /\ exists w2,
             run env (downloadAsset env Ex.d Ex.linux "downloads/tool-v1.2.0" false) w1
             = (None, w2)
             /\ binPaths w2 = binPaths w1 ++ [filePath]
             /\ trace w2 = trace w1 ++ [EvStat filePath]
             /\ fs w2 = fs w1).
Proof.
  intros env filePath.
  destruct (downloadAsset_failure_leaves_file env Ex.d Ex.linux
              "downloads/tool-v1.2.0" false Ex.empty)
    as (r & w1 & rest & Hrun & Ht & H); [discriminate|right; reflexivity|].
  exists r, w1, rest. split; [exact Hrun|]. split; [exact Ht|].
  apply H; [vm_compute; discriminate|reflexivity].
Defined.

(** Two calls in a row: the first request is answered 503, the call
    fails, the empty file stays, and the second call takes it for the
    asset. *)
Example failed_download_is_taken_for_done :
  let env := Ex.mkEnv (inr (Ex.status 503 "503 Service Unavailable")) (inr (Ex.ok "B"))
               Ex.latest Ex.never Ex.never Ex.never None in
  let filePath := "downloads/tool-v1.2.0/tool_linux.tar.gz" in
  let '(r1, w1) :=
    run env (downloadAsset env Ex.d Ex.linux "downloads/tool-v1.2.0" false) Ex.empty in
  let '(r2, w2) :=
    run env (downloadAsset env Ex.d Ex.linux "downloads/tool-v1.2.0" false) w1 in
  r1 = Some "unexpected status code (expected 302 Found): got 503 Service Unavailable"
  /\ fs w1 !! filePath = Some (File "")
  /\ binPaths w1 = []
  /\ r2 = None
  /\ binPaths w2 = [filePath]
  /\ fs w2 !! filePath = Some (File "")
  /\ trace w2 = [EvStat filePath; EvCreate filePath;
                 EvDo http.NoRedirectClient
                   (apiRequest "s3cr3t" "https://api.example/assets/1");
                 EvStat filePath].
Proof. vm_compute. repeat split. Qed.

(** C5, as the code has it.  When the fetch reaches the network (file
    created, request built), the first request is a GET to the asset's API
    URL with [Accept: application/octet-stream], sent by the client that
    does not follow redirects; it carries [Authorization: token <token>]
    when the downloader has a token and no such header otherwise.  Given
    its answer: the call fails with the unexpected-status error exactly
    when the status is not 302; a 302 whose [Location] is absent or empty
    fails the call with no second request; otherwise a second GET goes
    to the location, any status but 200 (so any status outside 2xx) fails
    the call, and a 200 whose copy reports no error leaves exactly the body
    in the file and records the path. *)
Theorem downloadAsset_two_step env d asset versionDir (forceDownload : bool)
    (w : World) :
  github.GetURL asset <> "" ->
  let apiURL := github.GetURL asset in
  let filePath := filepath_Join env versionDir (github.GetName asset) in
  let w0 := if forceDownload then w else record w (EvStat filePath) in
  let wc := with_fs (record w0 (EvCreate filePath)) (<[filePath := File ""]> (fs w0)) in
  let req := apiRequest (token d) apiURL in
  let w2 := record wc (EvDo http.NoRedirectClient req) in
  forceDownload = true \/ fs w !! filePath = None ->
  fs w !! filePath <> Some Dir ->
  Create_err env w0 filePath = None ->
  NewRequest_err env "GET" apiURL = None ->
  exists r w1 rest,
    run env (downloadAsset env d asset versionDir forceDownload) w = (r, w1)
    /\ trace w1
       = trace w0 ++ EvCreate filePath :: EvDo http.NoRedirectClient req :: rest
    /\ http.Method req = "GET" /\ http.URL req = apiURL
    /\ http.Header req !! "Accept" = Some "application/octet-stream"
    /\ http.Header req !! "Authorization"
       = (if String.eqb (token d) "" then None else Some ("token " +:+ token d))
    /\ forall resp, RoundTrip env wc http.NoRedirectClient req = inr resp ->
       (r = Some ("unexpected status code (expected 302 Found): got "
                  +:+ http.Status resp)
        <-> http.StatusCode resp <> http.StatusFound)
       /\ (http.StatusCode resp = http.StatusFound ->
           http.Header_Get resp "Location" = "" ->
           r = Some ("no redirect location found for asset '"
                     +:+ github.GetName asset +:+ "'")
           /\ rest = [])
       /\ (http.StatusCode resp = http.StatusFound ->
           http.Header_Get resp "Location" <> "" ->
           exists rest',
             rest = EvDo http.DefaultClient
                      (locationRequest (http.Header_Get resp "Location")) :: rest'
             /\ forall src,
                RoundTrip env w2 http.DefaultClient
                  (locationRequest (http.Header_Get resp "Location")) = inr src ->
                (http.StatusCode src <> http.StatusOK ->
                 r = Some ("bad status downloading asset from redirect URL: "
                           +:+ http.Status src))
                /\ (http.StatusCode src < 200 \/ 299 < http.StatusCode src ->
                    r = Some ("bad status downloading asset from redirect URL: "
                              +:+ http.Status src))
                /\ (http.StatusCode src = http.StatusOK ->
                    (copy_outcome
                       (Write_err env
                          (record w2
                             (EvDo http.DefaultClient
                                (locationRequest (http.Header_Get resp "Location"))))
                          filePath) src).2 = None ->
                    r = None
                    /\ fs w1 !! filePath = Some (File (http.Body src))
                    /\ binPaths w1 = binPaths w ++ [filePath])).
Proof.
  intros Hu apiURL filePath w0 wc req w2 Hpast Hd Hc Hn.
  rewrite (downloadAsset_fetches env d asset versionDir forceDownload w Hu Hpast).
  fold filePath. fold w0.
  assert (Hfs0 : fs w0 = fs w) by (subst w0; destruct forceDownload; reflexivity).
  assert (Hb0 : binPaths w0 = binPaths w)
    by (subst w0; destruct forceDownload; reflexivity).
  assert (Hd0 : fs w0 !! filePath <> Some Dir) by (rewrite Hfs0; exact Hd).
  fold apiURL.
  rewrite (fetchAsset_to_first_request env d asset apiURL filePath w0 Hd0 Hc Hn).
  fold wc. fold req. fold w2.
  assert (Hreq : http.Method req = "GET" /\ http.URL req = apiURL
            /\ http.Header req !! "Accept" = Some "application/octet-stream"
            /\ http.Header req !! "Authorization"
               = (if String.eqb (token d) "" then None
                  else Some ("token " +:+ token d))).
  { subst req. unfold apiRequest. cbn [http.Method http.URL http.Header].
    split; [reflexivity|]. split; [reflexivity|].
    split; [apply lookup_insert_eq|].
    rewrite lookup_insert_ne by discriminate.
    destruct (String.eqb (token d) ""); [reflexivity|apply lookup_insert_eq]. }
  assert (Htc : trace w2 = trace w0 ++ [EvCreate filePath; EvDo http.NoRedirectClient req]).
  { subst w2 wc. cbn [trace record with_fs]. rewrite <- app_assoc. reflexivity. }
  destruct (RoundTrip env wc http.NoRedirectClient req) as [e|resp] eqn:Hrt.
  { cbn [run]. eexists _, _, []. split; [reflexivity|]. split; [exact Htc|].
    repeat (split; [apply Hreq|]). intros resp [=]. }
  destruct (run env (followRedirect env asset filePath resp) w2) as [r w1] eqn:Hrun.
  pose proof (followRedirect_file env asset filePath resp w2 r w1 Hrun)
    as (rest & Ht & _).
  pose proof (followRedirect_spec env asset filePath resp w2 r w1 Hrun)
    as (Hst & Hnoloc & Hloc).
  exists r, w1, rest. split; [reflexivity|]. split.
  { rewrite Ht, Htc, <- app_assoc. reflexivity. }
  repeat (split; [apply Hreq|]). intros resp' [= <-].
  split; [exact Hst|]. split.
  - intros H1 H2. destruct (Hnoloc H1 H2) as [-> ->]. split; [reflexivity|].
    rewrite <- (app_nil_r (trace w2)) in Ht at 1. apply app_inv_head in Ht. auto.
  - intros H1 H2.
    assert (H3 : NewRequest_err env "GET" (http.Header_Get resp "Location") = None).
    { apply (Location_parses env wc req resp Hrt); [|exact H2].
      rewrite H1. reflexivity. }
    destruct (Hloc H1 H2 H3) as (rest' & Ht' & Hsrc).
    exists rest'. split.
    { rewrite Ht in Ht'. apply app_inv_head in Ht'. exact Ht'. }
    intros src Hs. destruct (Hsrc src Hs) as [Hbad Hok].
    split; [exact Hbad|]. split.
    { intros Hrange. apply Hbad. unfold http.StatusOK. lia. }
    intros Hs200 Hco. destruct (Hok Hs200 Hco) as (-> & Hfile & Hbin).
    split; [reflexivity|]. split; [exact Hfile|].
    rewrite Hbin. subst w2 wc. cbn [binPaths record with_fs]. now rewrite Hb0.
Qed.

Lemma downloadAsset_two_step_witness :
  exists r w1,
    run Ex.env (downloadAsset Ex.env Ex.d Ex.linux "downloads/tool-v1.2.0" false)
      Ex.empty = (r, w1)
    /\ r = None
    /\ fs w1 !! "downloads/tool-v1.2.0/tool_linux.tar.gz" = Some (File "B")
    /\ binPaths w1 = ["downloads/tool-v1.2.0/tool_linux.tar.gz"].
Proof.
  destruct (downloadAsset_two_step Ex.env Ex.d Ex.linux "downloads/tool-v1.2.0"
              false Ex.empty)
    as (r & w1 & rest & Hrun & _ & _ & _ & _ & _ & H);
    [discriminate|right; reflexivity|vm_compute; discriminate
    |reflexivity|reflexivity|].
  destruct (H (Ex.found (Some "https://cdn.example/asset")) eq_refl) as (_ & _ & H2).
  destruct H2 as (rest' & _ & H3); [reflexivity|discriminate|].
  destruct (H3 (Ex.ok "B") eq_refl) as (_ & _ & H4).
  destruct H4 as (Hr & Hf & Hb); [reflexivity|reflexivity|].
  exists r, w1. repeat split; assumption.
Defined.

(** C5 as stated fails in two places.  A downloader without token sends
    the first request with no [Authorization] header; and a write error
    after one byte leaves one byte of the body of a 200 answer in the
    file. *)
Lemma downloadAsset_two_step_exceptions :
  let filePath := "downloads/tool-v1.2.0/tool_linux.tar.gz" in
  (let '(r, w1) :=
     run Ex.env (downloadAsset Ex.env Ex.anonymous Ex.linux "downloads/tool-v1.2.0" true)
       Ex.empty in
   r = None
   /\ exists req rest,
        trace w1 = EvCreate filePath :: EvDo http.NoRedirectClient req :: rest
        /\ http.Header req !! "Authorization" = None)
  /\ (let env := Ex.mkEnv (inr (Ex.found (Some "https://cdn.example/asset")))
                   (inr (Ex.ok "BODY")) Ex.latest Ex.never Ex.never Ex.never
                   (Some (1%nat, "no space left on device")) in
      let '(r, w1) :=
        run env (downloadAsset env Ex.d Ex.linux "downloads/tool-v1.2.0" true)
          Ex.empty in
      r = Some ("failed to write to file 'downloads/tool-v1.2.0/tool_linux.tar.gz': "
                +:+ "no space left on device")
      /\ fs w1 !! filePath = Some (File "B")).
Proof.
  split.
  - vm_compute. split; [reflexivity|]. eexists _, _. split; reflexivity.
  - vm_compute. split; reflexivity.
Qed.

(** A redirect to a location that does not parse is an error of the first
    request: no request is built for the location. *)
Example unparsable_location_fails_first_request :
  let '(r, w1) :=
    run Cases.bad_location
      (downloadAsset Cases.bad_location Ex.d Ex.linux "downloads/tool-v1.2.0" true)
      Ex.empty in
  (exists e, r = Some ("failed to get asset redirect URL: " +:+ e))
  /\ trace w1 = [EvCreate "downloads/tool-v1.2.0/tool_linux.tar.gz";
                 EvDo http.NoRedirectClient
                   (apiRequest "s3cr3t" "https://api.example/assets/1")]
  /\ fs w1 !! "downloads/tool-v1.2.0/tool_linux.tar.gz" = Some (File "").
Proof. vm_compute. split; [eexists; reflexivity|split; reflexivity]. Qed.

(** ** The fan-out *)

Section FanOut.

Variable env : Env.
Variable d : Downloader.

Lemma no_send_bind {A B} (m : prog A) (f : A -> prog B) :
  no_send m -> (forall a, no_send (f a)) -> no_send (bind m f).
Proof.
  induction m as [a|X e k IH]; simpl; intros Hm Hf; [apply Hf|].
  destruct Hm as [He Hk]. split; [exact He|]. intros x. apply IH; auto.
Qed.

Create HintDb nosend.

Ltac no_send_tac :=
  repeat first
    [ exact I
    | solve [auto with nosend]
    | progress cbn [no_send]
    | split
    | intro
    | match goal with
      | |- no_send (match ?x with _ => _ end) => destruct x
      end ].

Lemma no_send_writeBody asset path src : no_send (writeBody asset path src).
Proof. unfold writeBody. no_send_tac. Qed.
Hint Resolve no_send_writeBody : nosend.

Lemma no_send_followRedirect asset path resp :
  no_send (followRedirect env asset path resp).
Proof. unfold followRedirect. no_send_tac. Qed.
Hint Resolve no_send_followRedirect : nosend.

Lemma no_send_fetchAsset asset url path : no_send (fetchAsset env d asset url path).
Proof. unfold fetchAsset. no_send_tac. Qed.
Hint Resolve no_send_fetchAsset : nosend.

Lemma no_send_downloadAsset asset dir force :
  no_send (downloadAsset env d asset dir force).
Proof. unfold downloadAsset. no_send_tac. Qed.
Hint Resolve no_send_downloadAsset : nosend.

Lemma no_send_downloadAssets owner repo dir force assets :
  no_send (downloadAssets env d owner repo dir force assets).
Proof.
  induction assets as [|asset rest IH]; cbn [downloadAssets]; [exact I|].
  destruct (_ && _); [no_send_tac; exact IH|].
  apply no_send_bind; [apply no_send_downloadAsset|].
  intros [e|]; no_send_tac; exact IH.
Qed.
Hint Resolve no_send_downloadAssets : nosend.

Lemma no_send_downloadLatestRelease owner repo :
  no_send (downloadLatestRelease env d owner repo).
Proof. unfold downloadLatestRelease, downloadInto. no_send_tac. Qed.

Lemma goroutine_reporter owner repo :
  goroutine env d owner repo
  = bind (downloadLatestRelease env d owner repo) (reporter (owner, repo)).
Proof. reflexivity. Qed.

Lemma thread_ok_goroutine id : thread_ok id (goroutine env d id.1 id.2).
Proof.
  destruct id as [owner repo]. left. eexists. split;
    [apply no_send_downloadLatestRelease|apply goroutine_reporter].
Qed.

(** A call other than a send leaves the channel alone. *)
Lemma handle_errChan {X} (e : Sys X) w :
  match e with SendErr _ => False | _ => True end ->
  errChan (handle env e w).2 = errChan w.
Proof.
  destruct e; cbn; intros H; try reflexivity; try contradiction.
  - destruct (mkdirAll env w _ (fs w)). reflexivity.
  - destruct (fs w !! path) as [[c|]|];
      destruct (Create_err env w path); reflexivity.
  - destruct (copy_outcome (Write_err env w path) src). reflexivity.
Qed.

Lemma run_no_send {A} (m : prog A) w :
  no_send m -> errChan (run env m w).2 = errChan w.
Proof.
  revert w. induction m as [a|X e k IH]; intros w Hm; [reflexivity|].
  destruct Hm as [He Hk]. cbn [run].
  pose proof (handle_errChan e w He) as Hh.
  destruct (handle env e w) as [x w1]. cbn [snd] in Hh.
  rewrite IH by apply Hk. exact Hh.
Qed.

Lemma contrib_bind id m : contrib id (bind m (reporter id)) = [].
Proof. destruct m as [[e|]|X e k]; reflexivity. Qed.

Lemma contribs_goroutines ids :
  contribs ids (map (fun id => goroutine env d id.1 id.2) ids) = [].
Proof.
  induction ids as [|[owner repo] ids IH]; [reflexivity|].
  cbn [map contribs]. rewrite IH, goroutine_reporter. cbn [fst snd].
  now rewrite contrib_bind.
Qed.

Lemma step_at_cons i p pool w :
  step_at env (S i) (p :: pool) w
  = let '(pool1, w1) := step_at env i pool w in (p :: pool1, w1).
Proof.
  unfold step_at. cbn [lookup list_lookup].
  change ((p :: pool) !! S i) with (pool !! i).
  destruct (pool !! i) as [[a|X e k]|]; try reflexivity.
  destruct (handle env e w) as [x w1]. reflexivity.
Qed.

(** One step of one goroutine keeps every goroutine on its way, and
    what it adds to the channel is what the goroutine is seen to have
    sent. *)
Lemma step_at_inv ids pool w i :
  Forall2 thread_ok ids pool ->
  let '(pool1, w1) := step_at env i pool w in
  Forall2 thread_ok ids pool1
  /\ exists new, errChan w1 = errChan w ++ new
                 /\ contribs ids pool1 ≡ₚ contribs ids pool ++ new.
Proof.
  intros H. revert i. induction H as [|id p ids pool Hp Hrest IH]; intros i.
  { unfold step_at. rewrite lookup_nil. split; [constructor|].
    exists []. now rewrite !app_nil_r. }
  destruct i as [|i].
  - unfold step_at. cbn [lookup list_lookup].
    destruct Hp as [(m & Hm & ->)|(res & ->)].
    + destruct m as [[e|]|X e k].
      * cbn. split; [constructor; [right; eauto|exact Hrest]|].
        exists [report id e]. split; [reflexivity|].
        cbn. rewrite Permutation_app_comm. reflexivity.
      * cbn. split; [constructor; [right; eauto|exact Hrest]|].
        exists []. now rewrite !app_nil_r.
      * cbn [bind]. destruct Hm as [He Hk].
        pose proof (handle_errChan e w He) as Hh.
        destruct (handle env e w) as [x w1]. cbn [snd] in Hh.
        cbn [insert list_insert]. split.
        { constructor; [|exact Hrest]. left. exists (k x). auto. }
        exists []. rewrite !app_nil_r. split; [exact Hh|].
        cbn [contribs]. rewrite contrib_bind. reflexivity.
    + split; [constructor; [right; eauto|exact Hrest]|].
      exists []. now rewrite !app_nil_r.
  - rewrite step_at_cons. specialize (IH i).
    destruct (step_at env i pool w) as [pool1 w1].
    destruct IH as (Hok & new & Hch & Hperm).
    split; [constructor; assumption|].
    exists new. split; [exact Hch|].
    cbn [contribs]. rewrite Hperm, app_assoc. reflexivity.
Qed.

Lemma schedule_inv sched ids pool w :
  Forall2 thread_ok ids pool ->
  let '(pool1, w1) := schedule env sched pool w in
  Forall2 thread_ok ids pool1
  /\ exists new, errChan w1 = errChan w ++ new
                 /\ contribs ids pool1 ≡ₚ contribs ids pool ++ new.
Proof.
  revert pool w. induction sched as [|i sched IH]; intros pool w H.
  { cbn. split; [exact H|]. exists []. now rewrite !app_nil_r. }
  cbn [schedule]. pose proof (step_at_inv ids pool w i H) as Hs.
  destruct (step_at env i pool w) as [pool1 w1].
  destruct Hs as (H1 & new1 & Hc1 & Hp1).
  specialize (IH pool1 w1 H1).
  destruct (schedule env sched pool1 w1) as [pool2 w2].
  destruct IH as (H2 & new2 & Hc2 & Hp2).
  split; [exact H2|]. exists (new1 ++ new2).
  rewrite Hc2, Hc1, Hp2, Hp1, !app_assoc. split; reflexivity.
Qed.

(** A goroutine run to its end has added its failure to the channel,
    unless it had finished before. *)
Lemma run_thread id p w :
  thread_ok id p ->
  let '(res, w1) := run env p w in
  exists new, errChan w1 = errChan w ++ new
              /\ contrib id p ++ new = failure id res.
Proof.
  intros [(m & Hm & ->)|(res & ->)].
  - rewrite run_bind, contrib_bind.
    pose proof (run_no_send m w Hm) as Hn.
    destruct (run env m w) as [[e|] w1]; cbn [snd] in Hn; cbn.
    + exists [report id e]. rewrite Hn. split; reflexivity.
    + exists []. rewrite app_nil_r. split; [exact Hn|reflexivity].
  - cbn. exists []. now rewrite !app_nil_r.
Qed.

Lemma drain_inv ids pool w :
  Forall2 thread_ok ids pool ->
  let '(results, w1) := drain env pool w in
  length results = length pool
  /\ exists new, errChan w1 = errChan w ++ new
                 /\ contribs ids pool ++ new ≡ₚ failures ids results.
Proof.
  intros H. revert w. induction H as [|id p ids pool Hp Hrest IH]; intros w.
  { cbn. split; [reflexivity|]. exists []. split; [now rewrite app_nil_r|reflexivity]. }
  cbn [drain]. pose proof (run_thread id p w Hp) as Hr.
  destruct (run env p w) as [res w1]. destruct Hr as (new1 & Hc1 & Hf1).
  specialize (IH w1). destruct (drain env pool w1) as [results w2].
  destruct IH as (Hlen & new2 & Hc2 & Hp2).
  split; [cbn; now rewrite Hlen|].
  exists (new1 ++ new2). split; [rewrite Hc2, Hc1, app_assoc; reflexivity|].
  cbn [contribs failures]. rewrite <- Hf1, <- Hp2.
  rewrite <- !app_assoc. apply Permutation_app_head.
  rewrite !app_assoc. apply Permutation_app_tail. apply Permutation_app_comm.
Qed.

(** All goroutines of a pool that starts with an empty channel: at the
    barrier the channel holds, in some order, the failures of the
    repositories. *)
Lemma wg_Wait_inv sched ids w :
  errChan w = [] ->
  let '(results, w1) :=
    wg_Wait env sched (map (fun id => goroutine env d id.1 id.2) ids) w in
  length results = length ids /\ errChan w1 ≡ₚ failures ids results.
Proof.
  intros Hw. unfold wg_Wait.
  assert (H0 : Forall2 thread_ok ids (map (fun id => goroutine env d id.1 id.2) ids)).
  { induction ids; constructor; [apply thread_ok_goroutine|assumption]. }
  pose proof (schedule_inv sched ids _ w H0) as Hs.
  destruct (schedule env sched _ w) as [pool1 w1].
  destruct Hs as (H1 & new1 & Hc1 & Hp1).
  rewrite contribs_goroutines, Hw in *. cbn [app] in *.
  pose proof (drain_inv ids pool1 w1 H1) as Hd.
  destruct (drain env pool1 w1) as [results w2].
  destruct Hd as (Hlen & new2 & Hc2 & Hp2).
  split.
  { rewrite Hlen. symmetry. eapply Forall2_length; eauto. }
  rewrite Hc2, Hc1, <- Hp2, Hp1. reflexivity.
Qed.

Lemma step_at_length i pool w :
  length (step_at env i pool w).1 = length pool.
Proof.
  unfold step_at. destruct (pool !! i) as [[a|X e k]|]; try reflexivity.
  destruct (handle env e w) as [x w1]. cbn. apply length_insert.
Qed.

Lemma schedule_length sched pool w :
  length (schedule env sched pool w).1 = length pool.
Proof.
  revert pool w. induction sched as [|i sched IH]; intros pool w; [reflexivity|].
  cbn [schedule]. pose proof (step_at_length i pool w) as Hs.
  destruct (step_at env i pool w) as [pool1 w1]. cbn [fst] in Hs.
  now rewrite IH.
Qed.

Lemma parsed_length userRepos :
  Forall (fun s => malformed s = false) userRepos ->
  length (parsed userRepos) = length userRepos.
Proof.
  induction 1 as [|s l Hs _ IH]; [reflexivity|].
  unfold malformed in Hs. unfold parsed in *. simpl.
  destruct (parseUserRepo s) as [e|p]; [discriminate|].
  simpl. f_equal. exact IH.
Qed.

(** The loop over the identifiers starts one goroutine for each, up to
    the first that does not parse. *)
Lemma spawn_ok userRepos pool :
  Forall (fun s => malformed s = false) userRepos ->
  spawn env d userRepos pool
  = inr (pool ++ map (fun id => goroutine env d id.1 id.2) (parsed userRepos)).
Proof.
  intros H. revert pool. induction H as [|s l Hs _ IH]; intros pool.
  { cbn. now rewrite app_nil_r. }
  unfold malformed in Hs. cbn [spawn]. unfold parsed. simpl.
  destruct (parseUserRepo s) as [e|[owner repo]]; [discriminate|].
  simpl. rewrite IH, <- app_assoc. reflexivity.
Qed.

Lemma spawn_bad before bad after pool :
  Forall (fun s => malformed s = false) before ->
  malformed bad = true ->
  spawn env d (before ++ bad :: after) pool
  = inl (bad, "expected format 'owner/repo'",
         pool ++ map (fun id => goroutine env d id.1 id.2) (parsed before)).
Proof.
  intros H Hb. revert pool. induction H as [|s l Hs _ IH]; intros pool.
  - cbn. unfold malformed in Hb.
    destruct (parseUserRepo bad) as [e|p] eqn:E; [|discriminate].
    apply parseUserRepo_inl in E. subst e. now rewrite app_nil_r.
  - unfold malformed in Hs. cbn [spawn app]. unfold parsed. simpl.
    destruct (parseUserRepo s) as [e|[owner repo]]; [discriminate|].
    simpl. rewrite IH, <- app_assoc. reflexivity.
Qed.

Lemma first_malformed userRepos :
  Exists (fun s => malformed s = true) userRepos ->
  exists before bad after,
    userRepos = before ++ bad :: after
    /\ Forall (fun s => malformed s = false) before
    /\ malformed bad = true.
Proof.
  induction 1 as [s l Hs|s l _ IH].
  - exists [], s, l. repeat split; [constructor|exact Hs].
  - destruct (malformed s) eqn:E.
    + exists [], s, l. repeat split; [constructor|exact E].
    + destruct IH as (before & bad & after & -> & Hb & Hbad).
      exists (s :: before), bad, after. repeat split; [constructor|]; assumption.
Qed.

Lemma all_or_first_malformed userRepos :
  Forall (fun s => malformed s = false) userRepos
  \/ Exists (fun s => malformed s = true) userRepos.
Proof.
  induction userRepos as [|s l IH]; [left; constructor|].
  destruct (malformed s) eqn:E; [right; now constructor|].
  destruct IH as [IH|IH]; [left; now constructor|right; now constructor].
Qed.

Lemma failures_nil ids results :
  length results = length ids ->
  failures ids results = [] <-> Forall (fun res => res = None) results.
Proof.
  revert results. induction ids as [|id ids IH]; intros [|res results] Hlen;
    try discriminate.
  { split; [constructor|reflexivity]. }
  cbn [failures]. injection Hlen as Hlen. specialize (IH results Hlen).
  destruct res as [e|]; cbn.
  - split; [discriminate|]. intros H. inversion H. discriminate.
  - rewrite IH. split; [now constructor|]. intros H. now inversion H.
Qed.

End FanOut.

(** ** Guarantees under interference *)

Section Interference.

Variable env : Env.
Variable d : Downloader.

Lemma extends_refl w : extends w w.
Proof. split; exists []; now rewrite app_nil_r. Qed.

Lemma extends_trans w1 w2 w3 : extends w1 w2 -> extends w2 w3 -> extends w1 w3.
Proof.
  intros [[l1 H1] [m1 G1]] [[l2 H2] [m2 G2]]. split.
  - exists (l1 ++ l2). now rewrite H2, H1, app_assoc.
  - exists (m1 ++ m2). now rewrite G2, G1, app_assoc.
Qed.

(** No system call removes a path from the result list or a line from the
    standard output. *)
Lemma handle_extends {X} (e : Sys X) w : extends w (handle env e w).2.
Proof.
  destruct e; cbn;
    try (split; [exists []|exists []]; cbn; now rewrite app_nil_r).
  - destruct (mkdirAll env w _ (fs w)).
    split; exists []; cbn; now rewrite app_nil_r.
  - destruct (fs w !! path) as [[c|]|];
      destruct (Create_err env w path);
      split; exists []; cbn; now rewrite app_nil_r.
  - destruct (copy_outcome (Write_err env w path) src).
    split; exists []; cbn; now rewrite app_nil_r.
  - split; [exists []|exists [line]]; cbn; [now rewrite app_nil_r|reflexivity].
  - split; [exists [path]|exists []]; cbn; [reflexivity|now rewrite app_nil_r].
Qed.

Lemma wpi_extends {A} (p : prog A) Q w w' :
  (forall a, stable (Q a)) -> extends w w' -> wpi env p Q w -> wpi env p Q w'.
Proof.
  intros HQ Hext. destruct p as [a|X e k]; cbn [wpi].
  - apply HQ. exact Hext.
  - intros H w'' Hext'. apply H. eapply extends_trans; eauto.
Qed.

Lemma wpi_mono {A} (p : prog A) (Q Q' : A -> World -> Prop) w :
  (forall a w1, Q a w1 -> Q' a w1) -> wpi env p Q w -> wpi env p Q' w.
Proof.
  intros HQ. revert w. induction p as [a|X e k IH]; intros w; cbn [wpi].
  - apply HQ.
  - intros H w' Hext. apply IH, H, Hext.
Qed.

Lemma wpi_bind {A B} (m : prog A) (f : A -> prog B) Q w :
  wpi env m (fun a w1 => wpi env (f a) Q w1) w -> wpi env (bind m f) Q w.
Proof.
  revert w. induction m as [a|X e k IH]; intros w; cbn [wpi bind]; [auto|].
  intros H w' Hext. apply IH, H, Hext.
Qed.

(** A stable fact that holds now still holds when the program ends. *)
Lemma wpi_frame {A} (p : prog A) Q (P : World -> Prop) w :
  stable P -> P w -> wpi env p Q w -> wpi env p (fun a w1 => Q a w1 /\ P w1) w.
Proof.
  intros HP. revert w. induction p as [a|X e k IH]; intros w Hw; cbn [wpi].
  - auto.
  - intros H w' Hext. apply IH; [|apply H, Hext].
    eapply HP; [apply handle_extends|]. eapply HP; eauto.
Qed.

(** Alone, a program ends as [wpi] says. *)
Lemma run_wpi {A} (p : prog A) Q w :
  wpi env p Q w -> Q (run env p w).1 (run env p w).2.
Proof.
  revert w. induction p as [a|X e k IH]; intros w; cbn [wpi run]; [auto|].
  intros H. specialize (H w (extends_refl w)).
  destruct (handle env e w) as [x w1]. apply IH, H.
Qed.

Lemma run_extends {A} (p : prog A) w : extends w (run env p w).2.
Proof.
  revert w. induction p as [a|X e k IH]; intros w; cbn [run];
    [apply extends_refl|].
  pose proof (handle_extends e w) as Hh.
  destruct (handle env e w) as [x w1]. eapply extends_trans; [exact Hh|apply IH].
Qed.

Lemma stable_In_binPaths path : stable (fun w => In path (binPaths w)).
Proof. intros w w' [[l ->] _] H. apply in_or_app. auto. Qed.

Lemma stable_In_stdout line : stable (fun w => In line (stdout w)).
Proof. intros w w' [_ [l ->]] H. apply in_or_app. auto. Qed.

Lemma stable_assets_settled owner repo dir assets :
  stable (assets_settled env d owner repo dir assets).
Proof.
  intros w w' Hext H asset Hin Hp. destruct (H asset Hin Hp) as [Hb|[e He]].
  - left. eapply stable_In_binPaths; eauto.
  - right. exists e. eapply stable_In_stdout; eauto.
Qed.

Lemma stable_release_settled id res : stable (release_settled env d id res).
Proof.
  intros w w' Hext H Hres.
  destruct (H Hres) as (w0 & release & H1 & H2 & H3 & H4 & H5).
  exists w0, release. repeat (split; [assumption|]).
  eapply stable_assets_settled; eauto.
Qed.

(** *** The asset fetcher records the path of every success *)

Lemma wpi_recorded path w :
  wpi env (call AppendBinPath path ;; Ret (@None string))
    (fun r w1 => r = None -> In path (binPaths w1)) w.
Proof.
  cbn [wpi handle fst snd]. intros w' _ _. cbn. apply in_or_app. right. now left.
Qed.

Lemma wpi_writeBody asset path src w :
  wpi env (writeBody asset path src)
    (fun r w1 => r = None -> In path (binPaths w1)) w.
Proof.
  unfold writeBody. cbn [wpi]. intros w' _.
  destruct (handle env (Copy path src) w') as [[e|] w1]; cbn [fst snd wpi];
    [discriminate|].
  intros w2 _. apply wpi_recorded.
Qed.

Lemma wpi_followRedirect asset path resp w :
  wpi env (followRedirect env asset path resp)
    (fun r w1 => r = None -> In path (binPaths w1)) w.
Proof.
  unfold followRedirect.
  destruct (negb _); [cbn; discriminate|].
  destruct (String.eqb _ _); [cbn; discriminate|].
  destruct (NewRequest env "GET" _) as [e|req2]; [cbn; discriminate|].
  cbn [wpi]. intros w' _.
  destruct (handle env (Do _ _) w') as [[e|src] w1]; cbn [fst snd];
    [cbn; discriminate|].
  destruct (negb _); [cbn; discriminate|]. apply wpi_writeBody.
Qed.

Lemma wpi_fetchAsset asset url path w :
  wpi env (fetchAsset env d asset url path)
    (fun r w1 => r = None -> In path (binPaths w1)) w.
Proof.
  unfold fetchAsset. cbn [wpi]. intros w' _.
  destruct (handle env (Create path) w') as [[e|] w1]; cbn [fst snd];
    [cbn; discriminate|].
  destruct (NewRequest env "GET" url) as [e|req]; [cbn; discriminate|].
  cbn [wpi]. intros w2 _.
  destruct (handle env (Do _ _) w2) as [[e|resp] w3]; cbn [fst snd];
    [cbn; discriminate|].
  apply wpi_followRedirect.
Qed.

Lemma wpi_downloadAsset asset versionDir forceDownload w :
  wpi env (downloadAsset env d asset versionDir forceDownload)
    (fun r w1 =>
       r = None ->
       In (filepath_Join env versionDir (github.GetName asset)) (binPaths w1)) w.
Proof.
  unfold downloadAsset.
  destruct (String.eqb _ _); [cbn; discriminate|].
  destruct forceDownload; cbn [negb]; [apply wpi_fetchAsset|].
  cbn [wpi]. intros w' _.
  destruct (handle env (Stat _) w') as [[|] w1]; cbn [fst snd];
    [|apply wpi_fetchAsset].
  cbn [wpi]. intros w2 _. apply wpi_recorded.
Qed.

(** *** The loop settles every asset and returns [nil] *)

Lemma assets_settled_nil owner repo dir w :
  assets_settled env d owner repo dir [] w.
Proof. intros asset []. Qed.

Lemma assets_settled_skip owner repo dir asset rest w :
  passes_filter d asset = false ->
  assets_settled env d owner repo dir rest w ->
  assets_settled env d owner repo dir (asset :: rest) w.
Proof.
  intros Hskip H asset' [<-|Hin] Hp; [congruence|]. now apply H.
Qed.

Lemma assets_settled_cons owner repo dir asset rest w :
  In (filepath_Join env dir (github.GetName asset)) (binPaths w)
  \/ (exists e, In (warning owner repo asset e) (stdout w)) ->
  assets_settled env d owner repo dir rest w ->
  assets_settled env d owner repo dir (asset :: rest) w.
Proof.
  intros Hhead H asset' [<-|Hin] Hp; [exact Hhead|]. now apply H.
Qed.

Lemma wpi_downloadAssets owner repo dir force assets w :
  wpi env (downloadAssets env d owner repo dir force assets)
    (fun r w1 => r = None /\ assets_settled env d owner repo dir assets w1) w.
Proof.
  revert w. induction assets as [|asset rest IH]; intros w; cbn [downloadAssets].
  { cbn. split; [reflexivity|apply assets_settled_nil]. }
  destruct (negb (String.eqb (matchFilter d) "")
            && negb (GoStrings.Contains (github.GetName asset) (matchFilter d)))
    eqn:Hskip.
  - cbn [wpi]. intros w' _. eapply wpi_mono; [|apply IH].
    intros r w1 [Hr Hs]. split; [exact Hr|].
    apply assets_settled_skip; [|exact Hs]. unfold passes_filter. now rewrite Hskip.
  - apply wpi_bind. eapply wpi_mono; [|apply wpi_downloadAsset].
    intros [e|] w1 Hrec.
    + cbn [wpi]. intros w' _.
      eapply wpi_mono;
        [|apply wpi_frame
            with (P := fun w2 => In (warning owner repo asset e) (stdout w2));
          [apply stable_In_stdout| |apply IH]].
      * cbn beta. intros r w2 [[Hr Hs] Hw]. split; [exact Hr|].
        apply assets_settled_cons; [right; eauto|exact Hs].
      * cbn. apply in_or_app. right. now left.
    + eapply wpi_mono;
        [|apply wpi_frame
            with (P := fun w2 => In (filepath_Join env dir (github.GetName asset))
                                   (binPaths w2));
          [apply stable_In_binPaths|auto|apply IH]].
      cbn beta. intros r w2 [[Hr Hs] Hw]. split; [exact Hr|].
      apply assets_settled_cons; [left; exact Hw|exact Hs].
Qed.

(** *** The task of a repository *)

Lemma wpi_downloadLatestRelease owner repo w :
  wpi env (downloadLatestRelease env d owner repo)
    (release_settled env d (owner, repo)) w.
Proof.
  unfold downloadLatestRelease. cbn [wpi handle fst snd]. intros w' _.
  destruct (LatestRelease env w' owner repo) as [e|release] eqn:Hrel;
    [cbn; discriminate|].
  destruct (github.GetDraft release) eqn:Hd; [cbn; discriminate|].
  destruct (github.GetPrerelease release) eqn:Hp; [cbn; discriminate|].
  cbn [orb].
  destruct (github.Assets release) as [|a0 assets0] eqn:Ha; [cbn; discriminate|].
  cbn [length Nat.eqb]. rewrite <- Ha.
  destruct (tag_and_force release) as [tag force] eqn:Htf.
  unfold downloadInto. cbn [wpi]. intros w2 _.
  destruct (handle env (MkdirAll _) w2) as [[e|] w3]; cbn [fst snd];
    [cbn; discriminate|].
  eapply wpi_mono; [|apply wpi_downloadAssets].
  intros r w4 [_ Hs] _. exists w', release. cbn [fst snd].
  repeat (split; [assumption || congruence|]). unfold versionDirOf.
  rewrite Htf. exact Hs.
Qed.

Lemma wpi_goroutine id w :
  wpi env (goroutine env d id.1 id.2) (release_settled env d id) w.
Proof.
  destruct id as [owner repo]. cbn [fst snd]. rewrite goroutine_reporter.
  apply wpi_bind. eapply wpi_mono; [|apply wpi_downloadLatestRelease].
  intros [e|] w1 H; [cbn; discriminate|exact H].
Qed.

Lemma wpi_True {A} (p : prog A) w : wpi env p (fun _ _ => True) w.
Proof.
  revert w. induction p as [a|X e k IH]; intros w; cbn [wpi]; [exact I|].
  intros w' _. apply IH.
Qed.

Lemma wpi_goroutine_draft id w :
  wpi env (goroutine env d id.1 id.2) (draft_reported env id) w.
Proof.
  destruct id as [owner repo]. cbn [fst snd]. rewrite goroutine_reporter.
  apply wpi_bind. unfold downloadLatestRelease. cbn [wpi handle fst snd].
  intros w' _. unfold draft_reported.
  destruct (LatestRelease env w' owner repo) as [e|release] eqn:Hrel.
  { cbn. intros w2 _ Hd. destruct (Hd w') as (release & Hr & _).
    cbn in Hr. congruence. }
  destruct (github.GetDraft release || github.GetPrerelease release) eqn:Hdraft.
  { cbn. intros w2 _ _. reflexivity. }
  eapply wpi_mono with (Q := fun _ _ => True).
  - intros res w1 _. assert (Hno : draft_only env (owner, repo) -> False).
    { intros Hd. destruct (Hd w') as (release' & Hr & Hd').
      cbn in Hr. congruence. }
    destruct res as [e|]; cbn; [intros w2 _ Hd|intros Hd]; destruct (Hno Hd).
  - apply wpi_True.
Qed.

Lemma stable_draft_reported id res : stable (draft_reported env id res).
Proof. intros w w' _ H. exact H. Qed.

(** *** The scheduler keeps the guarantees of every goroutine *)

Section Pool.

Variable Q : string * string -> option string -> World -> Prop.
Hypothesis Q_stable : forall id res, stable (Q id res).

Lemma step_at_extends i pool w : extends w (step_at env i pool w).2.
Proof.
  unfold step_at. destruct (pool !! i) as [[a|X e k]|]; try apply extends_refl.
  pose proof (handle_extends e w) as Hh.
  destruct (handle env e w) as [x w1]. exact Hh.
Qed.

Lemma pool_extends ids pool w w' :
  extends w w' ->
  Forall2 (fun id p => wpi env p (Q id) w) ids pool ->
  Forall2 (fun id p => wpi env p (Q id) w') ids pool.
Proof.
  intros Hext H. induction H; constructor; [|assumption].
  eapply wpi_extends; eauto.
Qed.

Lemma step_at_wpi ids pool w i :
  Forall2 (fun id p => wpi env p (Q id) w) ids pool ->
  Forall2 (fun id p => wpi env p (Q id) (step_at env i pool w).2) ids
    (step_at env i pool w).1.
Proof.
  intros H. revert i. induction H as [|id p ids pool Hp Hrest IH]; intros i.
  { unfold step_at. rewrite lookup_nil. constructor. }
  destruct i as [|i].
  - unfold step_at. cbn [lookup list_lookup].
    destruct p as [a|X e k].
    + constructor; assumption.
    + cbn [wpi] in Hp. specialize (Hp w (extends_refl w)).
      pose proof (handle_extends e w) as Hh.
      destruct (handle env e w) as [x w1]. cbn [fst snd] in *.
      constructor; [exact Hp|]. eapply pool_extends; eauto.
  - rewrite step_at_cons. specialize (IH i).
    pose proof (step_at_extends i pool w) as Hext.
    destruct (step_at env i pool w) as [pool1 w1]. cbn [fst snd] in *.
    constructor; [|exact IH]. eapply wpi_extends; eauto.
Qed.

Lemma schedule_wpi sched ids pool w :
  Forall2 (fun id p => wpi env p (Q id) w) ids pool ->
  Forall2 (fun id p => wpi env p (Q id) (schedule env sched pool w).2) ids
    (schedule env sched pool w).1.
Proof.
  revert pool w. induction sched as [|i sched IH]; intros pool w H; [exact H|].
  cbn [schedule]. pose proof (step_at_wpi ids pool w i H) as Hs.
  destruct (step_at env i pool w) as [pool1 w1]. apply IH, Hs.
Qed.

Lemma drain_extends pool w : extends w (drain env pool w).2.
Proof.
  revert w. induction pool as [|p pool IH]; intros w; [apply extends_refl|].
  cbn [drain]. pose proof (run_extends p w) as Hr.
  destruct (run env p w) as [r w1]. specialize (IH w1).
  destruct (drain env pool w1) as [rs w2]. eapply extends_trans; eauto.
Qed.

Lemma drain_wpi ids pool w :
  Forall2 (fun id p => wpi env p (Q id) w) ids pool ->
  Forall2 (fun id res => Q id res (drain env pool w).2) ids (drain env pool w).1.
Proof.
  intros H. revert ids w H. induction pool as [|p pool IH]; intros ids w H.
  { inversion H. constructor. }
  inversion H as [|id p' ids' pool' Hp Hrest]; subst. cbn [drain].
  pose proof (run_wpi p (Q id) w Hp) as Hq.
  pose proof (run_extends p w) as Hr.
  destruct (run env p w) as [r w1]. cbn [fst snd] in *.
  specialize (IH ids' w1 (pool_extends _ _ _ _ Hr Hrest)).
  pose proof (drain_extends pool w1) as Hd.
  destruct (drain env pool w1) as [rs w2]. cbn [fst snd] in *.
  constructor; [|exact IH]. eapply Q_stable; eauto.
Qed.

Lemma wg_Wait_wpi sched ids pool w :
  Forall2 (fun id p => wpi env p (Q id) w) ids pool ->
  Forall2 (fun id res => Q id res (wg_Wait env sched pool w).2) ids
    (wg_Wait env sched pool w).1.
Proof.
  intros H. unfold wg_Wait. pose proof (schedule_wpi sched ids pool w H) as Hs.
  destruct (schedule env sched pool w) as [pool1 w1]. apply drain_wpi, Hs.
Qed.

End Pool.

End Interference.

(** ** The call as a whole *)

Section Barrier.

Variable env : Env.
Variable d : Downloader.

Lemma goroutines_wpi ids w :
  Forall2 (fun id p => wpi env p (release_settled env d id) w) ids
    (map (fun id => goroutine env d id.1 id.2) ids).
Proof. induction ids; constructor; [apply wpi_goroutine|assumption]. Qed.

Lemma goroutines_draft ids w :
  Forall2 (fun id p => wpi env p (draft_reported env id) w) ids
    (map (fun id => goroutine env d id.1 id.2) ids).
Proof. induction ids; constructor; [apply wpi_goroutine_draft|assumption]. Qed.

Lemma draft_in_failures ids results id w :
  Forall2 (fun id res => draft_reported env id res w) ids results ->
  In id ids -> draft_only env id ->
  In (report id "latest release is draft or pre-release") (failures ids results).
Proof.
  induction 1 as [|id' res ids results Hhead _ IH]; intros Hin Hd; [destruct Hin|].
  cbn [failures]. apply in_or_app. destruct Hin as [->|Hin].
  - left. rewrite (Hhead Hd). now left.
  - right. now apply IH.
Qed.

(** The call when the root directory is there and every identifier
    parses: the barrier, then the aggregation. *)
Lemma DownloadLatestReleases_barrier userRepos sched w :
  (handle env (MkdirAll (destDir d)) w).1 = None ->
  Forall (fun s => malformed s = false) userRepos ->
  let out := DownloadLatestReleases env d userRepos sched w in
  exists results errs,
    tasks out = map Ret results
    /\ length results = length userRepos
    /\ paths out = binPaths (world out)
    /\ errs ≡ₚ failures (parsed userRepos) results
    /\ err out = match errs with
                 | [] => None
                 | _ => Some ("errors occurred:" +:+ GoStrings.LF
                              +:+ GoStrings.Join errs GoStrings.LF)
                 end
    /\ Forall2 (fun id res => release_settled env d id res (world out))
         (parsed userRepos) results
    /\ (forall id, In id (parsed userRepos) -> draft_only env id ->
        In (report id "latest release is draft or pre-release") errs).
Proof.
  intros Hm Hall. unfold DownloadLatestReleases.
  destruct (handle env (MkdirAll (destDir d)) w) as [[e|] w1]; [discriminate|].
  rewrite (spawn_ok env d userRepos [] Hall). cbn [app].
  pose proof (wg_Wait_inv env d sched (parsed userRepos) (with_errChan w1 []) eq_refl)
    as Hw.
  pose proof (wg_Wait_wpi env (release_settled env d) (stable_release_settled env d)
                sched (parsed userRepos) _ (with_errChan w1 [])
                (goroutines_wpi (parsed userRepos) _)) as Hs.
  pose proof (wg_Wait_wpi env (draft_reported env) (stable_draft_reported env)
                sched (parsed userRepos) _ (with_errChan w1 [])
                (goroutines_draft (parsed userRepos) _)) as Hdr.
  destruct (wg_Wait env sched _ (with_errChan w1 [])) as [results w3].
  destruct Hw as (Hlen & Hperm). cbn [fst snd] in Hs, Hdr.
  rewrite parsed_length in Hlen by exact Hall.
  exists results, (errChan w3).
  assert (Hin : forall id, In id (parsed userRepos) -> draft_only env id ->
                In (report id "latest release is draft or pre-release") (errChan w3)).
  { intros id Hid Hd. eapply Permutation_in; [symmetry; exact Hperm|].
    eapply draft_in_failures; eauto. }
  destruct (errChan w3) as [|m errs] eqn:Hch; cbn -[GoStrings.Join];
    rewrite ?Hch; repeat split; auto.
Qed.

(** Alone, the loop over the assets returns [nil] and settles every
    asset. *)
Lemma downloadAssets_run owner repo dir force assets w :
  (run env (downloadAssets env d owner repo dir force assets) w).1 = None
  /\ assets_settled env d owner repo dir assets
       (run env (downloadAssets env d owner repo dir force assets) w).2.
Proof.
  apply (run_wpi env _ _ w (wpi_downloadAssets env d owner repo dir force assets w)).
Qed.

(** The failure of an asset is a warning on the standard output, and the
    loop goes on with the assets that remain. *)
Lemma downloadAssets_warns owner repo dir force asset rest w e w1 :
  passes_filter d asset = true ->
  run env (downloadAsset env d asset dir force) w = (Some e, w1) ->
  run env (downloadAssets env d owner repo dir force (asset :: rest)) w
  = run env (downloadAssets env d owner repo dir force rest)
      (with_stdout w1 (stdout w1 ++ [warning owner repo asset e])).
Proof.
  intros Hp Hrun. cbn [downloadAssets]. unfold passes_filter in Hp.
  destruct (negb (String.eqb (matchFilter d) "") && _); [discriminate|].
  rewrite run_bind, Hrun. reflexivity.
Qed.

(** The run of the task of a repository, by the answers of the outside. *)
Lemma downloadLatestRelease_run owner repo w :
  let w1 := record w (EvGetLatestRelease owner repo) in
  let p := downloadLatestRelease env d owner repo in
  match LatestRelease env w owner repo with
  | inl x => run env p w = (Some ("error fetching latest release: " +:+ x), w1)
  | inr release =>
      if github.GetDraft release || github.GetPrerelease release
      then run env p w = (Some "latest release is draft or pre-release", w1)
      else if (length (github.Assets release) =? 0)%nat
      then run env p w = (Some "no assets found in the latest release", w1)
      else
        let dir := versionDirOf env d repo release in
        match handle env (MkdirAll dir) w1 with
        | (Some x, w2) =>
            run env p w = (Some ("failed to create version directory '" +:+ dir
                                 +:+ "': " +:+ x), w2)
        | (None, w2) =>
            run env p w
            = run env (downloadAssets env d owner repo dir (tag_and_force release).2
                         (github.Assets release)) w2
        end
  end.
Proof.
  intros w1 p. subst p. unfold downloadLatestRelease. cbn [run].
  change (handle env (GetLatestRelease owner repo) w)
    with (LatestRelease env w owner repo, w1).
  cbv beta iota.
  destruct (LatestRelease env w owner repo) as [x|release]; [reflexivity|].
  destruct (github.GetDraft release || github.GetPrerelease release); [reflexivity|].
  destruct (length (github.Assets release) =? 0)%nat; [reflexivity|].
  unfold versionDirOf. destruct (tag_and_force release) as [tag force].
  cbn [fst snd]. unfold downloadInto. cbn [run]. cbn zeta.
  destruct (handle env (MkdirAll _) w1) as [[x|] w2]; reflexivity.
Qed.

(** The task of a repository reports an error exactly for a failure of the
    resolver, and then it has touched no asset. *)
Lemma downloadLatestRelease_error owner repo w e :
  (run env (downloadLatestRelease env d owner repo) w).1 = Some e
  <-> resolver_failure env d owner repo w e.
Proof.
  pose proof (downloadLatestRelease_run owner repo w) as H. cbn zeta in H.
  unfold resolver_failure.
  destruct (LatestRelease env w owner repo) as [x|release].
  { rewrite H. cbn. split; congruence. }
  destruct (github.GetDraft release || github.GetPrerelease release).
  { rewrite H. cbn. split; congruence. }
  destruct (length (github.Assets release) =? 0)%nat.
  { rewrite H. cbn. split; congruence. }
  destruct (handle env (MkdirAll _) _) as [[x|] w2]; rewrite H; cbn [fst].
  - split; [intros [= <-]; eauto|intros (x' & [= <-] & ->); reflexivity].
  - rewrite (proj1 (downloadAssets_run _ _ _ _ _ _)).
    split; [discriminate|intros (x' & [=] & _)].
Qed.

Lemma downloadLatestRelease_abort owner repo w e :
  (run env (downloadLatestRelease env d owner repo) w).1 = Some e ->
  let w1 := (run env (downloadLatestRelease env d owner repo) w).2 in
  binPaths w1 = binPaths w /\ stdout w1 = stdout w
  /\ (trace w1 = trace w ++ [EvGetLatestRelease owner repo]
      \/ exists dir, trace w1 = trace w ++ [EvGetLatestRelease owner repo;
                                            EvMkdirAll dir]).
Proof.
  pose proof (downloadLatestRelease_run owner repo w) as H. cbn zeta in H.
  destruct (LatestRelease env w owner repo) as [x|release].
  { rewrite H. cbn. auto. }
  destruct (github.GetDraft release || github.GetPrerelease release).
  { rewrite H. cbn. auto. }
  destruct (length (github.Assets release) =? 0)%nat.
  { rewrite H. cbn. auto. }
  pose proof (handle_MkdirAll_cases env (versionDirOf env d repo release)
                (record w (EvGetLatestRelease owner repo))) as Hm.
  destruct (handle env (MkdirAll _) _) as [[x|] w2]; rewrite H; cbn [fst snd].
  - intros _. destruct Hm as (Ht & Hb & _ & Hs). cbn in Ht, Hb, Hs.
    split; [exact Hb|]. split; [exact Hs|]. right. eexists.
    rewrite Ht, <- app_assoc. reflexivity.
  - rewrite (proj1 (downloadAssets_run _ _ _ _ _ _)). discriminate.
Qed.

End Barrier.

(** ** Where the paths of the result list come from *)

Section Paths.

Variable env : Env.
Variable d : Downloader.













Section Threads.

Variable ids : list (string * string).







End Threads.


End Paths.

(** An identifier fails to parse exactly when the number of its [/] is
    not one. *)
Lemma malformed_count s : malformed s = false <-> GoStrings.count slash s = 1%nat.
Proof.
  rewrite <- parseUserRepo_count. unfold malformed.
  destruct (parseUserRepo s) as [e|[o r]]; split; try discriminate; eauto.
  intros (o & r & [=]).
Qed.

(** C7, as the code has it: the identifiers that end the call are those
    that [parseUserRepo] refuses, which are the strings that do not hold
    exactly one [/].  Once the root directory is there, a list with such
    an identifier ends the call at the first of them: the paths are [nil],
    the error names the identifier, whatever the scheduler does, and
    goroutines exist only for the identifiers before it. *)
Theorem DownloadLatestReleases_fail_fast env d userRepos sched w :
  (handle env (MkdirAll (destDir d)) w).1 = None ->
  Exists (fun s => GoStrings.count slash s <> 1%nat) userRepos ->
  exists before bad after,
    userRepos = before ++ bad :: after
    /\ Forall (fun s => GoStrings.count slash s = 1%nat) before
    /\ GoStrings.count slash bad <> 1%nat
    /\ let out := DownloadLatestReleases env d userRepos sched w in
       paths out = []
       /\ err out = Some ("invalid user/repo format '" +:+ bad
                          +:+ "': expected format 'owner/repo'")
       /\ length (tasks out) = length before.
Proof.
  intros Hm Hex.
  assert (Hex' : Exists (fun s => malformed s = true) userRepos).
  { eapply Exists_impl; [exact Hex|]. cbn. intros s Hs.
    destruct (malformed s) eqn:E; [reflexivity|].
    apply malformed_count in E. contradiction. }
  destruct (first_malformed userRepos Hex') as (before & bad & after & -> & Hb & Hbad).
  exists before, bad, after. split; [reflexivity|]. split.
  { eapply Forall_impl; [exact Hb|]. cbn. intros s. apply malformed_count. }
  split.
  { intros Hc. apply malformed_count in Hc. congruence. }
  unfold DownloadLatestReleases.
  destruct (handle env (MkdirAll (destDir d)) w) as [[e|] w1]; [discriminate|].
  rewrite (spawn_bad env d before bad after [] Hb Hbad). cbn [app].
  pose proof (schedule_length env sched
                (map (fun id => goroutine env d id.1 id.2) (parsed before))
                (with_errChan w1 [])) as Hlen.
  destruct (schedule env sched _ (with_errChan w1 [])) as [pool1 w3].
  cbn [fst] in Hlen. cbn [paths err tasks].
  split; [reflexivity|]. split; [reflexivity|].
  rewrite Hlen, length_map. now apply parsed_length.
Qed.

Lemma DownloadLatestReleases_fail_fast_witness :
  exists before bad after,
    ["acme/tool"; "acme"; "acme/kit"] = before ++ bad :: after
    /\ Forall (fun s => GoStrings.count slash s = 1%nat) before
    /\ GoStrings.count slash bad <> 1%nat
    /\ let out := DownloadLatestReleases Ex.env Ex.d ["acme/tool"; "acme"; "acme/kit"]
                    [0; 0; 0]%nat Ex.empty in
       paths out = []
       /\ err out = Some ("invalid user/repo format '" +:+ bad
                          +:+ "': expected format 'owner/repo'")
       /\ length (tasks out) = length before.
Proof.
  apply (DownloadLatestReleases_fail_fast Ex.env Ex.d
           ["acme/tool"; "acme"; "acme/kit"] [0; 0; 0]%nat Ex.empty).
  - reflexivity.
  - apply Exists_cons_tl, Exists_cons_hd. discriminate.
Defined.

(** C7 as stated fails for the identifiers with an empty owner or an empty
    repository, which [parseUserRepo] accepts: the call is not ended at
    [/repo].  Its goroutine is started like the others; when the API knows
    no such repository the failure is collected with the header, beside
    the paths of the other repository. *)
Lemma empty_owner_is_collected :
  (let out := DownloadLatestReleases Ex.env Ex.d ["/repo"] [] Ex.empty in
   err out = None /\ tasks out = [Ret None])
  /\ (let out := DownloadLatestReleases Cases.owners Ex.d ["acme/tool"; "/repo"] []
                   Ex.empty in
      err out = Some ("errors occurred:" +:+ GoStrings.LF
                      +:+ "failed to download /repo: "
                      +:+ "error fetching latest release: 404 Not Found")
      /\ paths out = ["downloads/tool-v1.2.0/tool_linux.tar.gz";
                      "downloads/tool-v1.2.0/tool_darwin.tar.gz"]
      /\ tasks out = [Ret None;
                      Ret (Some "error fetching latest release: 404 Not Found")]).
Proof. split; vm_compute; repeat split. Qed.



(** Three repositories, the second with a draft as latest release, under
    one scheduler: the paths of the assets of the first and the third, and
    an error that names the second alone. *)
Example three_repositories_one_draft :
  let out := DownloadLatestReleases Ex.env Ex.d
               ["acme/tool"; "acme/drafty"; "acme/kit"]
               [2; 2; 0; 2; 2; 2; 1; 2; 2; 2; 2; 1; 0]%nat Ex.empty in
  paths out = ["downloads/kit-v1.2.0/tool_linux.tar.gz";
               "downloads/tool-v1.2.0/tool_linux.tar.gz";
               "downloads/tool-v1.2.0/tool_darwin.tar.gz";
               "downloads/kit-v1.2.0/tool_darwin.tar.gz"]
  /\ err out = Some ("errors occurred:" +:+ GoStrings.LF
                     +:+ "failed to download acme/drafty: "
                     +:+ "latest release is draft or pre-release")
  /\ tasks out = [Ret None; Ret (Some "latest release is draft or pre-release");
                  Ret None].
Proof. vm_compute. repeat split. Qed.


(** Under every scheduler, the call on the three repositories returns an
    error, and the error holds the failure of the repository with the
    draft. *)
Example draft_repository_is_always_reported (sched : list nat) :
  let out := DownloadLatestReleases Ex.env Ex.d
               ["acme/tool"; "acme/drafty"; "acme/kit"] sched Ex.empty in
  exists errs,
    err out = Some ("errors occurred:" +:+ GoStrings.LF
                    +:+ GoStrings.Join errs GoStrings.LF)
    /\ In "failed to download acme/drafty: latest release is draft or pre-release"
         errs.
Proof.
  intros out.
  destruct (DownloadLatestReleases_barrier Ex.env Ex.d
              ["acme/tool"; "acme/drafty"; "acme/kit"] sched Ex.empty)
    as (results & errs & _ & _ & _ & _ & Herr & _ & Hdraft);
    [reflexivity|repeat constructor|].
  fold out in Herr. exists errs.
  assert (Hin : In (report ("acme", "drafty") "latest release is draft or pre-release")
                  errs).
  { apply Hdraft; [right; left; reflexivity|].
    intros w. exists Ex.draft. split; reflexivity. }
  split; [|exact Hin]. destruct errs; [destruct Hin|exact Herr].
Qed.

(** C6, as the code has it.  The loop over the assets always returns
    [nil] and leaves every asset that passes the filter among the paths or
    warned about; the failure of one asset is a warning line, after which
    the loop goes on with the remaining assets.  The task of a repository
    reports an error exactly for a failure of the resolver: the release
    cannot be fetched, is a draft or a pre-release, has no asset, or its
    directory cannot be made; the task then stops without touching an
    asset.  Under any scheduler every task of the call runs to its end
    whatever the others report: the failures are collected, and the
    repositories that did not fail have their assets settled. *)
Theorem failure_isolation env d :
  (forall owner repo dir force assets w,
      (run env (downloadAssets env d owner repo dir force assets) w).1 = None
      /\ assets_settled env d owner repo dir assets
           (run env (downloadAssets env d owner repo dir force assets) w).2)
  /\ (forall owner repo dir force asset rest w e w1,
      passes_filter d asset = true ->
      run env (downloadAsset env d asset dir force) w = (Some e, w1) ->
      run env (downloadAssets env d owner repo dir force (asset :: rest)) w
      = run env (downloadAssets env d owner repo dir force rest)
          (with_stdout w1 (stdout w1 ++ [warning owner repo asset e])))
  /\ (forall owner repo w e,
      ((run env (downloadLatestRelease env d owner repo) w).1 = Some e
       <-> resolver_failure env d owner repo w e)
      /\ ((run env (downloadLatestRelease env d owner repo) w).1 = Some e ->
          let w1 := (run env (downloadLatestRelease env d owner repo) w).2 in
          binPaths w1 = binPaths w /\ stdout w1 = stdout w
          /\ (trace w1 = trace w ++ [EvGetLatestRelease owner repo]
              \/ exists dir, trace w1 = trace w ++ [EvGetLatestRelease owner repo;
                                                    EvMkdirAll dir])))
  /\ (forall userRepos sched w,
      (handle env (MkdirAll (destDir d)) w).1 = None ->
      Forall (fun s => malformed s = false) userRepos ->
      let out := DownloadLatestReleases env d userRepos sched w in
      exists results errs,
        tasks out = map Ret results
        /\ length results = length userRepos
        /\ errs ≡ₚ failures (parsed userRepos) results
        /\ err out = match errs with
                     | [] => None
                     | _ => Some ("errors occurred:" +:+ GoStrings.LF
                                  +:+ GoStrings.Join errs GoStrings.LF)
                     end
        /\ Forall2 (fun id res => release_settled env d id res (world out))
             (parsed userRepos) results).
Proof.
  split; [|split; [|split]].
  - intros. apply downloadAssets_run.
  - intros. now apply downloadAssets_warns.
  - intros owner repo w e. split.
    + apply downloadLatestRelease_error.
    + apply downloadLatestRelease_abort.
  - intros userRepos sched w Hm Hall.
    destruct (DownloadLatestReleases_barrier env d userRepos sched w Hm Hall)
      as (results & errs & H1 & H2 & _ & H4 & H5 & H6 & _).
    exists results, errs. auto.
Qed.

Lemma failure_isolation_witness :
  let env := Ex.mkEnv (inr (Ex.found (Some "https://cdn.example/asset")))
               (inr (Ex.ok "B")) Ex.latest Ex.read_only Ex.never Ex.never None in
  let out := DownloadLatestReleases env Ex.d ["acme/tool"; "acme/kit"]
               [0; 1; 0; 1]%nat Ex.empty in
  exists results errs,
    tasks out = map Ret results
    /\ length results = 2%nat
    /\ errs ≡ₚ failures [("acme", "tool"); ("acme", "kit")] results
    /\ err out = match errs with
                 | [] => None
                 | _ => Some ("errors occurred:" +:+ GoStrings.LF
                              +:+ GoStrings.Join errs GoStrings.LF)
                 end
    /\ Forall2 (fun id res => release_settled env Ex.d id res (world out))
         [("acme", "tool"); ("acme", "kit")] results.
Proof.
  intros env.
  apply (proj2 (proj2 (proj2 (failure_isolation env Ex.d)))
           ["acme/tool"; "acme/kit"] [0; 1; 0; 1]%nat Ex.empty).
  - reflexivity.
  - repeat constructor.
Defined.

(** C6 as stated fails: a release that is fetched, is neither draft nor
    pre-release and has assets still makes the task report an error when
    its directory cannot be made; the sibling repository is downloaded all
    the same. *)
Lemma version_directory_failure_is_reported :
  let env := Ex.mkEnv (inr (Ex.found (Some "https://cdn.example/asset")))
               (inr (Ex.ok "B")) Ex.latest Ex.read_only Ex.never Ex.never None in
  let release := Ex.release (Some "v1.2.0") [Ex.linux; Ex.darwin] in
  LatestRelease env Ex.empty "acme" "tool" = inr release
  /\ github.GetDraft release = false
  /\ github.GetPrerelease release = false
  /\ github.Assets release <> []
  /\ (run env (downloadLatestRelease env Ex.d "acme" "tool") Ex.empty).1
     = Some "failed to create version directory 'downloads/tool-v1.2.0': permission denied"
  /\ let out := DownloadLatestReleases env Ex.d ["acme/tool"; "acme/kit"]
                  [0; 1; 0; 1]%nat Ex.empty in
     err out = Some ("errors occurred:" +:+ GoStrings.LF
                     +:+ "failed to download acme/tool: failed to create version "
                     +:+ "directory 'downloads/tool-v1.2.0': permission denied")
     /\ paths out = ["downloads/kit-v1.2.0/tool_linux.tar.gz";
                     "downloads/kit-v1.2.0/tool_darwin.tar.gz"].
Proof.
  repeat split; try reflexivity; try discriminate.
Qed.

(** * Further properties *)

(** ** The returns of the call *)

Section Returns.

Variable env : Env.
Variable d : Downloader.

(** A file at the path makes [os.MkdirAll] fail, and nothing is made. *)
Lemma handle_MkdirAll_file path w c :
  fs w !! path = Some (File c) ->
  handle env (MkdirAll path) w
  = (Some ("mkdir " +:+ path +:+ ": not a directory"), record w (EvMkdirAll path)).
Proof.
  intros Hc. cbn [handle].
  change (mkdirAll env w (path :: rev (parents path)) (fs w))
    with (match fs w !! path with
          | Some Dir => (None, fs w)
          | Some (File _) => (Some ("mkdir " +:+ path +:+ ": not a directory"), fs w)
          | None =>
              match mkdirAll env w (rev (parents path)) (fs w) with
              | (Some e, f1) => (Some e, f1)
              | (None, f1) =>
                  match MkdirAll_err env w path with
                  | Some e => (Some e, f1)
                  | None => (None, <[path := Dir]> f1)
                  end
              end
          end).
  rewrite Hc. reflexivity.
Qed.

Lemma handle_MkdirAll_ok path w :
  (handle env (MkdirAll path) w).1 = None ->
  let w1 := (handle env (MkdirAll path) w).2 in
  trace w1 = trace w ++ [EvMkdirAll path]
  /\ binPaths w1 = binPaths w /\ stdout w1 = stdout w
  /\ fs w1 !! path = Some Dir
  /\ (forall q, q <> path -> ~ In q (parents path) -> fs w1 !! q = fs w !! q).
Proof.
  pose proof (handle_MkdirAll_cases env path w) as Hc.
  pose proof (handle_MkdirAll_fs env path w) as Hf.
  destruct (handle env (MkdirAll path) w) as [r w1]. cbn [fst snd].
  intros ->. destruct Hc as (Ht & Hb & _ & Hs). destruct Hf as (Hfs & Hdir & _).
  repeat split; auto.
  intros q Hq Hn. destruct (Hfs q) as [H|(_ & _ & [H|H])]; [exact H| |];
    [congruence|contradiction].
Qed.

Lemma schedule_nil sched w : schedule env sched [] w = ([], w).
Proof. induction sched as [|i sched IH]; [reflexivity|exact IH]. Qed.

Lemma schedule_extends sched pool w : extends w (schedule env sched pool w).2.
Proof.
  revert pool w. induction sched as [|i sched IH]; intros pool w;
    [apply extends_refl|].
  cbn [schedule]. pose proof (step_at_extends env i pool w) as Hs.
  destruct (step_at env i pool w) as [pool1 w1].
  eapply extends_trans; [exact Hs|apply IH].
Qed.

Lemma wg_Wait_extends sched pool w : extends w (wg_Wait env sched pool w).2.
Proof.
  unfold wg_Wait. pose proof (schedule_extends sched pool w) as Hs.
  destruct (schedule env sched pool w) as [pool1 w1].
  eapply extends_trans; [exact Hs|apply drain_extends].
Qed.

Lemma contribs_length ids pool : (length (contribs ids pool) <= length ids)%nat.
Proof.
  revert pool. induction ids as [|id ids IH]; intros [|p pool]; cbn; try lia.
  rewrite length_app. specialize (IH pool).
  destruct p as [[e|]|X e k]; cbn; lia.
Qed.

Lemma failures_length ids results :
  (length (failures ids results) <= length ids)%nat.
Proof.
  revert results. induction ids as [|id ids IH]; intros [|res results]; cbn; try lia.
  rewrite length_app. specialize (IH results). destruct res; cbn; lia.
Qed.

End Returns.

(** X1: when the root directory cannot be made the call returns at once,
    whatever the identifiers are: the paths are [nil], the error carries
    the cause, no goroutine is started, and the attempt is all that
    happened to the world.  A file at the place of the root directory is
    such a failure, with the message of [os.MkdirAll], and then nothing is
    made. *)
Theorem DownloadLatestReleases_root_failure env d userRepos sched w :
  let out := DownloadLatestReleases env d userRepos sched w in
  (forall e,
      (handle env (MkdirAll (destDir d)) w).1 = Some e ->
      paths out = []
      /\ err out = Some ("failed to create destination directory: " +:+ e)
      /\ tasks out = []
      /\ world out = (handle env (MkdirAll (destDir d)) w).2
      /\ trace (world out) = trace w ++ [EvMkdirAll (destDir d)]
      /\ binPaths (world out) = binPaths w
      /\ errChan (world out) = errChan w
      /\ stdout (world out) = stdout w)
  /\ (forall c,
      fs w !! destDir d = Some (File c) ->
      err out = Some ("failed to create destination directory: mkdir "
                      +:+ destDir d +:+ ": not a directory")
      /\ fs (world out) = fs w).
Proof.
  intros out. subst out. unfold DownloadLatestReleases. split.
  - intros e He. pose proof (handle_MkdirAll_cases env (destDir d) w) as Hc.
    destruct (handle env (MkdirAll (destDir d)) w) as [[e'|] w1];
      cbn [fst snd] in *; [|discriminate].
    injection He as ->. cbn [paths err tasks world].
    destruct Hc as (Ht & Hb & He & Hs). repeat split; assumption.
  - intros c Hc. rewrite (handle_MkdirAll_file env _ _ _ Hc). split; reflexivity.
Qed.

Lemma DownloadLatestReleases_root_failure_witness :
  err (DownloadLatestReleases Ex.env Ex.d ["acme/tool"; "not an identifier"]
         [0; 0]%nat Cases.blocked)
  = Some "failed to create destination directory: mkdir downloads: not a directory"
  /\ fs (world (DownloadLatestReleases Ex.env Ex.d ["acme/tool"; "not an identifier"]
                  [0; 0]%nat Cases.blocked))
     = fs Cases.blocked
  /\ tasks (DownloadLatestReleases Ex.env Ex.d ["acme/tool"; "not an identifier"]
              [0; 0]%nat Cases.blocked) = [].
Proof.
  destruct (DownloadLatestReleases_root_failure Ex.env Ex.d
              ["acme/tool"; "not an identifier"] [0; 0]%nat Cases.blocked)
    as (Hfail & Hfile).
  destruct (Hfile "not a directory at all" eq_refl) as (He & Hfs).
  destruct (Hfail _ eq_refl) as (_ & _ & Ht & _).
  split; [exact He|]. split; [exact Hfs|exact Ht].
Defined.

(** X2: on the empty list the call makes the root directory and returns
    the result list as it was, with a [nil] error: no goroutine, no call
    to the API, nothing printed. *)
Theorem DownloadLatestReleases_no_repository env d sched w :
  (handle env (MkdirAll (destDir d)) w).1 = None ->
  let out := DownloadLatestReleases env d [] sched w in
  err out = None
  /\ paths out = binPaths w
  /\ tasks out = []
  /\ trace (world out) = trace w ++ [EvMkdirAll (destDir d)]
  /\ stdout (world out) = stdout w
  /\ fs (world out) !! destDir d = Some Dir.
Proof.
  intros Hm out. pose proof (handle_MkdirAll_ok env _ _ Hm) as Hok.
  subst out. unfold DownloadLatestReleases.
  destruct (handle env (MkdirAll (destDir d)) w) as [[e|] w1];
    cbn [fst snd] in *; [discriminate|].
  cbn [spawn]. unfold wg_Wait. rewrite schedule_nil. cbn.
  destruct Hok as (Ht & Hb & Hs & Hf & _). repeat split; assumption.
Qed.

Lemma DownloadLatestReleases_no_repository_witness :
  let out := DownloadLatestReleases Ex.env Ex.d [] [0; 1]%nat Ex.empty in
  err out = None
  /\ paths out = []
  /\ tasks out = []
  /\ trace (world out) = [EvMkdirAll "downloads"]
  /\ stdout (world out) = []
  /\ fs (world out) !! "downloads" = Some Dir.
Proof.
  apply (DownloadLatestReleases_no_repository Ex.env Ex.d [0; 1]%nat Ex.empty).
  reflexivity.
Defined.

(** X3: the error channel never holds more messages than there are
    goroutines, at any moment of any interleaving: each goroutine sends at
    most once, so in a channel of capacity [len(userRepos)] no send ever
    waits.  The same bound holds for the channel at the return of the
    call. *)
Theorem errChan_within_capacity env d :
  (forall ids sched w,
      errChan w = [] ->
      (length (errChan (schedule env sched
                          (map (fun id => goroutine env d id.1 id.2) ids) w).2)
       <= length ids)%nat)
  /\ (forall userRepos sched w,
      (handle env (MkdirAll (destDir d)) w).1 = None ->
      (length (errChan (world (DownloadLatestReleases env d userRepos sched w)))
       <= length userRepos)%nat).
Proof.
  assert (Hpool : forall ids sched w,
             errChan w = [] ->
             (length (errChan (schedule env sched
                                 (map (fun id => goroutine env d id.1 id.2) ids) w).2)
              <= length ids)%nat).
  { intros ids sched w Hw.
    assert (H0 : Forall2 thread_ok ids (map (fun id => goroutine env d id.1 id.2) ids)).
    { induction ids; constructor; [apply thread_ok_goroutine|assumption]. }
    pose proof (schedule_inv env sched ids _ w H0) as Hs.
    destruct (schedule env sched _ w) as [pool1 w1].
    destruct Hs as (_ & new & Hc & Hp). cbn [snd].
    rewrite contribs_goroutines in Hp. cbn [app] in Hp.
    rewrite Hc, Hw. cbn [app]. rewrite <- Hp. apply contribs_length. }
  split; [exact Hpool|].
  intros userRepos sched w Hm. unfold DownloadLatestReleases.
  destruct (handle env (MkdirAll (destDir d)) w) as [[e|] w1]; [discriminate|].
  destruct (all_or_first_malformed userRepos) as [Hall|Hex].
  - rewrite (spawn_ok env d userRepos [] Hall). cbn [app].
    pose proof (wg_Wait_inv env d sched (parsed userRepos) (with_errChan w1 []) eq_refl)
      as Hw.
    destruct (wg_Wait env sched _ (with_errChan w1 [])) as [results w3].
    destruct Hw as (_ & Hperm).
    assert (Hle : (length (errChan w3) <= length userRepos)%nat).
    { rewrite Hperm, <- (parsed_length userRepos Hall). apply failures_length. }
    destruct (0 <? length (errChan w3))%nat; exact Hle.
  - destruct (first_malformed userRepos Hex) as (before & bad & after & -> & Hb & Hbad).
    rewrite (spawn_bad env d before bad after [] Hb Hbad). cbn [app].
    specialize (Hpool (parsed before) sched (with_errChan w1 []) eq_refl).
    destruct (schedule env sched _ (with_errChan w1 [])) as [pool1 w3].
    cbn [world snd] in *. rewrite parsed_length in Hpool by exact Hb.
    rewrite length_app. lia.
Qed.

Lemma errChan_within_capacity_witness :
  (length (errChan (schedule Ex.env [1; 1; 0; 1]%nat
                      (map (fun id => goroutine Ex.env Ex.d id.1 id.2)
                         [("acme", "tool"); ("acme", "drafty")]) Ex.empty).2)
   <= 2)%nat.
Proof.
  apply (proj1 (errChan_within_capacity Ex.env Ex.d)
           [("acme", "tool"); ("acme", "drafty")] [1; 1; 0; 1]%nat Ex.empty).
  reflexivity.
Defined.

Lemma DownloadLatestReleases_extends env d userRepos sched w :
  (handle env (MkdirAll (destDir d)) w).1 = None ->
  Forall (fun s => malformed s = false) userRepos ->
  let out := DownloadLatestReleases env d userRepos sched w in
  paths out = binPaths (world out) /\ extends w (world out).
Proof.
  intros Hm Hall out. subst out. unfold DownloadLatestReleases.
  pose proof (handle_extends env (MkdirAll (destDir d)) w) as Hh.
  destruct (handle env (MkdirAll (destDir d)) w) as [[e|] w1];
    cbn [fst snd] in *; [discriminate|].
  rewrite (spawn_ok env d userRepos [] Hall). cbn [app].
  pose proof (wg_Wait_extends env sched
                (map (fun id => goroutine env d id.1 id.2) (parsed userRepos))
                (with_errChan w1 [])) as Hw.
  destruct (wg_Wait env sched _ (with_errChan w1 [])) as [results w3].
  cbn [snd] in Hw.
  assert (Hext : extends w w3).
  { eapply extends_trans; [exact Hh|]. exact Hw. }
  destruct (0 <? length (errChan w3))%nat; cbn; auto.
Qed.

(** X4: the result list is never reset.  A call that reaches the barrier
    returns the paths the downloader held before, followed by the new
    ones; so a second call on the same downloader returns the paths of the
    first call again, as a prefix of its own. *)
Theorem results_accumulate env d repos1 sched1 repos2 sched2 w :
  let out1 := DownloadLatestReleases env d repos1 sched1 w in
  let out2 := DownloadLatestReleases env d repos2 sched2 (world out1) in
  (handle env (MkdirAll (destDir d)) w).1 = None ->
  Forall (fun s => malformed s = false) repos1 ->
  (handle env (MkdirAll (destDir d)) (world out1)).1 = None ->
  Forall (fun s => malformed s = false) repos2 ->
  (exists l, paths out1 = binPaths w ++ l)
  /\ (exists l, paths out2 = paths out1 ++ l).
Proof.
  intros out1 out2 Hm1 Hall1 Hm2 Hall2.
  destruct (DownloadLatestReleases_extends env d repos1 sched1 w Hm1 Hall1)
    as (Hp1 & [Hb1 _]).
  destruct (DownloadLatestReleases_extends env d repos2 sched2 (world out1) Hm2 Hall2)
    as (Hp2 & [Hb2 _]).
  fold out1 in Hp1, Hb1, Hp2, Hb2. fold out2 in Hp2, Hb2.
  split.
  - destruct Hb1 as [l Hl]. exists l. now rewrite Hp1.
  - destruct Hb2 as [l Hl]. exists l. now rewrite Hp2, Hp1.
Qed.

Lemma results_accumulate_witness :
  let out1 := DownloadLatestReleases Ex.env Ex.d ["acme/tool"] [0; 0]%nat Ex.empty in
  let out2 := DownloadLatestReleases Ex.env Ex.d ["acme/tool"] [0]%nat (world out1) in
  (exists l, paths out1 = binPaths Ex.empty ++ l)
  /\ (exists l, paths out2 = paths out1 ++ l).
Proof.
  apply (results_accumulate Ex.env Ex.d ["acme/tool"] [0; 0]%nat ["acme/tool"]
           [0]%nat Ex.empty);
    [reflexivity|repeat constructor|reflexivity|repeat constructor].
Defined.

(** The second call of the lemma above finds the files of the first and
    returns every path twice. *)
Example second_call_repeats_paths :
  let out1 := DownloadLatestReleases Ex.env Ex.d ["acme/tool"] [0; 0]%nat Ex.empty in
  let out2 := DownloadLatestReleases Ex.env Ex.d ["acme/tool"] [0]%nat (world out1) in
  paths out1 = ["downloads/tool-v1.2.0/tool_linux.tar.gz";
                "downloads/tool-v1.2.0/tool_darwin.tar.gz"]
  /\ paths out2 = paths out1 ++ paths out1
  /\ requests (trace (world out2)) = requests (trace (world out1)).
Proof. vm_compute. repeat split. Qed.

(** ** What one call of the asset fetcher does to the world *)

Ltac quiet :=
  cbn; rewrite ?app_nil_r;
  repeat match goal with
         | |- _ /\ _ => split
         | |- _ = _ => reflexivity
         | |- _ -> _ => intro
         | |- Forall _ [] => constructor
         | |- Forall _ (_ :: _) => constructor
         | H : Some _ = None |- _ => discriminate H
         | |- [] = [] \/ _ => left; reflexivity
         | |- _ \/ _ => solve [left; quiet | right; quiet]
         | |- exists _, _ => solve [eexists; quiet]
         | |- _ <> _ => assumption || discriminate
         end.

Section Effects.

Variable env : Env.
Variable d : Downloader.

Lemma requests_app tr1 tr2 : requests (tr1 ++ tr2) = requests tr1 ++ requests tr2.
Proof. unfold requests. apply omap_app. Qed.

Lemma followRedirect_effects asset path resp w r w1 :
  run env (followRedirect env asset path resp) w = (r, w1) ->
  exists new,
    trace w1 = trace w ++ new
    /\ binPaths w1 = binPaths w ++ recorded path r
    /\ errChan w1 = errChan w
    /\ ((r <> None /\ requests new = [])
        \/ (http.Header_Get resp "Location" <> ""
            /\ requests new
               = [(http.DefaultClient,
                   locationRequest (http.Header_Get resp "Location"))]))
    /\ (forall q, q <> path -> fs w1 !! q = fs w !! q)
    /\ (r = None -> is_Some (fs w1 !! path))
    /\ (Forall (fun ev => ev = EvCopy path
                          \/ exists c req, ev = EvDo c req) new).
Proof.
  unfold followRedirect.
  destruct (negb (http.StatusCode resp =? http.StatusFound)).
  { cbn [run]. intros [= <- <-]. exists []. quiet. }
  destruct (String.eqb (http.Header_Get resp "Location") "") eqn:Hloc.
  { cbn [run]. intros [= <- <-]. exists []. quiet. }
  apply String.eqb_neq in Hloc.
  unfold NewRequest.
  destruct (NewRequest_err env "GET" (http.Header_Get resp "Location")).
  { cbn [run]. intros [= <- <-]. exists []. quiet. }
  cbn [run handle].
  change (http.Header_Set _ "Accept" "application/octet-stream")
    with (locationRequest (http.Header_Get resp "Location")).
  set (req := locationRequest (http.Header_Get resp "Location")).
  destruct (RoundTrip env w http.DefaultClient req) as [e|src].
  { cbn [run]. intros [= <- <-]. exists [EvDo http.DefaultClient req]. quiet. }
  destruct (negb (http.StatusCode src =? http.StatusOK)).
  { cbn [run]. intros [= <- <-]. exists [EvDo http.DefaultClient req]. quiet. }
  rewrite writeBody_run.
  destruct (copy_outcome _ src) as [written [e|]]; cbn [fst snd];
    intros [= <- <-]; exists [EvDo http.DefaultClient req; EvCopy path];
    cbn; rewrite <- ?app_assoc, ?app_nil_r;
    (split; [reflexivity|]); (split; [reflexivity|]); (split; [reflexivity|]);
    (split; [right; auto|]);
    (split; [intros q Hq; now rewrite lookup_insert_ne|]);
    (split; [intros _; rewrite lookup_insert_eq; eauto|]);
    (constructor; [right; eauto|]); (constructor; [left; reflexivity|]);
    constructor.
Qed.

Lemma fetchAsset_effects asset url path w r w1 :
  run env (fetchAsset env d asset url path) w = (r, w1) ->
  exists new,
    trace w1 = trace w ++ EvCreate path :: new
    /\ binPaths w1 = binPaths w ++ recorded path r
    /\ errChan w1 = errChan w
    /\ ((r <> None /\ requests new = [])
        \/ (r <> None
            /\ requests new = [(http.NoRedirectClient, apiRequest (token d) url)])
        \/ exists loc,
             loc <> ""
             /\ requests new = [(http.NoRedirectClient, apiRequest (token d) url);
                                (http.DefaultClient, locationRequest loc)])
    /\ (forall q, q <> path -> fs w1 !! q = fs w !! q)
    /\ (r = None -> is_Some (fs w1 !! path))
    /\ (Forall (fun ev => ev = EvCopy path
                          \/ exists c req, ev = EvDo c req) new).
Proof.
  unfold fetchAsset. cbn [run].
  destruct (handle env (Create path) w) as [[e|] wc] eqn:Hc.
  { cbn [run]. intros [= <- <-]. exists [].
    cbn in Hc. destruct (fs w !! path) as [[c|]|];
      try destruct (Create_err env w path); try discriminate;
      inversion Hc; subst; quiet. }
  assert (Hwc : trace wc = trace w ++ [EvCreate path]
                /\ binPaths wc = binPaths w /\ errChan wc = errChan w
                /\ forall q, q <> path -> fs wc !! q = fs w !! q).
  { cbn in Hc. destruct (fs w !! path) as [[c|]|];
      try destruct (Create_err env w path); try discriminate;
      inversion Hc; subst; cbn; repeat split; auto;
      intros q Hq; now rewrite lookup_insert_ne. }
  destruct Hwc as (Htc & Hbc & Hec & Hfc).
  unfold NewRequest. destruct (NewRequest_err env "GET" url).
  { cbn [run]. intros [= <- <-]. exists []. rewrite Htc, Hbc, Hec. quiet.
    now apply Hfc. }
  rewrite fetch_first_request. cbn [run handle].
  set (req := apiRequest (token d) url).
  destruct (RoundTrip env wc http.NoRedirectClient req) as [e|resp].
  { cbn [run]. intros [= <- <-]. exists [EvDo http.NoRedirectClient req].
    cbn [trace binPaths errChan fs record]. rewrite Htc, Hbc, Hec, <- app_assoc.
    quiet. now apply Hfc. }
  intros Hrun.
  apply followRedirect_effects in Hrun
    as (new & Ht & Hb & He & Hreq & Hfs & Hok & Hev).
  cbn [trace binPaths errChan fs record] in Ht, Hb, He, Hfs.
  exists (EvDo http.NoRedirectClient req :: new).
  split; [rewrite Ht, Htc, <- !app_assoc; reflexivity|].
  split; [now rewrite Hb, Hbc|]. split; [now rewrite He, Hec|].
  split.
  { change (requests (EvDo http.NoRedirectClient req :: new))
      with ((http.NoRedirectClient, req) :: requests new).
    destruct Hreq as [(Hr & ->)|(Hloc & ->)]; [auto|]. right. right. eauto. }
  split; [intros q Hq; rewrite Hfs by exact Hq; now apply Hfc|].
  split; [exact Hok|]. constructor; [eauto|exact Hev].
Qed.

Lemma downloadAsset_effects asset versionDir forceDownload w r w1 :
  run env (downloadAsset env d asset versionDir forceDownload) w = (r, w1) ->
  let path := target env versionDir asset in
  exists new,
    trace w1 = trace w ++ new
    /\ binPaths w1 = binPaths w ++ recorded path r
    /\ errChan w1 = errChan w
    /\ (requests new = []
        \/ (r <> None
            /\ requests new
               = [(http.NoRedirectClient, apiRequest (token d) (github.GetURL asset))])
        \/ exists loc,
             loc <> ""
             /\ requests new
                = [(http.NoRedirectClient, apiRequest (token d) (github.GetURL asset));
                   (http.DefaultClient, locationRequest loc)])
    /\ (forall q, q <> path -> fs w1 !! q = fs w !! q)
    /\ (r = None -> is_Some (fs w1 !! path))
    /\ (Forall (fun ev => ev = EvStat path \/ ev = EvCreate path \/ ev = EvCopy path
                          \/ exists c req, ev = EvDo c req) new).
Proof.
  intros Hrun path. revert Hrun. unfold downloadAsset. fold (target env versionDir asset).
  fold path.
  destruct (String.eqb (github.GetURL asset) "").
  { cbn [run]. intros [= <- <-]. exists []. quiet. }
  assert (Hfetch : forall w0 pre,
             trace w0 = trace w ++ pre -> binPaths w0 = binPaths w ->
             errChan w0 = errChan w -> fs w0 = fs w -> requests pre = [] ->
             Forall (fun ev => ev = EvStat path \/ ev = EvCreate path
                               \/ ev = EvCopy path
                               \/ exists c req, ev = EvDo c req) pre ->
             run env (fetchAsset env d asset (github.GetURL asset) path) w0 = (r, w1) ->
             exists new,
               trace w1 = trace w ++ new
               /\ binPaths w1 = binPaths w ++ recorded path r
               /\ errChan w1 = errChan w
               /\ (requests new = []
                   \/ (r <> None
                       /\ requests new
                          = [(http.NoRedirectClient,
                              apiRequest (token d) (github.GetURL asset))])
                   \/ exists loc,
                        loc <> ""
                        /\ requests new
                           = [(http.NoRedirectClient,
                               apiRequest (token d) (github.GetURL asset));
                              (http.DefaultClient, locationRequest loc)])
               /\ (forall q, q <> path -> fs w1 !! q = fs w !! q)
               /\ (r = None -> is_Some (fs w1 !! path))
               /\ (Forall (fun ev => ev = EvStat path \/ ev = EvCreate path
                                     \/ ev = EvCopy path
                                     \/ exists c req, ev = EvDo c req) new)).
  { intros w0 pre Ht0 Hb0 He0 Hf0 Hr0 Hev0 Hrun.
    apply fetchAsset_effects in Hrun as (new & Ht & Hb & He & Hreq & Hfs & Hok & Hev).
    exists (pre ++ EvCreate path :: new).
    split; [rewrite Ht, Ht0, <- app_assoc; reflexivity|].
    split; [now rewrite Hb, Hb0|]. split; [now rewrite He, He0|].
    split; [rewrite requests_app, Hr0; destruct Hreq as [(_ & H)|H]; auto|].
    split; [intros q Hq; rewrite Hfs by exact Hq; now rewrite Hf0|].
    split; [exact Hok|].
    apply Forall_app. split; [exact Hev0|]. constructor; [auto|].
    eapply Forall_impl; [exact Hev|]. cbn. intros ev [->|H]; auto. }
  destruct forceDownload; cbn [negb].
  { apply (Hfetch w []); auto. now rewrite app_nil_r. }
  cbn [run handle].
  destruct (bool_decide (is_Some (fs w !! path))) eqn:Hst.
  - apply bool_decide_eq_true_1 in Hst. cbn [run handle]. intros [= <- <-].
    exists [EvStat path]. quiet. exact Hst.
  - apply (Hfetch (record w (EvStat path)) [EvStat path]); auto.
Qed.

End Effects.

(** X5: a file that [downloadAsset] has saved is a memo.  After a call
    that returned [nil], a call of the same downloader without force, for
    an asset of the same name in the same directory whose API URL is not
    empty, sends no request and does not touch the file system: it checks
    that the file is there, records the path once more and returns [nil].
    The URL of the second asset need not be that of the first. *)
Theorem downloadAsset_then_skipped env d asset versionDir forceDownload w w1 :
  run env (downloadAsset env d asset versionDir forceDownload) w = (None, w1) ->
  forall asset',
    github.GetName asset' = github.GetName asset ->
    github.GetURL asset' <> "" ->
    exists w2,
      run env (downloadAsset env d asset' versionDir false) w1 = (None, w2)
      /\ trace w2 = trace w1 ++ [EvStat (target env versionDir asset)]
      /\ binPaths w2 = binPaths w1 ++ [target env versionDir asset]
      /\ fs w2 = fs w1.
Proof.
  intros Hrun asset' Hname Hurl.
  destruct (downloadAsset_effects env d asset versionDir forceDownload w None w1 Hrun)
    as (new & _ & _ & _ & _ & _ & Hok & _).
  specialize (Hok eq_refl). unfold target in *.
  eexists. split.
  - apply downloadAsset_existing; [exact Hurl|]. now rewrite Hname.
  - rewrite Hname. repeat split.
Qed.

Lemma downloadAsset_then_skipped_witness :
  exists w1 w2,
    run Ex.env (downloadAsset Ex.env Ex.d Ex.linux "downloads/tool-v1.2.0" true)
      Ex.empty = (None, w1)
    /\ run Ex.env
         (downloadAsset Ex.env Ex.d
            (Ex.asset "tool_linux.tar.gz" "https://api.example/assets/77")
            "downloads/tool-v1.2.0" false) w1 = (None, w2)
    /\ trace w2 = trace w1 ++ [EvStat "downloads/tool-v1.2.0/tool_linux.tar.gz"]
    /\ binPaths w2 = binPaths w1 ++ ["downloads/tool-v1.2.0/tool_linux.tar.gz"]
    /\ fs w2 = fs w1.
Proof.
  eexists.
  destruct (downloadAsset_then_skipped Ex.env Ex.d Ex.linux "downloads/tool-v1.2.0"
              true Ex.empty _ eq_refl
              (Ex.asset "tool_linux.tar.gz" "https://api.example/assets/77")
              eq_refl ltac:(discriminate)) as (w2 & H).
  exists w2. split; [reflexivity|exact H].
Defined.

(** Without an API URL the second asset is refused before the file is
    looked for, and nothing is recorded. *)
Example same_name_without_URL_is_refused :
  let '(r1, w1) :=
    run Ex.env (downloadAsset Ex.env Ex.d Ex.linux "downloads/tool-v1.2.0" true)
      Ex.empty in
  let '(r2, w2) :=
    run Ex.env (downloadAsset Ex.env Ex.d (Ex.asset_without_URL "tool_linux.tar.gz")
                  "downloads/tool-v1.2.0" false) w1 in
  r1 = None
  /\ r2 = Some "asset 'tool_linux.tar.gz' does not have an API URL"
  /\ w2 = w1.
Proof. vm_compute. repeat split. Qed.

(** X6: [downloadAsset] adds its target path to the result list exactly
    when it returns [nil], and then once; it never removes a path and
    never sends on the error channel. *)
Theorem downloadAsset_records_success env d asset versionDir forceDownload w r w1 :
  run env (downloadAsset env d asset versionDir forceDownload) w = (r, w1) ->
  binPaths w1 = binPaths w ++ recorded (target env versionDir asset) r
  /\ (r = None <-> binPaths w1 = binPaths w ++ [target env versionDir asset])
  /\ (r <> None <-> binPaths w1 = binPaths w)
  /\ errChan w1 = errChan w.
Proof.
  intros Hrun.
  destruct (downloadAsset_effects env d asset versionDir forceDownload w r w1 Hrun)
    as (new & _ & Hb & He & _).
  split; [exact Hb|]. split; [|split; [|exact He]]; rewrite Hb.
  - destruct r as [e|]; cbn; split; auto; try discriminate.
    rewrite app_nil_r. intros H. apply (f_equal length) in H.
    rewrite length_app in H. cbn in H. lia.
  - destruct r as [e|]; cbn; split; auto; try discriminate; try congruence.
    + now rewrite app_nil_r.
    + intros H. apply (f_equal length) in H. rewrite length_app in H. cbn in H. lia.
Qed.

Lemma downloadAsset_records_success_witness :
  exists r w1,
    run Cases.unavailable
      (downloadAsset Cases.unavailable Ex.d Ex.linux "downloads/tool-v1.2.0" false)
      Ex.empty = (r, w1)
    /\ r <> None /\ binPaths w1 = binPaths Ex.empty.
Proof.
  eexists _, _. split; [reflexivity|].
  split; [discriminate|].
  apply (proj1 (proj2 (proj2 (downloadAsset_records_success Cases.unavailable Ex.d
                                Ex.linux "downloads/tool-v1.2.0" false Ex.empty
                                _ _ eq_refl)))).
  discriminate.
Defined.

(** X7: [downloadAsset] changes the file system at its target path only,
    and its system calls are a check, a creation and a copy at that path
    and requests. *)
Theorem downloadAsset_touches_target_only env d asset versionDir forceDownload
    w r w1 :
  run env (downloadAsset env d asset versionDir forceDownload) w = (r, w1) ->
  let path := target env versionDir asset in
  (forall q, q <> path -> fs w1 !! q = fs w !! q)
  /\ exists new,
      trace w1 = trace w ++ new
      /\ Forall (fun ev => ev = EvStat path \/ ev = EvCreate path \/ ev = EvCopy path
                           \/ exists c req, ev = EvDo c req) new.
Proof.
  intros Hrun path.
  destruct (downloadAsset_effects env d asset versionDir forceDownload w r w1 Hrun)
    as (new & Ht & _ & _ & _ & Hfs & _ & Hev).
  split; [exact Hfs|]. exists new. auto.
Qed.

Lemma downloadAsset_touches_target_only_witness :
  exists r w1,
    run Ex.env (downloadAsset Ex.env Ex.d Ex.darwin "downloads/tool-v1.2.0" true)
      Ex.downloaded = (r, w1)
    /\ fs w1 !! "downloads/tool-v1.2.0/tool_linux.tar.gz" = Some (File "old").
Proof.
  eexists _, _. split; [reflexivity|].
  rewrite (proj1 (downloadAsset_touches_target_only Ex.env Ex.d Ex.darwin
                    "downloads/tool-v1.2.0" true Ex.downloaded _ _ eq_refl)
             "downloads/tool-v1.2.0/tool_linux.tar.gz" ltac:(discriminate)).
  reflexivity.
Defined.



(** ** The loop over the assets and the task of a repository *)

Section Loop.

Variable env : Env.
Variable d : Downloader.

Lemma downloadAssets_effects owner repo dir force assets w :
  let w1 := (run env (downloadAssets env d owner repo dir force assets) w).2 in
  errChan w1 = errChan w
  /\ (exists l,
        binPaths w1 = binPaths w ++ l
        /\ l `sublist_of` map (target env dir) (List.filter (passes_filter d) assets))
  /\ (forall q, Forall (fun a => q <> target env dir a) assets ->
      fs w1 !! q = fs w !! q).
Proof.
  revert w. induction assets as [|asset rest IH]; intros w.
  { cbn. split; [reflexivity|]. split; [|reflexivity].
    exists []. rewrite app_nil_r. split; [reflexivity|constructor]. }
  cbn [downloadAssets List.filter]. unfold passes_filter at 1.
  destruct (negb (String.eqb (matchFilter d) "") && _) eqn:Hskip; cbn [negb].
  - cbn [run handle].
    destruct (IH (with_stdout w (stdout w ++ [skip_line d asset])))
      as (He & (l & Hb & Hl) & Hfs).
    split; [exact He|]. split; [exists l; auto|].
    intros q Hq. apply Forall_cons in Hq as [_ Hq]. now apply Hfs.
  - rewrite run_bind.
    destruct (run env (downloadAsset env d asset dir force) w) as [r w0] eqn:Hrun.
    apply downloadAsset_effects in Hrun
      as (new & _ & Hb0 & He0 & _ & Hfs0 & _ & _).
    assert (Hrest : forall w',
               binPaths w' = binPaths w0 -> errChan w' = errChan w0 ->
               fs w' = fs w0 ->
               let w1 := (run env (downloadAssets env d owner repo dir force rest) w').2 in
               errChan w1 = errChan w
               /\ (exists l,
                     binPaths w1 = binPaths w ++ l
                     /\ l `sublist_of`
                          target env dir asset
                          :: map (target env dir) (List.filter (passes_filter d) rest))
               /\ (forall q, Forall (fun a => q <> target env dir a) (asset :: rest) ->
                   fs w1 !! q = fs w !! q)).
    { intros w' Hb' He' Hf'. destruct (IH w') as (He & (l & Hb & Hl) & Hfs).
      split; [now rewrite He, He', He0|]. split.
      - exists (recorded (target env dir asset) r ++ l).
        split; [rewrite Hb, Hb', Hb0, <- app_assoc; reflexivity|].
        destruct r as [e|]; cbn; [now apply sublist_cons|now apply sublist_skip].
      - intros q Hq. apply Forall_cons in Hq as [Hq0 Hq].
        rewrite Hfs by exact Hq. rewrite Hf'. now apply Hfs0. }
    destruct r as [e|]; [cbn [run handle]|]; now apply Hrest.
Qed.

Lemma downloadAssets_all_skipped owner repo dir force assets w :
  Forall (fun a => passes_filter d a = false) assets ->
  run env (downloadAssets env d owner repo dir force assets) w
  = (None, with_stdout w (stdout w ++ map (skip_line d) assets)).
Proof.
  revert w. induction assets as [|asset rest IH]; intros w Hall.
  { cbn. rewrite app_nil_r. now destruct w. }
  apply Forall_cons in Hall as [Hskip Hall].
  cbn [downloadAssets]. unfold passes_filter in Hskip.
  apply negb_false_iff in Hskip. rewrite Hskip. cbn [run handle].
  rewrite IH by exact Hall. cbn. now rewrite <- app_assoc.
Qed.

End Loop.

(** X9: the paths that the task of a repository adds to the result list
    are targets of assets of the latest release that pass the filter, in
    the order of the release and each at most once for its place in it;
    a task that returns an error has added none.  The task never sends
    on the error channel itself, and it changes the file system only at
    the version directory, at the parents of that directory, which
    [os.MkdirAll] makes when they are missing, and at the targets of the
    assets. *)
Theorem downloadLatestRelease_records env d owner repo w r w1 :
  run env (downloadLatestRelease env d owner repo) w = (r, w1) ->
  errChan w1 = errChan w
  /\ exists l,
      binPaths w1 = binPaths w ++ l
      /\ (r <> None -> l = [])
      /\ match LatestRelease env w owner repo with
         | inl _ => l = [] /\ fs w1 = fs w
         | inr release =>
             let dir := versionDirOf env d repo release in
             l `sublist_of`
               map (target env dir) (List.filter (passes_filter d) (github.Assets release))
             /\ forall q,
                 q <> dir ->
                 ~ In q (parents dir) ->
                 Forall (fun a => q <> target env dir a) (github.Assets release) ->
                 fs w1 !! q = fs w !! q
         end.
Proof.
  intros Hrun. pose proof (downloadLatestRelease_run env d owner repo w) as H.
  cbv zeta in H. rewrite Hrun in H.
  destruct (LatestRelease env w owner repo) as [x|release].
  { injection H as -> ->. split; [reflexivity|]. exists []. cbn.
    rewrite app_nil_r. auto. }
  destruct (github.GetDraft release || github.GetPrerelease release).
  { injection H as -> ->. split; [reflexivity|]. exists []. cbn.
    rewrite app_nil_r. repeat split; auto. apply sublist_nil_l. }
  destruct (length (github.Assets release) =? 0)%nat.
  { injection H as -> ->. split; [reflexivity|]. exists []. cbn.
    rewrite app_nil_r. repeat split; auto. apply sublist_nil_l. }
  set (dir := versionDirOf env d repo release) in *.
  set (w0 := record w (EvGetLatestRelease owner repo)) in *.
  pose proof (handle_MkdirAll_cases env dir w0) as Hm.
  pose proof (handle_MkdirAll_fs env dir w0) as Hmf.
  assert (Hfs2 : forall q, q <> dir -> ~ In q (parents dir) ->
                   fs (handle env (MkdirAll dir) w0).2 !! q = fs w !! q).
  { intros q Hq Hn. destruct (handle env (MkdirAll dir) w0) as [x w2].
    destruct Hmf as (Hfs & _). cbn [snd].
    destruct (Hfs q) as [Hsame|(_ & _ & [Hin|Hin])];
      [exact Hsame|congruence|contradiction]. }
  destruct (handle env (MkdirAll dir) w0) as [[x|] w2] eqn:Hmk; cbn [snd] in Hfs2.
  { injection H as -> ->. destruct Hm as (_ & Hb & He & _).
    split; [now rewrite He|]. exists []. rewrite app_nil_r.
    split; [now rewrite Hb|]. split; [reflexivity|]. split; [apply sublist_nil_l|].
    intros q Hq Hn _. now apply Hfs2. }
  destruct Hm as (_ & Hb & He & _).
  pose proof (downloadAssets_effects env d owner repo dir (tag_and_force release).2
                (github.Assets release) w2) as Hloop.
  pose proof (downloadAssets_run env d owner repo dir (tag_and_force release).2
                (github.Assets release) w2) as [Hnone _].
  rewrite <- H in Hloop, Hnone. cbn [fst snd] in Hloop, Hnone. subst r.
  destruct Hloop as (He1 & (l & Hb1 & Hl) & Hfs1).
  split; [now rewrite He1, He|]. exists l.
  split; [now rewrite Hb1, Hb|]. split; [now intros []|]. split; [exact Hl|].
  intros q Hq Hn Hall. rewrite Hfs1 by exact Hall. now apply Hfs2.
Qed.

Lemma downloadLatestRelease_records_witness :
  exists r w1 l,
    run Ex.env (downloadLatestRelease Ex.env Cases.only_linux "acme" "tool") Ex.empty
    = (r, w1)
    /\ binPaths w1 = binPaths Ex.empty ++ l
    /\ l `sublist_of` ["downloads/tool-v1.2.0/tool_linux.tar.gz"].
Proof.
  destruct (downloadLatestRelease_records Ex.env Cases.only_linux "acme" "tool"
              Ex.empty _ _ eq_refl) as (_ & l & Hb & _ & Hl & _).
  eexists _, _, l. split; [reflexivity|]. split; [exact Hb|exact Hl].
Defined.

(** X10: a filter that no asset of the release matches makes the task of
    the repository succeed with nothing downloaded: the version directory
    is made, with the parents it lacks, a line is printed for each asset,
    no request is sent, no path is added to the result list, and the
    caller sees no error. *)
Theorem filter_matching_nothing env d owner repo w release :
  LatestRelease env w owner repo = inr release ->
  github.GetDraft release || github.GetPrerelease release = false ->
  github.Assets release <> [] ->
  Forall (fun a => passes_filter d a = false) (github.Assets release) ->
  let dir := versionDirOf env d repo release in
  (handle env (MkdirAll dir) (record w (EvGetLatestRelease owner repo))).1 = None ->
  exists w1,
    run env (downloadLatestRelease env d owner repo) w = (None, w1)
    /\ trace w1 = trace w ++ [EvGetLatestRelease owner repo; EvMkdirAll dir]
    /\ stdout w1 = stdout w ++ map (skip_line d) (github.Assets release)
    /\ binPaths w1 = binPaths w
    /\ errChan w1 = errChan w
    /\ fs w1 !! dir = Some Dir
    /\ forall q, q <> dir -> ~ In q (parents dir) -> fs w1 !! q = fs w !! q.
Proof.
  intros Hrel Hdraft Hassets Hall dir Hmk.
  pose proof (downloadLatestRelease_run env d owner repo w) as H.
  cbv zeta in H. rewrite Hrel, Hdraft in H.
  destruct (github.Assets release) as [|a rest] eqn:Has; [contradiction|].
  cbn [length Nat.eqb] in H. fold dir in H.
  set (w0 := record w (EvGetLatestRelease owner repo)) in *.
  pose proof (handle_MkdirAll_ok env dir w0 Hmk) as (Ht & Hb & Hs & Hd & Hfs).
  pose proof (handle_MkdirAll_cases env dir w0) as Hm.
  destruct (handle env (MkdirAll dir) w0) as [[x|] w2]; [discriminate Hmk|].
  destruct Hm as (_ & _ & He & _). cbn [fst snd] in *.
  rewrite downloadAssets_all_skipped in H by exact Hall.
  eexists. split; [exact H|]. cbn [trace stdout binPaths errChan fs with_stdout].
  split; [rewrite Ht; unfold w0; cbn; now rewrite <- app_assoc|].
  split; [now rewrite Hs|]. split; [exact Hb|]. split; [exact He|].
  split; [exact Hd|]. intros q Hq Hn. now rewrite Hfs.
Qed.

Lemma filter_matching_nothing_witness :
  exists w1,
    run Ex.env (downloadLatestRelease Ex.env Cases.windows "acme" "tool") Ex.empty
    = (None, w1)
    /\ trace w1 = [EvGetLatestRelease "acme" "tool"; EvMkdirAll "downloads/tool-v1.2.0"]
    /\ binPaths w1 = [].
Proof.
  destruct (filter_matching_nothing Ex.env Cases.windows "acme" "tool" Ex.empty
              (Ex.release (Some "v1.2.0") [Ex.linux; Ex.darwin])
              eq_refl eq_refl ltac:(discriminate)
              ltac:(repeat constructor) eq_refl)
    as (w1 & Hrun & Ht & _ & Hb & _).
  exists w1. split; [exact Hrun|]. split; [exact Ht|exact Hb].
Defined.

(** A tag with a [/] puts the version directory two levels under the
    root; [os.MkdirAll] makes the root and the level between, which were
    missing. *)
Example tag_with_slash_makes_parents :
  let '(r, w1) :=
    run Cases.slashed (downloadLatestRelease Cases.slashed Ex.d "acme" "tool")
      Ex.empty in
  r = None
  /\ fs w1 !! "downloads" = Some Dir
  /\ fs w1 !! "downloads/tool-release" = Some Dir
  /\ fs w1 !! "downloads/tool-release/1.0" = Some Dir
  /\ fs w1 !! "downloads/tool-release/1.0/tool_linux.tar.gz" = Some (File "B")
  /\ binPaths w1 = ["downloads/tool-release/1.0/tool_linux.tar.gz"].
Proof. vm_compute. repeat split. Qed.

(** ** The calls to the API *)

Section ApiCalls.

Variable env : Env.
Variable d : Downloader.

Lemma api_calls_app tr1 tr2 : api_calls (tr1 ++ tr2) = api_calls tr1 ++ api_calls tr2.
Proof. unfold api_calls. apply omap_app. Qed.

Lemma no_api_bind {A B} (m : prog A) (f : A -> prog B) :
  no_api m -> (forall a, no_api (f a)) -> no_api (bind m f).
Proof.
  induction m as [a|X e k IH]; simpl; intros Hm Hf; [apply Hf|].
  destruct Hm as [He Hk]. split; [exact He|]. intros x. apply IH; auto.
Qed.

Create HintDb noapi.

Ltac no_api_tac :=
  repeat first
    [ exact I
    | solve [auto with noapi]
    | progress cbn [no_api]
    | split
    | intro
    | match goal with
      | |- no_api (match ?x with _ => _ end) => destruct x
      end ].

Lemma no_api_writeBody asset path src : no_api (writeBody asset path src).
Proof. unfold writeBody. no_api_tac. Qed.
Hint Resolve no_api_writeBody : noapi.

Lemma no_api_followRedirect asset path resp :
  no_api (followRedirect env asset path resp).
Proof. unfold followRedirect. no_api_tac. Qed.
Hint Resolve no_api_followRedirect : noapi.

Lemma no_api_fetchAsset asset url path : no_api (fetchAsset env d asset url path).
Proof. unfold fetchAsset. no_api_tac. Qed.
Hint Resolve no_api_fetchAsset : noapi.

Lemma no_api_downloadAsset asset dir force :
  no_api (downloadAsset env d asset dir force).
Proof. unfold downloadAsset. no_api_tac. Qed.
Hint Resolve no_api_downloadAsset : noapi.

Lemma no_api_downloadAssets owner repo dir force assets :
  no_api (downloadAssets env d owner repo dir force assets).
Proof.
  induction assets as [|asset rest IH]; cbn [downloadAssets]; [exact I|].
  destruct (_ && _); [no_api_tac; exact IH|].
  apply no_api_bind; [apply no_api_downloadAsset|].
  intros [e|]; no_api_tac; exact IH.
Qed.
Hint Resolve no_api_downloadAssets : noapi.

Lemma no_api_reporter id res : no_api (reporter id res).
Proof. destruct res; cbn; auto. Qed.

(** A goroutine asks the API first, and never again. *)
Lemma goroutine_asks_first owner repo :
  exists k, goroutine env d owner repo = Vis (GetLatestRelease owner repo) k
            /\ forall x, no_api (k x).
Proof.
  eexists. split; [reflexivity|]. intros x. cbn beta.
  apply no_api_bind; [|intros res; apply (no_api_reporter (owner, repo))].
  unfold downloadInto. no_api_tac.
Qed.

Lemma thread_api_goroutine id : thread_api env d id (goroutine env d id.1 id.2).
Proof. now left. Qed.

(** A call other than the one to the API adds no API call to the trace. *)
Lemma handle_api {X} (e : Sys X) w :
  match e with GetLatestRelease _ _ => False | _ => True end ->
  api_calls (trace (handle env e w).2) = api_calls (trace w).
Proof.
  destruct e; cbn; intros H; try reflexivity; try contradiction.
  - destruct (mkdirAll env w _ (fs w)). cbn. now rewrite api_calls_app, app_nil_r.
  - now rewrite api_calls_app, app_nil_r.
  - destruct (fs w !! path) as [[c|]|];
      destruct (Create_err env w path); cbn; now rewrite api_calls_app, app_nil_r.
  - now rewrite api_calls_app, app_nil_r.
  - destruct (copy_outcome (Write_err env w path) src). cbn.
    now rewrite api_calls_app, app_nil_r.
Qed.

Lemma run_no_api {A} (m : prog A) w :
  no_api m -> api_calls (trace (run env m w).2) = api_calls (trace w).
Proof.
  revert w. induction m as [a|X e k IH]; intros w Hm; [reflexivity|].
  destruct Hm as [He Hk]. cbn [run].
  pose proof (handle_api e w He) as Hh.
  destruct (handle env e w) as [x w1]. cbn [snd] in Hh.
  rewrite IH by apply Hk. exact Hh.
Qed.

Lemma asked_no_api id p : no_api p -> asked id p = [id].
Proof. destruct p as [a|X e k]; [reflexivity|]. intros [He _]. now destruct e. Qed.

Lemma all_asked_goroutines ids :
  all_asked ids (map (fun id => goroutine env d id.1 id.2) ids) = [].
Proof. induction ids as [|id ids IH]; [reflexivity|]. cbn. exact IH. Qed.

Lemma step_at_api ids pool w i :
  Forall2 (thread_api env d) ids pool ->
  let '(pool1, w1) := step_at env i pool w in
  Forall2 (thread_api env d) ids pool1
  /\ exists new, api_calls (trace w1) = api_calls (trace w) ++ new
                 /\ all_asked ids pool1 ≡ₚ all_asked ids pool ++ new.
Proof.
  intros H. revert i. induction H as [|id p ids pool Hp Hrest IH]; intros i.
  { unfold step_at. rewrite lookup_nil. split; [constructor|].
    exists []. now rewrite !app_nil_r. }
  destruct i as [|i].
  - unfold step_at. cbn [lookup list_lookup].
    destruct Hp as [->|Hp].
    + destruct (goroutine_asks_first id.1 id.2) as (k & -> & Hk).
      cbn [handle insert list_insert]. split.
      { constructor; [right; apply Hk|exact Hrest]. }
      exists [id]. split.
      * cbn [trace record]. rewrite api_calls_app. cbn. now destruct id.
      * cbn [all_asked asked]. rewrite (asked_no_api id _ (Hk _)). cbn.
        apply Permutation_cons_append.
    + destruct p as [a|X e k].
      { split; [constructor; [now right|exact Hrest]|].
        exists []. now rewrite !app_nil_r. }
      destruct Hp as [He Hk].
      pose proof (handle_api e w He) as Hh.
      destruct (handle env e w) as [x w1]. cbn [snd] in Hh.
      cbn [insert list_insert]. split.
      { constructor; [right; apply Hk|exact Hrest]. }
      exists []. rewrite !app_nil_r. split; [exact Hh|].
      cbn [all_asked]. rewrite (asked_no_api id (k x) (Hk x)).
      now rewrite (asked_no_api id (Vis e k) (conj He Hk)).
  - rewrite step_at_cons. specialize (IH i).
    destruct (step_at env i pool w) as [pool1 w1].
    destruct IH as (Hok & new & Hch & Hperm).
    split; [constructor; assumption|].
    exists new. split; [exact Hch|].
    cbn [all_asked]. rewrite Hperm, app_assoc. reflexivity.
Qed.

Lemma schedule_api sched ids pool w :
  Forall2 (thread_api env d) ids pool ->
  let '(pool1, w1) := schedule env sched pool w in
  Forall2 (thread_api env d) ids pool1
  /\ exists new, api_calls (trace w1) = api_calls (trace w) ++ new
                 /\ all_asked ids pool1 ≡ₚ all_asked ids pool ++ new.
Proof.
  revert pool w. induction sched as [|i sched IH]; intros pool w H.
  { cbn. split; [exact H|]. exists []. now rewrite !app_nil_r. }
  cbn [schedule]. pose proof (step_at_api ids pool w i H) as Hs.
  destruct (step_at env i pool w) as [pool1 w1].
  destruct Hs as (H1 & new1 & Hc1 & Hp1).
  specialize (IH pool1 w1 H1).
  destruct (schedule env sched pool1 w1) as [pool2 w2].
  destruct IH as (H2 & new2 & Hc2 & Hp2).
  split; [exact H2|]. exists (new1 ++ new2).
  rewrite Hc2, Hc1, Hp2, Hp1, !app_assoc. split; reflexivity.
Qed.

Lemma run_thread_api id p w :
  thread_api env d id p ->
  exists new, api_calls (trace (run env p w).2) = api_calls (trace w) ++ new
              /\ asked id p ++ new = [id].
Proof.
  intros [->|Hp].
  - destruct (goroutine_asks_first id.1 id.2) as (k & -> & Hk).
    cbn [run handle]. rewrite run_no_api by apply Hk.
    exists [id]. cbn [trace record]. rewrite api_calls_app. cbn. now destruct id.
  - exists []. rewrite run_no_api by exact Hp.
    now rewrite (asked_no_api id p Hp), !app_nil_r.
Qed.

Lemma drain_api ids pool w :
  Forall2 (thread_api env d) ids pool ->
  exists new, api_calls (trace (drain env pool w).2) = api_calls (trace w) ++ new
              /\ all_asked ids pool ++ new ≡ₚ ids.
Proof.
  intros H. revert w. induction H as [|id p ids pool Hp Hrest IH]; intros w.
  { cbn. exists []. split; [now rewrite app_nil_r|reflexivity]. }
  cbn [drain]. destruct (run_thread_api id p w Hp) as (new1 & Hc1 & Hf1).
  destruct (run env p w) as [res w1]. cbn [snd] in Hc1.
  specialize (IH w1). destruct (drain env pool w1) as [results w2].
  destruct IH as (new2 & Hc2 & Hp2). cbn [snd] in *.
  exists (new1 ++ new2). split; [rewrite Hc2, Hc1, app_assoc; reflexivity|].
  cbn [all_asked]. change (id :: ids) with ([id] ++ ids).
  rewrite <- Hf1. etransitivity; [|apply Permutation_app_head; exact Hp2].
  rewrite <- !app_assoc. apply Permutation_app_head.
  rewrite !app_assoc. apply Permutation_app_tail. apply Permutation_app_comm.
Qed.

Lemma all_asked_submseteq ids pool : all_asked ids pool ⊆+ ids.
Proof.
  revert pool. induction ids as [|id ids IH]; intros [|p pool]; cbn;
    try apply submseteq_nil_l.
  change (id :: ids) with ([id] ++ ids). apply submseteq_app; [|apply IH].
  destruct p as [a|X e k]; cbn; [reflexivity|].
  destruct e; cbn; try reflexivity. apply submseteq_nil_l.
Qed.

Lemma parsed_app l1 l2 : parsed (l1 ++ l2) = parsed l1 ++ parsed l2.
Proof. unfold parsed. apply omap_app. Qed.

End ApiCalls.

(** X11: the latest release of a repository is asked for at most once in
    a call, whatever the scheduler does: the API calls of the call are, in
    some order, those for a part of the identifiers that parse; when the
    root directory is made and every identifier parses they are those for
    all of them, one call for each occurrence in the list.  When the root
    directory cannot be made the API is not called. *)
Theorem latest_release_asked_once env d userRepos sched w :
  let out := DownloadLatestReleases env d userRepos sched w in
  exists asked_ids,
    api_calls (trace (world out)) ≡ₚ api_calls (trace w) ++ asked_ids
    /\ asked_ids ⊆+ parsed userRepos
    /\ ((handle env (MkdirAll (destDir d)) w).1 <> None -> asked_ids = [])
    /\ ((handle env (MkdirAll (destDir d)) w).1 = None ->
        Forall (fun s => malformed s = false) userRepos ->
        asked_ids ≡ₚ parsed userRepos).
Proof.
  unfold DownloadLatestReleases.
  pose proof (handle_api env (MkdirAll (destDir d)) w I) as Hm.
  destruct (handle env (MkdirAll (destDir d)) w) as [[e|] w1]; cbn [fst snd] in *.
  { exists []. cbn [world]. rewrite Hm, app_nil_r.
    repeat split; auto using submseteq_nil_l. now intros [=]. }
  assert (H0 : forall ids,
             Forall2 (thread_api env d) ids
               (map (fun id => goroutine env d id.1 id.2) ids)).
  { induction ids; constructor; [apply thread_api_goroutine|assumption]. }
  destruct (all_or_first_malformed userRepos) as [Hall|Hbad].
  - rewrite (spawn_ok env d userRepos [] Hall). cbn [app]. unfold wg_Wait.
    pose proof (schedule_api env d sched (parsed userRepos) _ (with_errChan w1 [])
                  (H0 _)) as Hs.
    destruct (schedule env sched _ (with_errChan w1 [])) as [pool1 w2].
    destruct Hs as (H1 & new1 & Hc1 & Hp1).
    destruct (drain_api env d (parsed userRepos) pool1 w2 H1) as (new2 & Hc2 & Hp2).
    destruct (drain env pool1 w2) as [results w3]. cbn [snd] in Hc2.
    rewrite all_asked_goroutines in Hp1. cbn [app] in Hp1.
    assert (Hperm : new1 ++ new2 ≡ₚ parsed userRepos).
    { now rewrite <- Hp1. }
    exists (new1 ++ new2).
    assert (Htr : api_calls (trace w3) ≡ₚ api_calls (trace w) ++ new1 ++ new2).
    { rewrite Hc2, Hc1. cbn [trace with_errChan]. rewrite Hm, app_assoc.
      reflexivity. }
    destruct (0 <? length (errChan w3))%nat; cbn [world];
      (split; [exact Htr|]); (split; [now rewrite Hperm|]);
      (split; [now intros []|auto]).
  - destruct (first_malformed userRepos Hbad) as (before & bad & after & -> & Hb & Hx).
    rewrite (spawn_bad env d before bad after [] Hb Hx). cbn [app].
    pose proof (schedule_api env d sched (parsed before) _ (with_errChan w1 [])
                  (H0 _)) as Hs.
    destruct (schedule env sched _ (with_errChan w1 [])) as [pool1 w2].
    destruct Hs as (H1 & new1 & Hc1 & Hp1).
    rewrite all_asked_goroutines in Hp1. cbn [app] in Hp1.
    exists new1. cbn [world]. split.
    { rewrite Hc1. cbn [trace with_errChan]. now rewrite Hm. }
    split.
    { rewrite <- Hp1, parsed_app. etransitivity; [apply all_asked_submseteq|].
      apply submseteq_inserts_r. reflexivity. }
    split; [now intros []|]. intros _ Hall. exfalso.
    apply Forall_app in Hall as [_ Hall]. apply Forall_cons in Hall as [Hall _].
    congruence.
Qed.

Lemma latest_release_asked_once_witness :
  exists asked_ids,
    api_calls (trace (world (DownloadLatestReleases Ex.env Ex.d
                               ["acme/tool"; "acme/drafty"; "acme/tool"]
                               [2; 0; 2; 1; 0]%nat Ex.empty)))
    ≡ₚ api_calls (trace Ex.empty) ++ asked_ids
    /\ asked_ids ≡ₚ [("acme", "tool"); ("acme", "drafty"); ("acme", "tool")].
Proof.
  destruct (latest_release_asked_once Ex.env Ex.d
              ["acme/tool"; "acme/drafty"; "acme/tool"] [2; 0; 2; 1; 0]%nat Ex.empty)
    as (asked_ids & Htr & _ & _ & Hall).
  exists asked_ids. split; [exact Htr|].
  apply Hall; [reflexivity|repeat constructor].
Defined.

(** ** The filter *)

Section Filter.

Lemma prefix_iff sub s :
  String.prefix sub s = true <-> exists post, s = sub +:+ post.
Proof.
  revert s. induction sub as [|a sub IH]; intros s.
  { split; [intros _; now exists s|intros _; now destruct s]. }
  destruct s as [|b s]; cbn; [split; [discriminate|intros (post & [=])]|].
  destruct (ascii_dec a b) as [->|Hne].
  - rewrite IH. split; intros (post & H); exists post; [now rewrite H|].
    now injection H.
  - split; [discriminate|]. intros (post & [= H _]). now destruct Hne.
Qed.

(** [strings.Contains] holds of the strings that have the other one as a
    part. *)
Lemma Contains_iff s sub :
  GoStrings.Contains s sub = true <-> exists pre post, s = pre +:+ sub +:+ post.
Proof.
  induction s as [|c s IH].
  - cbn [GoStrings.Contains]. rewrite orb_false_r, prefix_iff. split.
    + intros (post & H). now exists "", post.
    + intros ([|c pre] & post & H); [now exists post|discriminate].
  - cbn [GoStrings.Contains]. rewrite orb_true_iff, prefix_iff, IH. split.
    + intros [(post & H)|(pre & post & H)].
      * now exists "", post.
      * exists (String c pre), post. cbn. now rewrite H.
    + intros ([|c' pre] & post & H).
      * left. now exists post.
      * right. exists pre, post. cbn in H. now injection H.
Qed.

Lemma passes_filter_iff d asset :
  passes_filter d asset = true
  <-> matchFilter d = ""
      \/ exists pre post, github.GetName asset = pre +:+ matchFilter d +:+ post.
Proof.
  unfold passes_filter. rewrite <- Contains_iff.
  destruct (String.eqb_spec (matchFilter d) "") as [->|Hne]; cbn.
  - split; auto.
  - rewrite negb_involutive. split; [auto|]. now intros [|].
Qed.

End Filter.

(** X12: the filter is a test for a part of the name.  The loop of
    [downloadLatestRelease] hands an asset to [downloadAsset] exactly
    when the filter is empty or occurs in the name of the asset, byte for
    byte; otherwise it prints a line and goes on, and the asset is
    neither asked for nor recorded. *)
Theorem filter_is_substring env d owner repo dir force asset rest w :
  let matches :=
    matchFilter d = ""
    \/ exists pre post, github.GetName asset = pre +:+ matchFilter d +:+ post in
  (matches ->
   run env (downloadAssets env d owner repo dir force (asset :: rest)) w
   = let '(r, w0) := run env (downloadAsset env d asset dir force) w in
     run env (downloadAssets env d owner repo dir force rest)
       match r with
       | Some e => with_stdout w0 (stdout w0 ++ [warning owner repo asset e])
       | None => w0
       end)
  /\ (~ matches ->
      run env (downloadAssets env d owner repo dir force (asset :: rest)) w
      = run env (downloadAssets env d owner repo dir force rest)
          (with_stdout w (stdout w ++ [skip_line d asset]))).
Proof.
  intros matches. pose proof (passes_filter_iff d asset) as Hiff. fold matches in Hiff.
  cbn [downloadAssets]. unfold passes_filter in Hiff.
  destruct (negb (String.eqb (matchFilter d) "") && _); cbn [negb] in Hiff.
  - split; [|reflexivity]. intros Hm. apply Hiff in Hm. discriminate.
  - split; [|intros Hn; destruct Hn; now apply Hiff]. intros _.
    rewrite run_bind.
    destruct (run env (downloadAsset env d asset dir force) w) as [[e|] w0];
      reflexivity.
Qed.

Lemma filter_is_substring_witness :
  run Ex.env (downloadAssets Ex.env Cases.only_linux "acme" "tool"
                "downloads/tool-v1.2.0" false [Ex.linux]) Ex.empty
  = let '(r, w0) := run Ex.env (downloadAsset Ex.env Cases.only_linux Ex.linux
                                  "downloads/tool-v1.2.0" false) Ex.empty in
    run Ex.env (downloadAssets Ex.env Cases.only_linux "acme" "tool"
                  "downloads/tool-v1.2.0" false [])
      match r with
      | Some e => with_stdout w0 (stdout w0 ++ [warning "acme" "tool" Ex.linux e])
      | None => w0
      end.
Proof.
  apply (proj1 (filter_is_substring Ex.env Cases.only_linux "acme" "tool"
                  "downloads/tool-v1.2.0" false Ex.linux [] Ex.empty)).
  right. exists "tool_", ".tar.gz". reflexivity.
Defined.

(** X13: the token of the requests.  For a downloader made by [New] and
    [SetMatchFilter], the request to the API carries the token given to
    [New], or, when that is empty, the value of [GITHUB_TOKEN]; when both
    are empty it carries no [Authorization] header.  The filter does not
    change the token, and no other request carries one. *)
Theorem New_token_in_requests getenv tok dest filter env asset dir force w r w1 :
  let d := SetMatchFilter (New getenv tok dest) filter in
  run env (downloadAsset env d asset dir force) w = (r, w1) ->
  exists new,
    trace w1 = trace w ++ new
    /\ forall c req,
        In (c, req) (requests new) ->
        http.Header req !! "Authorization"
        = match c with
          | http.NoRedirectClient =>
              if negb (String.eqb tok "") then Some ("token " +:+ tok)
              else if negb (String.eqb (getenv "GITHUB_TOKEN") "")
                   then Some ("token " +:+ getenv "GITHUB_TOKEN")
                   else None
          | http.DefaultClient => None
          end.
Proof.
  intros d Hrun.
  destruct (downloadAsset_effects env d asset dir force w r w1 Hrun)
    as (new & Ht & _ & _ & Hreq & _).
  exists new. split; [exact Ht|].
  assert (Hapi : http.Header (apiRequest (token d) (github.GetURL asset))
                 !! "Authorization"
                 = if negb (String.eqb tok "") then Some ("token " +:+ tok)
                   else if negb (String.eqb (getenv "GITHUB_TOKEN") "")
                        then Some ("token " +:+ getenv "GITHUB_TOKEN")
                        else None).
  { unfold apiRequest, d, SetMatchFilter, New. cbn [http.Header token].
    rewrite lookup_insert_ne by discriminate.
    destruct (String.eqb tok "") eqn:Htok; cbn [negb].
    - destruct (String.eqb (getenv "GITHUB_TOKEN") ""); cbn [negb];
        [apply lookup_empty|apply lookup_singleton_eq].
    - rewrite Htok. apply lookup_singleton_eq. }
  intros c req Hin.
  destruct Hreq as [Hr|[(_ & Hr)|(loc & _ & Hr)]]; rewrite Hr in Hin.
  - destruct Hin.
  - destruct Hin as [Hin|[]]. inversion Hin; subst. exact Hapi.
  - destruct Hin as [Hin|[Hin|[]]]; inversion Hin; subst; [exact Hapi|reflexivity].
Qed.

Lemma New_token_in_requests_witness :
  exists r w1 new,
    run Ex.env
      (downloadAsset Ex.env
         (SetMatchFilter (New (fun _ => "from-the-environment") "" "downloads") "linux")
         Ex.linux "downloads/tool-v1.2.0" true) Ex.empty = (r, w1)
    /\ trace w1 = trace Ex.empty ++ new
    /\ forall c req,
        In (c, req) (requests new) ->
        http.Header req !! "Authorization"
        = match c with
          | http.NoRedirectClient => Some "token from-the-environment"
          | http.DefaultClient => None
          end.
Proof.
  destruct (New_token_in_requests (fun _ => "from-the-environment") "" "downloads"
              "linux" Ex.env Ex.linux "downloads/tool-v1.2.0" true Ex.empty _ _ eq_refl)
    as (new & Ht & H).
  eexists _, _, new. split; [reflexivity|]. split; [exact Ht|exact H].
Defined.

(** ** The command line *)

Section CommandLine.

Variable env : Env.

Lemma map_Ret_inj (l1 l2 : list (option string)) :
  map (@Ret (option string)) l1 = map (@Ret (option string)) l2 -> l1 = l2.
Proof.
  revert l2. induction l1 as [|a l1 IH]; intros [|b l2] H; try discriminate;
    [reflexivity|].
  cbn in H. injection H as -> H. f_equal. now apply IH.
Qed.

(** The call returns no error exactly when the root directory is made,
    every identifier parses and every task returns [nil]. *)
Lemma DownloadLatestReleases_nil_iff d userRepos sched w :
  let out := DownloadLatestReleases env d userRepos sched w in
  err out = None
  <-> (handle env (MkdirAll (destDir d)) w).1 = None
      /\ Forall (fun s => malformed s = false) userRepos
      /\ exists results,
           tasks out = map Ret results /\ Forall (fun res => res = None) results.
Proof.
  intros out.
  assert (Hbarrier :
            (handle env (MkdirAll (destDir d)) w).1 = None ->
            Forall (fun s => malformed s = false) userRepos ->
            err out = None
            <-> exists results,
                  tasks out = map Ret results
                  /\ Forall (fun res => res = None) results).
  { intros Hm Hall.
    destruct (DownloadLatestReleases_barrier env d userRepos sched w Hm Hall)
      as (results & errs & Ht & Hlen & _ & Hperm & Herr & _).
    fold out in Ht, Herr. rewrite <- (parsed_length userRepos Hall) in Hlen.
    pose proof (failures_nil (parsed userRepos) results Hlen) as Hnil.
    rewrite Herr. split.
    - intros He. exists results. split; [exact Ht|]. apply Hnil.
      destruct errs; [|discriminate]. now apply Permutation_nil_l in Hperm.
    - intros (results' & Ht' & Hnone). rewrite Ht in Ht'.
      apply map_Ret_inj in Ht'. subst results'. apply Hnil in Hnone.
      rewrite Hnone in Hperm. apply Permutation_nil_r in Hperm. now subst errs. }
  destruct (handle env (MkdirAll (destDir d)) w) as [[e|] w1] eqn:Hmk.
  { subst out. unfold DownloadLatestReleases. rewrite Hmk. cbn.
    split; [discriminate|]. now intros [[=] _]. }
  destruct (all_or_first_malformed userRepos) as [Hall|Hbad].
  - rewrite (Hbarrier eq_refl Hall). cbn [fst]. tauto.
  - split; [|intros (_ & Hall & _); exfalso].
    + destruct (first_malformed userRepos Hbad)
        as (before & bad & after & -> & Hb & Hx).
      subst out. unfold DownloadLatestReleases. rewrite Hmk.
      rewrite (spawn_bad env d before bad after [] Hb Hx).
      destruct (schedule env sched _ _) as [pool1 w3]. discriminate.
    + apply Exists_exists in Hbad as (s & Hin & Hs).
      rewrite Forall_forall in Hall. specialize (Hall s Hin). congruence.
Qed.

Lemma fold_left_Println l w :
  fold_left Println l w
  = with_stdout w (stdout w ++ map (fun p => p +:+ GoStrings.LF) l).
Proof.
  revert w. induction l as [|p l IH]; intros w.
  { cbn. rewrite app_nil_r. now destruct w. }
  cbn [fold_left map]. rewrite IH. unfold Println. cbn.
  now rewrite <- app_assoc.
Qed.

(** What [download_and_list] does, by the outcome of the call. *)
Lemma download_and_list_cases P tok dest filter userRepos sched w :
  let d := SetMatchFilter (New (getenv P) tok dest) filter in
  let w0 := Println (fresh w) "Starting download..." in
  let out := DownloadLatestReleases env d userRepos sched w0 in
  let e := download_and_list env P tok dest filter userRepos sched w in
  match err out with
  | Some m =>
      code e = 1 /\ final e = world out
      /\ stderr e = [log_prefix P +:+ "Error downloading releases: " +:+ m
                     +:+ GoStrings.LF]
  | None =>
      code e = 0 /\ stderr e = []
      /\ final e
         = with_stdout (world out)
             (stdout (world out)
              ++ ["Download completed successfully." +:+ GoStrings.LF;
                  "Downloaded binaries:" +:+ GoStrings.LF]
              ++ map (fun p => p +:+ GoStrings.LF) (paths out))
  end.
Proof.
  intros d w0 out e. subst e. unfold download_and_list. fold d. fold w0. fold out.
  destruct (err out) as [m|]; [repeat split|].
  split; [reflexivity|]. split; [reflexivity|].
  cbn [final]. rewrite fold_left_Println. unfold Println. cbn.
  now rewrite <- !app_assoc.
Qed.

End CommandLine.

(** The end of the command with [-repo] flags once the flags are
    parsed. *)
Lemma main_after_parse env P F sched w :
  let tok := token_or_env P (cmd.flag_token F) in
  let d := SetMatchFilter (New (getenv P) tok (cmd.flag_dest F)) (cmd.flag_match F) in
  let w0 := Println (fresh (warn_without_token tok w)) "Starting download..." in
  let out := DownloadLatestReleases env d (cmd.flag_repo F) sched w0 in
  let e := cmd.main env P F sched w in
  (code e = 0 \/ code e = 1)
  /\ (code e = 0
      <-> cmd.flag_repo F <> []
          /\ (handle env (MkdirAll (cmd.flag_dest F)) w0).1 = None
          /\ Forall (fun s => malformed s = false) (cmd.flag_repo F)
          /\ exists results,
               tasks out = map Ret results /\ Forall (fun res => res = None) results)
  /\ (code e = 0 ->
      stderr e = []
      /\ stdout (final e)
         = stdout (world out)
           ++ ["Download completed successfully." +:+ GoStrings.LF;
               "Downloaded binaries:" +:+ GoStrings.LF]
           ++ map (fun p => p +:+ GoStrings.LF) (binPaths (world out)))
  /\ (code e = 1 ->
      (cmd.flag_repo F = [] /\ stderr e = [usage P]
       /\ trace (final e) = trace w /\ fs (final e) = fs w
       /\ binPaths (final e) = binPaths w)
      \/ (exists m, err out = Some m /\ final e = world out
                    /\ stderr e = [log_prefix P +:+ "Error downloading releases: "
                                   +:+ m +:+ GoStrings.LF])).
Proof.
  intros tok d w0 out e. subst e. unfold cmd.main. fold tok.
  destruct (cmd.flag_repo F) as [|r rs] eqn:Hrepo; cbn [length Nat.eqb].
  { cbn [code stderr final]. split; [now right|]. split.
    - split; [discriminate|]. now intros [[] _].
    - split; [discriminate|]. intros _. left. repeat split.
      + unfold warn_without_token. now destruct (String.eqb tok "").
      + unfold warn_without_token. now destruct (String.eqb tok "").
      + unfold warn_without_token. now destruct (String.eqb tok ""). }
  pose proof (download_and_list_cases env P tok (cmd.flag_dest F) (cmd.flag_match F)
                (r :: rs) sched (warn_without_token tok w)) as Hcases.
  pose proof (DownloadLatestReleases_nil_iff env d (r :: rs) sched w0) as Hnil.
  cbv zeta in Hcases, Hnil. fold d w0 in Hcases. fold out in Hcases, Hnil.
  change (destDir d) with (cmd.flag_dest F) in Hnil.
  set (e := download_and_list _ _ _ _ _ _ _ _) in *.
  destruct (err out) as [m|] eqn:Herr.
  - destruct Hcases as (Hc & Hf & Hs). rewrite Hc.
    split; [now right|]. split.
    + split; [discriminate|]. intros (_ & H). apply Hnil in H. discriminate.
    + split; [discriminate|]. intros _. right. exists m. auto.
  - destruct Hcases as (Hc & Hs & Hf). rewrite Hc.
    split; [now left|]. split.
    + split; [|reflexivity]. intros _. split; [discriminate|]. now apply Hnil.
    + split; [|discriminate]. intros _. split; [exact Hs|].
      rewrite Hf. cbn [stdout with_stdout].
      destruct (proj1 Hnil eq_refl) as (Hm & Hall & _).
      destruct (DownloadLatestReleases_barrier env d (r :: rs) sched w0 Hm Hall)
        as (results & errs & _ & _ & Hp & _).
      fold out in Hp. now rewrite Hp.
Qed.

(** X14: the exit status of the command with [-repo] flags is 0, 1 or 2.
    It is 2 exactly when [flag.Parse] refuses the command line, and 0 when
    the help is asked for.  Once the flags are parsed it is 0 exactly
    when there is at least one [-repo] flag, the root directory is made,
    every identifier parses and the task of every repository returns
    [nil], and 1 otherwise.  With status 0 after the download nothing goes
    to the standard error and the last lines of the standard output are
    the two headings and the result list of the downloader, one path a
    line.  With status 1 no path is listed: either no repository was
    given, and then the usage is printed and nothing else is done, or the
    error of the call is logged and the world is left as the call left
    it. *)
Theorem main_exit_status env P parse sched w :
  let e := cmd.command env P parse sched w in
  (code e = 0 \/ code e = 1 \/ code e = 2)
  /\ (code e = 2 <-> exists message, parse = ParseError message)
  /\ (code e = 1 -> exists F, parse = Parsed F)
  /\ match parse with
     | ParseError message =>
         final e = w /\ stderr e = [message +:+ GoStrings.LF; usage P]
     | ParseHelp => code e = 0 /\ final e = w /\ stderr e = [usage P]
     | Parsed F =>
         let tok := token_or_env P (cmd.flag_token F) in
         let d := SetMatchFilter (New (getenv P) tok (cmd.flag_dest F))
                    (cmd.flag_match F) in
         let w0 := Println (fresh (warn_without_token tok w))
                     "Starting download..." in
         let out := DownloadLatestReleases env d (cmd.flag_repo F) sched w0 in
         (code e = 0 \/ code e = 1)
         /\ (code e = 0
             <-> cmd.flag_repo F <> []
                 /\ (handle env (MkdirAll (cmd.flag_dest F)) w0).1 = None
                 /\ Forall (fun s => malformed s = false) (cmd.flag_repo F)
                 /\ exists results,
                      tasks out = map Ret results
                      /\ Forall (fun res => res = None) results)
         /\ (code e = 0 ->
             stderr e = []
             /\ stdout (final e)
                = stdout (world out)
                  ++ ["Download completed successfully." +:+ GoStrings.LF;
                      "Downloaded binaries:" +:+ GoStrings.LF]
                  ++ map (fun p => p +:+ GoStrings.LF) (binPaths (world out)))
         /\ (code e = 1 ->
             (cmd.flag_repo F = [] /\ stderr e = [usage P]
              /\ trace (final e) = trace w /\ fs (final e) = fs w
              /\ binPaths (final e) = binPaths w)
             \/ (exists m, err out = Some m /\ final e = world out
                           /\ stderr e = [log_prefix P
                                          +:+ "Error downloading releases: "
                                          +:+ m +:+ GoStrings.LF]))
     end.
Proof.
  intros e. destruct parse as [message| |F].
  - cbn. split; [auto|]. split; [split; eauto|]. split; [discriminate|auto].
  - cbn. split; [auto|]. split; [split; [discriminate|intros (m & [=])]|].
    split; [discriminate|auto].
  - pose proof (main_after_parse env P F sched w) as H. cbv zeta in H.
    fold (cmd.command env P (Parsed F) sched w) in H. fold e in H.
    destruct H as (H01 & H0 & Hout & H1).
    split; [destruct H01; auto|]. split.
    { split; [intros H2; destruct H01 as [H|H]; rewrite H in H2; discriminate|].
      intros (m & [=]). }
    split; [eauto|]. cbv zeta. auto.
Qed.

Lemma main_exit_status_witness :
  code (cmd.command Ex.env
          {| getenv := fun _ => ""; usage := "Usage of ghdownloader:";
             log_prefix := "" |}
          (Parsed {| cmd.flag_token := "s3cr3t"; cmd.flag_dest := "downloads";
                     cmd.flag_repo := ["acme/tool"]; cmd.flag_match := "linux" |})
          [0; 0]%nat Ex.empty) = 0
  /\ code (cmd.command Ex.env
             {| getenv := fun _ => ""; usage := "Usage of ghdownloader:";
                log_prefix := "" |}
             (ParseError "flag provided but not defined: -repos")
             [0; 0]%nat Ex.empty) = 2.
Proof.
  split.
  - apply (proj2 (proj1 (proj2 (proj2 (proj2 (proj2 (main_exit_status Ex.env
            {| getenv := fun _ => ""; usage := "Usage of ghdownloader:";
               log_prefix := "" |}
            (Parsed {| cmd.flag_token := "s3cr3t"; cmd.flag_dest := "downloads";
                       cmd.flag_repo := ["acme/tool"]; cmd.flag_match := "linux" |})
            [0; 0]%nat Ex.empty))))))).
    split; [discriminate|]. split; [reflexivity|]. split; [repeat constructor|].
    exists [None]. split; [reflexivity|repeat constructor].
  - apply (proj2 (proj1 (proj2 (main_exit_status Ex.env
            {| getenv := fun _ => ""; usage := "Usage of ghdownloader:";
               log_prefix := "" |}
            (ParseError "flag provided but not defined: -repos")
            [0; 0]%nat Ex.empty)))).
    eauto.
Defined.

(** One failing repository hides the paths of the others: the asset of
    the first repository is saved and is in the result list, and the
    command lists nothing. *)
Example failing_repository_hides_paths :
  let P := {| getenv := fun _ => ""; usage := "Usage of ghdownloader:";
              log_prefix := "" |} in
  let F := {| cmd.flag_token := "s3cr3t"; cmd.flag_dest := "downloads";
              cmd.flag_repo := ["acme/tool"; "acme/drafty"];
              cmd.flag_match := "linux" |} in
  let e := cmd.main Ex.env P F [] Ex.empty in
  code e = 1
  /\ binPaths (final e) = ["downloads/tool-v1.2.0/tool_linux.tar.gz"]
  /\ stdout (final e)
     = ["Starting download..." +:+ GoStrings.LF;
        "Downloaded 'tool_linux.tar.gz' to 'downloads/tool-v1.2.0/tool_linux.tar.gz'"
        +:+ GoStrings.LF;
        "Skipping asset 'tool_darwin.tar.gz' (does not match filter 'linux')"
        +:+ GoStrings.LF].
Proof. vm_compute. repeat split. Qed.

Section SplitFacts.

Lemma Split_app s t sep :
  GoStrings.Split (s +:+ String sep t) sep
  = GoStrings.Split s sep ++ GoStrings.Split t sep.
Proof.
  induction s as [|c s IH].
  { change ("" +:+ String sep t) with (String sep t). cbn [GoStrings.Split app].
    now rewrite Ascii.eqb_refl. }
  change (String c s +:+ String sep t) with (String c (s +:+ String sep t)).
  cbn [GoStrings.Split].
  destruct (Ascii.eqb c sep); [now rewrite IH|].
  rewrite IH. pose proof (Split_nonempty s sep) as Hne.
  destruct (GoStrings.Split s sep) as [|seg segs]; [congruence|reflexivity].
Qed.

Lemma Split_no_sep s sep :
  GoStrings.count sep s = 0%nat -> GoStrings.Split s sep = [s].
Proof.
  induction s as [|c s IH]; cbn [GoStrings.count GoStrings.Split]; [reflexivity|].
  destruct (Ascii.eqb c sep); [discriminate|]. cbn [Nat.add]. intros H.
  now rewrite IH.
Qed.

(** Splitting what [strings.Join] made of segments without the separator
    gives the segments back. *)
Lemma Split_Join l sep :
  l <> [] ->
  Forall (fun s => GoStrings.count sep s = 0%nat) l ->
  GoStrings.Split (GoStrings.Join l (String sep EmptyString)) sep = l.
Proof.
  unfold GoStrings.Join. intros Hne Hall.
  induction Hall as [|x l Hx Hall IH]; [congruence|].
  destruct l as [|y l].
  { cbn. now apply Split_no_sep. }
  change (String.concat (String sep "") (x :: y :: l))
    with (x +:+ String sep (String.concat (String sep "") (y :: l))).
  rewrite Split_app, IH by discriminate. now rewrite Split_no_sep.
Qed.

Lemma repo_flags_values values : cmd.repo_flags values = values.
Proof.
  unfold cmd.repo_flags.
  assert (H : forall acc : list string,
             fold_left (fun r v => (cmd.repoList_Set r v).1) values acc
             = acc ++ values).
  { induction values as [|v values IH]; intros acc; cbn.
    - now rewrite app_nil_r.
    - rewrite IH, <- app_assoc. reflexivity. }
  apply (H []).
Qed.

End SplitFacts.

(** X15: a list of the [-repos] flag that ends with a comma makes the
    command exit with status 1, since the empty segment after the comma
    is not an identifier; when the root directory is made and the
    segments before it parse, the error logged is that of the empty
    identifier. *)
Theorem repos_flag_trailing_comma env P F sched w s :
  cmd_repos.flag_repos F = s +:+ "," ->
  let tok := token_or_env P (cmd_repos.flag_token F) in
  let w0 := Println (fresh (warn_without_token tok w)) "Starting download..." in
  let e := cmd_repos.main env P F sched w in
  code e = 1
  /\ ((handle env (MkdirAll (cmd_repos.flag_dest F)) w0).1 = None ->
      Forall (fun x => malformed x = false) (GoStrings.Split s comma) ->
      stderr e
      = [log_prefix P +:+ "Error downloading releases: "
         +:+ "invalid user/repo format '': expected format 'owner/repo'"
         +:+ GoStrings.LF]).
Proof.
  intros Hs tok w0 e. subst e. unfold cmd_repos.main. fold tok. rewrite Hs.
  assert (Hne : String.eqb (s +:+ ",") "" = false) by now destruct s.
  rewrite Hne.
  change (s +:+ ",") with (s +:+ String comma "").
  rewrite Split_app. cbn [GoStrings.Split].
  set (d := SetMatchFilter (New (getenv P) tok (cmd_repos.flag_dest F))
              (cmd_repos.flag_match F)).
  set (userRepos := GoStrings.Split s comma ++ [""]).
  pose proof (download_and_list_cases env P tok (cmd_repos.flag_dest F)
                (cmd_repos.flag_match F) userRepos sched
                (warn_without_token tok w)) as Hcases.
  pose proof (DownloadLatestReleases_nil_iff env d userRepos sched w0) as Hnil.
  cbv zeta in Hcases, Hnil. fold d w0 in Hcases.
  set (out := DownloadLatestReleases env d userRepos sched w0) in *.
  set (e := download_and_list _ _ _ _ _ _ _ _) in *.
  destruct (err out) as [m|] eqn:Herr.
  - destruct Hcases as (Hc & _ & Hst). split; [exact Hc|].
    intros Hm Hall. rewrite Hst. repeat f_equal.
    revert Herr. subst out. unfold DownloadLatestReleases.
    change (destDir d) with (cmd_repos.flag_dest F).
    destruct (handle env (MkdirAll (cmd_repos.flag_dest F)) w0) as [[x|] w1];
      [discriminate Hm|].
    unfold userRepos. rewrite (spawn_bad env d _ "" [] [] Hall eq_refl).
    destruct (schedule env sched _ _) as [pool1 w3]. now intros [= <-].
  - exfalso. destruct (proj1 Hnil eq_refl) as (_ & Hall & _).
    apply Forall_app in Hall as [_ Hall]. apply Forall_cons in Hall as [Hall _].
    discriminate Hall.
Qed.

Lemma repos_flag_trailing_comma_witness :
  code (cmd_repos.main Ex.env
          {| getenv := fun _ => ""; usage := "Usage of ghdownloader:";
             log_prefix := "" |}
          {| cmd_repos.flag_token := "s3cr3t"; cmd_repos.flag_dest := "downloads";
             cmd_repos.flag_repos := "acme/tool,"; cmd_repos.flag_match := "" |}
          [] Ex.empty) = 1.
Proof.
  apply (proj1 (repos_flag_trailing_comma Ex.env
          {| getenv := fun _ => ""; usage := "Usage of ghdownloader:";
             log_prefix := "" |}
          {| cmd_repos.flag_token := "s3cr3t"; cmd_repos.flag_dest := "downloads";
             cmd_repos.flag_repos := "acme/tool,"; cmd_repos.flag_match := "" |}
          [] Ex.empty "acme/tool" eq_refl)).
Defined.

(** X16: the two command lines agree on what they download.  For at
    least one value, none of them with a comma and not the empty string
    alone, the command with one [-repo] flag for each value ends as the
    command with the [-repos] flag on the values joined by commas, which
    is what [repoList.String] prints; the usage texts of the two commands,
    which differ, are not printed. *)
Theorem repo_flags_agree env P P' tok dest filter values sched w :
  getenv P = getenv P' ->
  log_prefix P = log_prefix P' ->
  values <> [] ->
  values <> [""] ->
  Forall (fun v => GoStrings.count comma v = 0%nat) values ->
  cmd.command env P
    (Parsed {| cmd.flag_token := tok; cmd.flag_dest := dest;
               cmd.flag_repo := cmd.repo_flags values; cmd.flag_match := filter |})
    sched w
  = cmd_repos.command env P'
      (Parsed {| cmd_repos.flag_token := tok; cmd_repos.flag_dest := dest;
                 cmd_repos.flag_repos := cmd.repoList_String (cmd.repo_flags values);
                 cmd_repos.flag_match := filter |})
      sched w.
Proof.
  intros Hg Hl Hne Hne' Hall. rewrite repo_flags_values.
  unfold cmd.command, cmd_repos.command, cmd.main, cmd_repos.main,
    cmd.repoList_String.
  cbn [cmd.flag_token cmd.flag_dest cmd.flag_repo cmd.flag_match
       cmd_repos.flag_token cmd_repos.flag_dest cmd_repos.flag_repos
       cmd_repos.flag_match].
  pose proof (Split_Join values comma Hne Hall) as Hsplit.
  change (String comma "") with "," in Hsplit.
  destruct (String.eqb_spec (GoStrings.Join values ",") "") as [Hempty|_].
  { rewrite Hempty in Hsplit. cbn in Hsplit. congruence. }
  rewrite Hsplit. destruct values as [|v values]; [congruence|].
  cbn [length Nat.eqb].
  unfold download_and_list, token_or_env. rewrite Hg, Hl. reflexivity.
Qed.

Lemma repo_flags_agree_witness :
  cmd.command Ex.env
    {| getenv := fun _ => ""; usage := "Usage of ghdownloader: -repo value";
       log_prefix := "" |}
    (Parsed {| cmd.flag_token := ""; cmd.flag_dest := "downloads";
               cmd.flag_repo := cmd.repo_flags ["acme/tool"; "acme/drafty"];
               cmd.flag_match := "" |}) [1; 0]%nat Ex.empty
  = cmd_repos.command Ex.env
      {| getenv := fun _ => ""; usage := "Usage of ghdownloader: -repos string";
         log_prefix := "" |}
      (Parsed {| cmd_repos.flag_token := ""; cmd_repos.flag_dest := "downloads";
                 cmd_repos.flag_repos
                   := cmd.repoList_String (cmd.repo_flags ["acme/tool"; "acme/drafty"]);
                 cmd_repos.flag_match := "" |}) [1; 0]%nat Ex.empty.
Proof.
  apply (repo_flags_agree Ex.env
           {| getenv := fun _ => ""; usage := "Usage of ghdownloader: -repo value";
              log_prefix := "" |}
           {| getenv := fun _ => ""; usage := "Usage of ghdownloader: -repos string";
              log_prefix := "" |}
           "" "downloads" "" ["acme/tool"; "acme/drafty"] [1; 0]%nat Ex.empty);
    [reflexivity|reflexivity|discriminate|discriminate|repeat constructor].
Defined.

(** A single empty value tells the two command lines apart: it is a
    repository for the first, which fails on it, and no repository at all
    for the second, which prints its usage. *)
Example empty_value_is_told_apart :
  stderr (cmd.main Ex.env
            {| getenv := fun _ => ""; usage := "Usage of ghdownloader: -repo value";
               log_prefix := "" |}
            {| cmd.flag_token := ""; cmd.flag_dest := "downloads";
               cmd.flag_repo := cmd.repo_flags [""]; cmd.flag_match := "" |}
            [] Ex.empty)
  = ["Error downloading releases: invalid user/repo format '': "
     +:+ "expected format 'owner/repo'" +:+ GoStrings.LF]
  /\ stderr (cmd_repos.main Ex.env
               {| getenv := fun _ => "";
                  usage := "Usage of ghdownloader: -repos string";
                  log_prefix := "" |}
               {| cmd_repos.flag_token := ""; cmd_repos.flag_dest := "downloads";
                  cmd_repos.flag_repos := cmd.repoList_String (cmd.repo_flags [""]);
                  cmd_repos.flag_match := "" |} [] Ex.empty)
     = ["Usage of ghdownloader: -repos string"].
Proof. vm_compute. split; reflexivity. Qed.

(** ** The revision without version directories *)

Section FlatFacts.

Variable env : Env.
Variable d : Downloader.

(** The asset fetcher of that revision is the later one on the root
    directory and without force, and so is the loop. *)
Lemma flat_downloadAsset asset :
  flat.downloadAsset env d asset = downloadAsset env d asset (destDir d) false.
Proof. reflexivity. Qed.

Lemma flat_downloadAssets owner repo assets :
  flat.downloadAssets env d owner repo assets
  = downloadAssets env d owner repo (destDir d) false assets.
Proof.
  induction assets as [|asset rest IH]; [reflexivity|].
  cbn [flat.downloadAssets downloadAssets]. rewrite IH, flat_downloadAsset.
  reflexivity.
Qed.

End FlatFacts.

(** X17: in the revision that saves every asset in the root directory,
    the task of a repository returns an error exactly when the latest
    release cannot be fetched, is a draft or a pre-release, or has no
    asset, with the message of that case; no failure of an asset and no
    failure of a directory is returned, and the paths it records are
    targets in the root directory. *)
Theorem flat_task_error env d owner repo w :
  let r := run env (flat.downloadLatestRelease env d owner repo) w in
  (forall e, r.1 = Some e <-> flat.task_failure env owner repo w e)
  /\ errChan r.2 = errChan w
  /\ exists l,
      binPaths r.2 = binPaths w ++ l
      /\ (r.1 <> None -> l = [])
      /\ forall path, In path l ->
          exists name, path = filepath_Join env (destDir d) name.
Proof.
  intros r. subst r. unfold flat.downloadLatestRelease, flat.task_failure. cbn [run].
  change (handle env (GetLatestRelease owner repo) w)
    with (LatestRelease env w owner repo, record w (EvGetLatestRelease owner repo)).
  cbv beta iota.
  destruct (LatestRelease env w owner repo) as [x|release].
  { cbn. split; [intros e; split; congruence|]. split; [reflexivity|].
    exists []. rewrite app_nil_r. repeat split; auto. intros path []. }
  destruct (github.GetDraft release || github.GetPrerelease release).
  { cbn. split; [intros e; split; congruence|]. split; [reflexivity|].
    exists []. rewrite app_nil_r. repeat split; auto. intros path []. }
  destruct (length (github.Assets release) =? 0)%nat.
  { cbn. split; [intros e; split; congruence|]. split; [reflexivity|].
    exists []. rewrite app_nil_r. repeat split; auto. intros path []. }
  rewrite flat_downloadAssets.
  set (w0 := record w (EvGetLatestRelease owner repo)).
  pose proof (downloadAssets_run env d owner repo (destDir d) false
                (github.Assets release) w0) as [Hnone _].
  pose proof (downloadAssets_effects env d owner repo (destDir d) false
                (github.Assets release) w0) as (He & (l & Hb & Hl) & _).
  split; [intros e; rewrite Hnone; split; [discriminate|contradiction]|].
  split; [exact He|]. exists l. split; [exact Hb|].
  split; [now rewrite Hnone|]. intros path Hin.
  apply sublist_submseteq in Hl. apply list_elem_of_In in Hin.
  pose proof (elem_of_submseteq _ _ _ Hin Hl) as Hx.
  apply list_elem_of_In, in_map_iff in Hx as (a & <- & _).
  now exists (github.GetName a).
Qed.

Lemma flat_task_error_witness :
  (run Ex.env (flat.downloadLatestRelease Ex.env Ex.d "acme" "drafty") Ex.empty).1
  = Some "latest release is draft or pre-release".
Proof.
  apply (proj1 (flat_task_error Ex.env Ex.d "acme" "drafty" Ex.empty)).
  reflexivity.
Defined.

(** X18: in that revision assets of the same name collide, whatever
    their repositories.  Once [downloadAsset] has saved an asset, a call
    of the same downloader for any asset of that name whose API URL is not
    empty returns [nil] and records the path of the first one again
    without a request: the second asset is never downloaded. *)
Theorem flat_same_name_collides env d asset w w1 :
  run env (flat.downloadAsset env d asset) w = (None, w1) ->
  forall asset',
    github.GetName asset' = github.GetName asset ->
    github.GetURL asset' <> "" ->
    exists w2,
      run env (flat.downloadAsset env d asset') w1 = (None, w2)
      /\ trace w2 = trace w1 ++ [EvStat (target env (destDir d) asset)]
      /\ binPaths w2 = binPaths w1 ++ [target env (destDir d) asset]
      /\ fs w2 = fs w1.
Proof.
  intros Hrun asset' Hname Hurl. rewrite flat_downloadAsset in *.
  destruct (downloadAsset_effects env d asset (destDir d) false w None w1 Hrun)
    as (new & _ & _ & _ & _ & _ & Hok & _).
  specialize (Hok eq_refl). unfold target in *.
  eexists. split.
  - apply downloadAsset_existing; [exact Hurl|]. now rewrite Hname.
  - rewrite Hname. repeat split.
Qed.

Lemma flat_same_name_collides_witness :
  exists w1 w2,
    run Ex.env (flat.downloadAsset Ex.env Ex.d Ex.linux) Ex.empty = (None, w1)
    /\ run Ex.env
         (flat.downloadAsset Ex.env Ex.d
            (Ex.asset "tool_linux.tar.gz" "https://api.example/assets/4711")) w1
       = (None, w2)
    /\ trace w2 = trace w1 ++ [EvStat "downloads/tool_linux.tar.gz"]
    /\ binPaths w2 = binPaths w1 ++ ["downloads/tool_linux.tar.gz"]
    /\ fs w2 = fs w1.
Proof.
  eexists.
  destruct (flat_same_name_collides Ex.env Ex.d Ex.linux Ex.empty _ eq_refl
              (Ex.asset "tool_linux.tar.gz" "https://api.example/assets/4711")
              eq_refl ltac:(discriminate)) as (w2 & H).
  exists w2. split; [reflexivity|exact H].
Defined.

(** ** The first revision *)

Section FirstFacts.

Variable env : Env.
Variable d : Downloader.


Lemma first_downloadAsset_effects owner repo asset w r w1 :
  run env (first.downloadAsset env d owner repo asset) w = (r, w1) ->
  let path := filepath_Join env (destDir d) (first.fileName owner repo asset) in
  let req := first.request (token d) (first.GetBrowserDownloadURL asset) in
  exists new,
    trace w1 = trace w ++ new
    /\ binPaths w1 = binPaths w ++ recorded path r
    /\ errChan w1 = errChan w
    /\ ((requests new = [] /\ (r = None -> is_Some (fs w !! path)))
        \/ requests new = [(http.DefaultClient, req)])
    /\ (forall q, q <> path -> fs w1 !! q = fs w !! q)
    /\ (r = None -> is_Some (fs w1 !! path)).
Proof.
  intros Hrun path req. revert Hrun. unfold first.downloadAsset. fold path.
  destruct (String.eqb (first.GetBrowserDownloadURL asset) "").
  { cbn [run]. intros [= <- <-]. exists []. quiet. }
  cbn [run handle].
  destruct (bool_decide (is_Some (fs w !! path))) eqn:Hst.
  { apply bool_decide_eq_true_1 in Hst. cbn [run handle]. intros [= <- <-].
    exists [EvStat path]. cbn.
    split; [reflexivity|]. split; [reflexivity|]. split; [reflexivity|].
    split; [left; split; [reflexivity|intros _; exact Hst]|].
    split; [reflexivity|intros _; exact Hst]. }
  cbn [run]. set (w0 := record w (EvStat path)).
  destruct (handle env (Create path) w0) as [[e|] wc] eqn:Hc.
  { cbn [run]. intros [= <- <-]. exists [EvStat path; EvCreate path].
    cbn in Hc. destruct (fs w !! path) as [[c|]|];
      try destruct (Create_err env w0 path); try discriminate;
      inversion Hc; subst; cbn; rewrite <- ?app_assoc; quiet. }
  assert (Hwc : trace wc = trace w ++ [EvStat path; EvCreate path]
                /\ binPaths wc = binPaths w /\ errChan wc = errChan w
                /\ forall q, q <> path -> fs wc !! q = fs w !! q).
  { cbn in Hc. destruct (fs w !! path) as [[c|]|];
      try destruct (Create_err env w0 path); try discriminate;
      inversion Hc; subst; cbn; rewrite <- ?app_assoc; repeat split; auto;
      intros q Hq; now rewrite lookup_insert_ne. }
  destruct Hwc as (Htc & Hbc & Hec & Hfc).
  unfold NewRequest.
  destruct (NewRequest_err env "GET" (first.GetBrowserDownloadURL asset)).
  { cbn [run]. intros [= <- <-]. exists [EvStat path; EvCreate path].
    rewrite Htc, Hbc, Hec. quiet. now apply Hfc. }
  cbn [run handle]. fold (first.request (token d) (first.GetBrowserDownloadURL asset)).
  fold req.
  destruct (RoundTrip env wc http.DefaultClient req) as [e|resp].
  { cbn [run]. intros [= <- <-].
    exists [EvStat path; EvCreate path; EvDo http.DefaultClient req].
    cbn [trace binPaths errChan fs record]. rewrite Htc, Hbc, Hec, <- app_assoc.
    quiet. now apply Hfc. }
  destruct (negb (http.StatusCode resp =? http.StatusOK)).
  { cbn [run]. intros [= <- <-].
    exists [EvStat path; EvCreate path; EvDo http.DefaultClient req].
    cbn [trace binPaths errChan fs record]. rewrite Htc, Hbc, Hec, <- app_assoc.
    quiet. now apply Hfc. }
  cbn [run handle].
  destruct (copy_outcome _ resp) as [written [e|]]; cbn [run handle];
    intros [= <- <-];
    exists [EvStat path; EvCreate path; EvDo http.DefaultClient req; EvCopy path];
    cbn [trace binPaths errChan fs record with_fs with_stdout with_binPaths recorded];
    rewrite Htc, Hbc, Hec, <- ?app_assoc, ?app_nil_r;
    (split; [reflexivity|]); (split; [reflexivity|]); (split; [reflexivity|]);
    (split; [right; reflexivity|]);
    (split; [intros q Hq; rewrite lookup_insert_ne by congruence; now apply Hfc|]);
    intros _; rewrite lookup_insert_eq; eauto.
Qed.

End FirstFacts.

(** X19: the first revision sends at most one request for an asset, to
    its download URL and through the client that follows redirects, and
    that request always carries an [Authorization] header made of the
    token of the downloader, also when the token is empty.  A call that
    returns [nil] without a request has found the file in place. *)
Theorem first_downloadAsset_request env d owner repo asset w r w1 :
  run env (first.downloadAsset env d owner repo asset) w = (r, w1) ->
  let path := filepath_Join env (destDir d) (first.fileName owner repo asset) in
  exists new,
    trace w1 = trace w ++ new
    /\ (length (requests new) <= 1)%nat
    /\ (forall c req,
        In (c, req) (requests new) ->
        c = http.DefaultClient
        /\ http.URL req = first.GetBrowserDownloadURL asset
        /\ http.Header req !! "Authorization" = Some ("token " +:+ token d))
    /\ (r = None -> requests new = [] -> is_Some (fs w !! path))
    /\ binPaths w1 = binPaths w ++ recorded path r.
Proof.
  intros Hrun path.
  destruct (first_downloadAsset_effects env d owner repo asset w r w1 Hrun)
    as (new & Ht & Hb & _ & Hreq & _).
  exists new. split; [exact Ht|].
  destruct Hreq as [(Hr & Hex)|Hr]; rewrite Hr.
  - split; [cbn; lia|]. split; [intros c req []|]. split; [auto|exact Hb].
  - split; [cbn; lia|]. split; [|split; [discriminate|exact Hb]].
    intros c req [Hin|[]]. inversion Hin; subst.
    split; [reflexivity|]. split; [reflexivity|].
    unfold first.request, http.Header_Set. cbn [http.Header].
    rewrite lookup_insert_ne by discriminate. apply lookup_insert_eq.
Qed.

Lemma first_downloadAsset_request_witness :
  exists r w1 new,
    run Cases.direct
      (first.downloadAsset Cases.direct Ex.anonymous "acme" "tool"
         (Cases.legacy "tool_linux.tar.gz" "https://example/dl/tool_linux.tar.gz"))
      Ex.empty = (r, w1)
    /\ trace w1 = trace Ex.empty ++ new
    /\ forall c req,
        In (c, req) (requests new) ->
        c = http.DefaultClient
        /\ http.URL req = "https://example/dl/tool_linux.tar.gz"
        /\ http.Header req !! "Authorization" = Some "token ".
Proof.
  destruct (first_downloadAsset_request Cases.direct Ex.anonymous "acme" "tool"
              (Cases.legacy "tool_linux.tar.gz" "https://example/dl/tool_linux.tar.gz")
              Ex.empty _ _ eq_refl) as (new & Ht & _ & H & _).
  eexists _, _, new. split; [reflexivity|]. split; [exact Ht|exact H].
Defined.



(** ** The identifiers that parse *)

Section Identifiers.

Lemma Split_segments s sep :
  Forall (fun seg => GoStrings.count sep seg = 0%nat) (GoStrings.Split s sep).
Proof.
  induction s as [|c s IH]; cbn [GoStrings.Split]; [repeat constructor|].
  destruct (Ascii.eqb c sep) eqn:Hc; [constructor; [reflexivity|exact IH]|].
  destruct (GoStrings.Split s sep) as [|seg segs]; [repeat constructor|].
  - cbn. now rewrite Hc.
  - apply Forall_cons in IH as [Hseg Hsegs]. constructor; [|exact Hsegs].
    cbn. now rewrite Hc.
Qed.

End Identifiers.

(** X21: [parseUserRepo] is one to one between the strings with exactly
    one [/] and the pairs of strings without [/]: an owner and a
    repository, joined by a [/], parse to that pair exactly when neither
    holds a [/]; so no owner and no repository that the parser returns
    holds one. *)
Theorem parseUserRepo_inverse (owner repo : string) :
  (GoStrings.count slash owner = 0%nat /\ GoStrings.count slash repo = 0%nat
   <-> parseUserRepo (owner +:+ "/" +:+ repo) = inr (owner, repo))
  /\ forall s, parseUserRepo s = inr (owner, repo) ->
       GoStrings.count slash owner = 0%nat /\ GoStrings.count slash repo = 0%nat.
Proof.
  assert (Hparts : forall s, parseUserRepo s = inr (owner, repo) ->
            GoStrings.count slash owner = 0%nat /\ GoStrings.count slash repo = 0%nat).
  { intros s H. apply parseUserRepo_inr in H.
    pose proof (Split_segments s slash) as Hall. rewrite H in Hall.
    apply Forall_cons in Hall as [Ho Hall]. apply Forall_cons in Hall as [Hr _].
    now split. }
  split; [|exact Hparts]. split; [|apply Hparts].
  intros [Ho Hr]. apply parseUserRepo_inr.
  change (owner +:+ "/" +:+ repo) with (owner +:+ String slash repo).
  rewrite Split_app, (Split_no_sep owner slash Ho), (Split_no_sep repo slash Hr).
  reflexivity.
Qed.

Lemma parseUserRepo_inverse_witness :
  parseUserRepo ("dropsite-ai" +:+ "/" +:+ "ghdownloader")
  = inr ("dropsite-ai", "ghdownloader").
Proof.
  apply (proj1 (proj1 (parseUserRepo_inverse "dropsite-ai" "ghdownloader"))).
  split; reflexivity.
Defined.

(** ** The lines on the standard output *)

Section Lines.

Variable env : Env.
Variable d : Downloader.

Lemma followRedirect_lines asset path resp w r w1 :
  run env (followRedirect env asset path resp) w = (r, w1) ->
  exists lines, stdout w1 = stdout w ++ lines /\ length lines = printed r.
Proof.
  unfold followRedirect.
  destruct (negb (http.StatusCode resp =? http.StatusFound)).
  { cbn [run]. intros [= <- <-]. exists []. now rewrite app_nil_r. }
  destruct (String.eqb (http.Header_Get resp "Location") "").
  { cbn [run]. intros [= <- <-]. exists []. now rewrite app_nil_r. }
  unfold NewRequest.
  destruct (NewRequest_err env "GET" (http.Header_Get resp "Location")).
  { cbn [run]. intros [= <- <-]. exists []. now rewrite app_nil_r. }
  cbn [run handle].
  destruct (RoundTrip env w http.DefaultClient _) as [e|src].
  { cbn [run]. intros [= <- <-]. exists []. now rewrite app_nil_r. }
  destruct (negb (http.StatusCode src =? http.StatusOK)).
  { cbn [run]. intros [= <- <-]. exists []. now rewrite app_nil_r. }
  rewrite writeBody_run.
  destruct (copy_outcome _ src) as [written [e|]]; cbn [fst snd];
    intros [= <- <-]; cbn; [exists []; now rewrite app_nil_r|].
  eexists [_]. split; reflexivity.
Qed.

Lemma fetchAsset_lines asset url path w r w1 :
  run env (fetchAsset env d asset url path) w = (r, w1) ->
  exists lines, stdout w1 = stdout w ++ lines /\ length lines = printed r.
Proof.
  unfold fetchAsset. cbn [run].
  assert (Hc : stdout (handle env (Create path) w).2 = stdout w).
  { cbn. destruct (fs w !! path) as [[c|]|];
      try destruct (Create_err env w path); reflexivity. }
  destruct (handle env (Create path) w) as [[e|] wc]; cbn [snd] in Hc.
  { cbn [run]. intros [= <- <-]. exists []. now rewrite app_nil_r. }
  unfold NewRequest. destruct (NewRequest_err env "GET" url).
  { cbn [run]. intros [= <- <-]. exists []. now rewrite app_nil_r. }
  cbn [run handle].
  destruct (RoundTrip env wc http.NoRedirectClient _) as [e|resp].
  { cbn [run]. intros [= <- <-]. exists []. now rewrite app_nil_r. }
  intros Hrun. apply followRedirect_lines in Hrun as (lines & Hs & Hlen).
  exists lines. cbn [stdout record] in Hs. now rewrite Hs, Hc.
Qed.

Lemma downloadAsset_lines asset dir force w r w1 :
  run env (downloadAsset env d asset dir force) w = (r, w1) ->
  exists lines, stdout w1 = stdout w ++ lines /\ length lines = printed r.
Proof.
  unfold downloadAsset.
  destruct (String.eqb (github.GetURL asset) "").
  { cbn [run]. intros [= <- <-]. exists []. now rewrite app_nil_r. }
  destruct force; cbn [negb]; [apply fetchAsset_lines|].
  cbn [run handle].
  destruct (bool_decide (is_Some (fs w !! _))).
  - cbn [run handle]. intros [= <- <-]. cbn. eexists [_]. split; reflexivity.
  - intros Hrun. apply fetchAsset_lines in Hrun as (lines & Hs & Hlen).
    exists lines. now split.
Qed.

(** The loop prints one line for each asset. *)
Lemma downloadAssets_lines owner repo dir force assets w :
  exists lines,
    stdout (run env (downloadAssets env d owner repo dir force assets) w).2
    = stdout w ++ lines
    /\ length lines = length assets.
Proof.
  revert w. induction assets as [|asset rest IH]; intros w.
  { exists []. cbn. now rewrite app_nil_r. }
  cbn [downloadAssets].
  destruct (negb (String.eqb (matchFilter d) "") && _).
  - cbn [run handle]. fold (skip_line d asset).
    destruct (IH (with_stdout w (stdout w ++ [skip_line d asset])))
      as (lines & Hs & Hlen).
    exists (skip_line d asset :: lines). rewrite Hs. cbn. rewrite <- app_assoc.
    split; [reflexivity|now rewrite Hlen].
  - rewrite run_bind.
    destruct (run env (downloadAsset env d asset dir force) w) as [r w0] eqn:Hrun.
    apply downloadAsset_lines in Hrun as (lines0 & Hs0 & Hlen0).
    destruct r as [e|]; cbn [printed] in Hlen0.
    + destruct lines0; [|discriminate]. rewrite app_nil_r in Hs0.
      cbn [run handle]. fold (warning owner repo asset e).
      destruct (IH (with_stdout w0 (stdout w0 ++ [warning owner repo asset e])))
        as (lines & Hs & Hlen).
      exists (warning owner repo asset e :: lines). rewrite Hs. cbn.
      rewrite Hs0, <- app_assoc. split; [reflexivity|now rewrite Hlen].
    + destruct (IH w0) as (lines & Hs & Hlen).
      exists (lines0 ++ lines). rewrite Hs, Hs0, <- app_assoc.
      split; [reflexivity|]. rewrite length_app, Hlen0, Hlen. reflexivity.
Qed.

End Lines.

(** X22: the task of a repository accounts for every asset on the
    standard output.  When it returns [nil] it has printed exactly one
    line for each asset of the latest release: downloaded, already
    there, left out by the filter, or failed; when it returns an error it
    has printed nothing. *)
Theorem downloadLatestRelease_lines env d owner repo w r w1 :
  run env (downloadLatestRelease env d owner repo) w = (r, w1) ->
  exists lines,
    stdout w1 = stdout w ++ lines
    /\ match r with
       | Some _ => lines = []
       | None =>
           exists release,
             LatestRelease env w owner repo = inr release
             /\ length lines = length (github.Assets release)
       end.
Proof.
  intros Hrun. pose proof (downloadLatestRelease_run env d owner repo w) as H.
  cbv zeta in H. rewrite Hrun in H.
  destruct (LatestRelease env w owner repo) as [x|release].
  { injection H as -> ->. exists []. cbn. now rewrite app_nil_r. }
  destruct (github.GetDraft release || github.GetPrerelease release).
  { injection H as -> ->. exists []. cbn. now rewrite app_nil_r. }
  destruct (length (github.Assets release) =? 0)%nat.
  { injection H as -> ->. exists []. cbn. now rewrite app_nil_r. }
  set (dir := versionDirOf env d repo release) in *.
  set (w0 := record w (EvGetLatestRelease owner repo)) in *.
  pose proof (handle_MkdirAll_cases env dir w0) as Hm.
  destruct (handle env (MkdirAll dir) w0) as [[x|] w2].
  { injection H as -> ->. destruct Hm as (_ & _ & _ & Hs).
    exists []. rewrite app_nil_r. now split. }
  destruct Hm as (_ & _ & _ & Hs2).
  pose proof (downloadAssets_run env d owner repo dir (tag_and_force release).2
                (github.Assets release) w2) as [Hnone _].
  destruct (downloadAssets_lines env d owner repo dir (tag_and_force release).2
              (github.Assets release) w2) as (lines & Hs & Hlen).
  rewrite <- H in Hnone, Hs. cbn [fst snd] in Hnone, Hs. subst r.
  exists lines. split; [now rewrite Hs, Hs2|]. now exists release.
Qed.

Lemma downloadLatestRelease_lines_witness :
  exists r w1 lines,
    run Cases.unavailable
      (downloadLatestRelease Cases.unavailable Cases.only_linux "acme" "tool")
      Ex.empty = (r, w1)
    /\ stdout w1 = stdout Ex.empty ++ lines
    /\ length lines = 2%nat.
Proof.
  destruct (downloadLatestRelease_lines Cases.unavailable Cases.only_linux
              "acme" "tool" Ex.empty _ _ eq_refl) as (lines & Hs & release & Hr & Hlen).
  eexists _, _, lines. split; [reflexivity|]. split; [exact Hs|].
  injection Hr as <-. exact Hlen.
Defined.
